(** * db_blender: the schema-transformation core

    A shallow embedding of the three processors of db_blender
    (src/processors/sql-processor.js, csv-processor.js, json-processor.js)
    and the properties of its specification that concern them.

    Conventions.
    - A JavaScript string is a Rocq [string]; a character stands for one
      code unit below 256, so [String.length] is the JavaScript [length].
    - A JavaScript [Map] whose iteration order is observed is an association
      list updated in place ([Map_set]); one that is only read by key is a
      [gmap]; a [Set] that is iterated is a duplicate-free list in insertion
      order ([Set_add]); one that is only tested is a [gset].
    - Code that can throw returns an [outcome]; code that mutates [this]
      passes the processor state explicitly.
    - Built-ins of the host and of node-sql-parser that the source calls but
      does not define are fields of the records [Host] and [Parser].
    - A plain object used as a map holds its own properties; the names it
      inherits from [Object.prototype] are listed in [Js.objectPrototype]. *)

From Stdlib Require Import Ascii String.
From stdpp Require Import gmap strings list fin_maps pretty relations.

Set Warnings "-clear-no-such-hyp".

(** ** JavaScript string methods used by the processors *)

(** The line feed, written '\n' in the source. *)
Definition LF : string := String "010"%char EmptyString.

Module JsString.

(** [s.startsWith(p)] *)
Definition startsWith (s p : string) : bool := String.prefix p s.

(** [s.includes(needle)] *)
Fixpoint includes (s needle : string) : bool :=
  String.prefix needle s ||
  match s with
  | EmptyString => false
  | String _ s' => includes s' needle
  end.

(** White space and line terminators removed by [trim], among the code
    units below 256: TAB, LF, VT, FF, CR, SPACE and NBSP. *)
Definition isWhiteSpace (c : ascii) : bool :=
  let n := nat_of_ascii c in
  ((9 <=? n) && (n <=? 13)) || (n =? 32) || (n =? 160).

Fixpoint trimStart (s : string) : string :=
  match s with
  | EmptyString => EmptyString
  | String c s' => if isWhiteSpace c then trimStart s' else s
  end.

(** [s.trim()] *)
Definition trim (s : string) : string :=
  String.rev (trimStart (String.rev (trimStart s))).

(** [toUpperCase] on one code unit. Only the letters a-z are mapped here.
    Of the other code units below 256, [toUpperCase] changes the accented
    letters, U+00B5, U+00DF and U+00FF; none of them becomes a character
    of the text the merger compares with, so that comparison is exact. *)
Definition upper (c : ascii) : ascii :=
  let n := nat_of_ascii c in
  if (97 <=? n) && (n <=? 122) then ascii_of_nat (n - 32) else c.

(** [s.toUpperCase()] *)
Fixpoint toUpperCase (s : string) : string :=
  match s with
  | EmptyString => EmptyString
  | String c s' => String (upper c) (toUpperCase s')
  end.

(** [s.substring(n)] *)
Definition substringFrom (n : nat) (s : string) : string :=
  String.substring n (String.length s - n) s.

(** [parts.join(sep)] *)
Fixpoint join (sep : string) (parts : list string) : string :=
  match parts with
  | [] => ""
  | [p] => p
  | p :: rest => p +:+ sep +:+ join sep rest
  end.

End JsString.

(** ** Results of code that can throw *)

Inductive outcome (A : Type) : Type :=
| Ok (a : A)
| Throw (message : string).
Arguments Ok {A} a.
Arguments Throw {A} message.

(** A [for ... of] loop whose body can throw: the first throw ends it. *)
Fixpoint forEach {A S : Type} (body : S → A → outcome S) (s : S)
    (l : list A) : outcome S :=
  match l with
  | [] => Ok s
  | x :: l' =>
      match body s x with
      | Ok s' => forEach body s' l'
      | Throw m => Throw m
      end
  end.

(** ** JavaScript [Map] and [Set] with observable insertion order *)

Fixpoint Map_set {V : Type} (k : string) (v : V) (m : list (string * V))
  : list (string * V) :=
  match m with
  | [] => [(k, v)]
  | (k', v') :: m' =>
      if decide (k' = k) then (k, v) :: m' else (k', v') :: Map_set k v m'
  end.

Definition Map_keys {V : Type} (m : list (string * V)) : list string := m.*1.

Definition Set_add (x : string) (s : list string) : list string :=
  if decide (x ∈ s) then s else s ++ [x].

(** ** The SQL processor (src/processors/sql-processor.js) *)

Module Sql.

(** The options of utils/config.js that the processors read.
    [stripPrefix] is [None] when the option was not given. *)
Record Config := {
  fromEncoding : string;
  toEncoding : string;
  stripPrefix : option string;
  mergeSql : bool;
  outputFormat : string
}.

(** One element of [ast.create_definitions], with the properties the
    processor reads or writes; a property that is absent is [None].
    [reference_definition] holds [def.reference_definition.table]. *)
Record create_definition := {
  resource : string;
  reference_definition : option string;
  type : option string;
  length : option nat;
  charset : option string;
  collate : option string
}.

(** The statement as node-sql-parser returns it: [ast.type],
    [ast.table[0].table] ([None] when [ast.table] has no first element),
    [ast.create_definitions] ([None] when falsy) and whatever else the
    parser recorded, which the processor never inspects. *)
Record Ast (payload : Type) := {
  ast_type : string;
  table : option string;
  create_definitions : option (list create_definition);
  other : payload
}.
Arguments ast_type {payload} _.
Arguments table {payload} _.
Arguments create_definitions {payload} _.
Arguments other {payload} _.

(** [this.parser]: [astify] and [sqlify] of node-sql-parser. Either can
    throw; [message] is the [error.message] the processor logs. *)
Record Parser (payload : Type) := {
  astify : string → outcome (Ast payload);
  sqlify : Ast payload → outcome string
}.
Arguments astify {payload} _ _.
Arguments sqlify {payload} _ _.

(** [this.tables] and [this.dependencies]. The first is iterated by
    [keys()], the second only read with [get]; a dependency set is
    iterated by [for ... of]. *)
Record SqlProcessor (payload : Type) := {
  tables : list (string * Ast payload);
  dependencies : gmap string (list string)
}.
Arguments tables {payload} _.
Arguments dependencies {payload} _.

Definition new_SqlProcessor (payload : Type) : SqlProcessor payload :=
  {| tables := []; dependencies := ∅ |}.

(** *** splitStatements *)

(** [content.split('\n')] *)
Fixpoint split_lines_go (cur : string) (s : string) : list string :=
  match s with
  | EmptyString => [String.rev cur]
  | String c s' =>
      if Ascii.eqb c "010"%char
      then String.rev cur :: split_lines_go "" s'
      else split_lines_go (String c cur) s'
  end.
Definition split_lines (content : string) : list string :=
  split_lines_go "" content.

Definition endsWithSemicolon (s : string) : bool :=
  JsString.startsWith (String.rev s) ";".

Fixpoint splitStatements_go (currentStatement : string) (lines : list string)
  : list string :=
  match lines with
  | [] => []
  | line :: lines' =>
      let trimmedLine := JsString.trim line in
      if JsString.startsWith trimmedLine "--"
         || JsString.startsWith trimmedLine "#"
         || String.eqb trimmedLine ""
      then splitStatements_go currentStatement lines'
      else
        let currentStatement := currentStatement +:+ line +:+ LF in
        if endsWithSemicolon trimmedLine
        then JsString.trim currentStatement :: splitStatements_go "" lines'
        else splitStatements_go currentStatement lines'
  end.

Definition splitStatements (content : string) : list string :=
  splitStatements_go "" (split_lines content).

(** *** transformColumns *)

Definition transformColumn (config : Config) (column : create_definition)
  : create_definition :=
  let column :=
    if decide (type column = Some "TINYTEXT") then
      {| resource := resource column;
         reference_definition := reference_definition column;
         type := Some "VARCHAR";
         length := Some 255;
         charset := charset column;
         collate := collate column |}
    else column in
  if decide (type column = Some "VARCHAR" ∨ type column = Some "TEXT") then
    {| resource := resource column;
       reference_definition := reference_definition column;
       type := type column;
       length := length column;
       charset := Some (toEncoding config);
       collate := Some (toEncoding config +:+ "_unicode_ci") |}
  else column.

Definition transformColumns (config : Config)
    (columns : list create_definition) : list create_definition :=
  map (transformColumn config) columns.

(** *** extractDependencies *)

(** The loop that fills the [Set]; reading [.table] of a missing
    [reference_definition] is a TypeError. *)
Fixpoint collectDependencies (defs : list create_definition)
    (dependencies : list string) : outcome (list string) :=
  match defs with
  | [] => Ok dependencies
  | def :: defs' =>
      if String.eqb (resource def) "foreign key" then
        match reference_definition def with
        | Some t => collectDependencies defs' (Set_add t dependencies)
        | None =>
            Throw "Cannot read properties of undefined (reading 'table')"
        end
      else collectDependencies defs' dependencies
  end.

Definition extractDependencies {payload} (this : SqlProcessor payload)
    (tableName : string) (ast : Ast payload)
  : outcome (SqlProcessor payload) :=
  match
    match create_definitions ast with
    | Some defs => collectDependencies defs []
    | None => Ok []
    end
  with
  | Ok deps =>
      Ok {| tables := tables this;
            dependencies := <[tableName := deps]> (dependencies this) |}
  | Throw m => Throw m
  end.

(** *** orderByDependencies *)

(** The text [visit] looks for: CREATE TABLE `tableName` *)
Definition createTablePattern (tableName : string) : string :=
  "CREATE TABLE `" +:+ tableName +:+ "`".

(** [statements.find(s => s.includes(...))] *)
Definition findStatement (statements : list string) (tableName : string)
  : option string :=
  List.find (λ s, JsString.includes s (createTablePattern tableName))
    statements.

(** The closure state of [orderByDependencies]. *)
Record ordering := {
  visited : gset string;
  ordered : list string
}.

(** [if (stmt) ordered.push(stmt)]: the empty string is falsy. *)
Definition pushFound (stmt : option string) (ordered : list string)
  : list string :=
  match stmt with
  | Some s => if String.eqb s "" then ordered else ordered ++ [s]
  | None => ordered
  end.

(** The recursive closure [visit]. [fuel] bounds the depth of the
    recursion; [None] means the bound was reached before [visit]
    returned. *)
Fixpoint visit (dependencies : gmap string (list string))
    (statements : list string) (fuel : nat) (tableName : string)
    (o : ordering) : option ordering :=
  match fuel with
  | 0 => None
  | S fuel' =>
      if decide (tableName ∈ visited o) then Some o
      else
        let deps := default [] (dependencies !! tableName) in
        o' ← foldl (λ acc dep,
                      acc ≫= visit dependencies statements fuel' dep)
                   (Some o) deps;
        Some {| visited := {[tableName]} ∪ visited o';
                ordered := pushFound (findStatement statements tableName)
                                     (ordered o') |}
  end.

Definition visitAll (dependencies : gmap string (list string))
    (statements : list string) (fuel : nat) (names : list string)
    (o : ordering) : option ordering :=
  foldl (λ acc name, acc ≫= visit dependencies statements fuel name)
        (Some o) names.

Definition isCreateTable (stmt : string) : bool :=
  JsString.startsWith (JsString.toUpperCase (JsString.trim stmt))
                      "CREATE TABLE".

Definition orderByDependencies {payload} (fuel : nat)
    (this : SqlProcessor payload) (statements : list string)
  : option (list string) :=
  o ← visitAll (dependencies this) statements fuel
               (Map_keys (tables this))
               {| visited := ∅; ordered := [] |};
  Some (ordered o ++ filter (λ stmt, isCreateTable stmt = false) statements).

(** *** transformStatements *)

Definition stripTableName (config : Config) (tableName : string) : string :=
  match stripPrefix config with
  | Some prefix =>
      if negb (String.eqb prefix "") && JsString.startsWith tableName prefix
      then JsString.substringFrom (String.length prefix) tableName
      else tableName
  | None => tableName
  end.

(** The body of the [try] block for one statement. The processor state
    that is returned holds the registrations made before a throw. *)
Definition transformStatement {payload} (parser : Parser payload)
    (config : Config) (this : SqlProcessor payload) (statement : string)
  : SqlProcessor payload * outcome string :=
  match astify parser statement with
  | Throw m => (this, Throw m)
  | Ok ast =>
      if String.eqb (ast_type ast) "create" then
        match table ast with
        | None =>
            (this, Throw "Cannot read properties of undefined (reading '0')")
        | Some tableName =>
            let ast :=
              {| ast_type := ast_type ast;
                 table := Some (stripTableName config tableName);
                 create_definitions :=
                   transformColumns config <$> create_definitions ast;
                 other := other ast |} in
            let this :=
              {| tables := Map_set tableName ast (tables this);
                 dependencies := dependencies this |} in
            match extractDependencies this tableName ast with
            | Throw m => (this, Throw m)
            | Ok this => (this, sqlify parser ast)
            end
        end
      else (this, sqlify parser ast)
  end.

(** What the [for] loop of [transformStatements] has built so far. *)
Record transformation (payload : Type) := {
  this_ : SqlProcessor payload;
  transformed : list string;
  warnings : list string
}.
Arguments this_ {payload} _.
Arguments transformed {payload} _.
Arguments warnings {payload} _.

Definition transformStep {payload} (parser : Parser payload)
    (config : Config) (t : transformation payload) (statement : string)
  : transformation payload :=
  match transformStatement parser config (this_ t) statement with
  | (this, Ok transformedSql) =>
      {| this_ := this;
         transformed := transformed t ++ [transformedSql];
         warnings := warnings t |}
  | (this, Throw message) =>
      {| this_ := this;
         transformed := transformed t ++ [statement];
         warnings := warnings t ++
           ["Error transforming statement, keeping original: " +:+ message] |}
  end.

Definition transformLoop {payload} (parser : Parser payload)
    (config : Config) (this : SqlProcessor payload)
    (statements : list string) : transformation payload :=
  foldl (transformStep parser config)
        {| this_ := this; transformed := []; warnings := [] |}
        statements.

(** [transformStatements]: the processor afterwards, the warnings logged
    and the value returned ([None]: [orderByDependencies] did not return
    within [fuel] nested calls). *)
Definition transformStatements {payload} (fuel : nat)
    (parser : Parser payload) (config : Config)
    (this : SqlProcessor payload) (statements : list string)
  : SqlProcessor payload * list string * option (list string) :=
  let t := transformLoop parser config this statements in
  (this_ t, warnings t,
   if mergeSql config
   then orderByDependencies fuel (this_ t) (transformed t)
   else Some (transformed t)).

(** *** generateOutput *)

(** [timestamp] is [new Date().toISOString()] at the time of the call. *)
Definition generateOutput (config : Config) (timestamp : string)
    (statements : list string) : string :=
  let header := JsString.join LF [ "-- Generated by DB Blender";
      "-- Timestamp: " +:+ timestamp;
      "-- Encoding: " +:+ toEncoding config;
      "";
      "SET NAMES utf8mb4;";
      "SET FOREIGN_KEY_CHECKS = 0;";
      "" ] in
  let footer := JsString.join LF [ ""; "SET FOREIGN_KEY_CHECKS = 1;" ] in
  header +:+ JsString.join (";" +:+ LF +:+ LF) statements +:+ footer.

End Sql.

(** ** JavaScript values and the built-ins the type inference calls *)

Module Js.

(** The values a record can hold: what csv-parse yields (strings) and
    what [flattenObject] leaves of a parsed JSON document (null, booleans,
    numbers and strings; arrays were stringified, objects flattened). *)
Inductive value (number : Type) : Type :=
| Null
| Bool (b : bool)
| Number (n : number)
| Str (s : string).
Arguments Null {number}.
Arguments Bool {number} b.
Arguments Number {number} n.
Arguments Str {number} s.

(** The built-ins of the host whose results the inference branches on. *)
Record Host := {
  number : Type;
  (** [Number(value)] *)
  toNumber : value number → number;
  (** [Number.isNaN(n)] *)
  isNaN : number → bool;
  (** [String(n)] for a number [n] *)
  numberToString : number → string;
  (** [new Date(value).toString() === 'Invalid Date'] *)
  dateIsInvalid : value number → bool
}.

(** [String(value)] *)
Definition toString (h : Host) (v : value (number h)) : string :=
  match v with
  | Null => "null"
  | Bool true => "true"
  | Bool false => "false"
  | Number n => numberToString h n
  | Str s => s
  end.

(** [value === null || value === ''] *)
Definition isNullOrEmpty {number} (v : value number) : bool :=
  match v with
  | Null => true
  | Str s => String.eqb s ""
  | _ => false
  end.

(** A record, as [Object.entries] enumerates it. *)
Definition record (number : Type) : Type := list (string * value number).

(** The properties of [Object.prototype], which every object created by
    [{}] inherits: [o[name]] is defined for these names whether or not
    [o] has the property itself. All are functions but __proto__, which
    gives the prototype object. *)
Definition objectPrototype : list string :=
  [ "constructor"; "__defineGetter__"; "__defineSetter__"; "hasOwnProperty";
    "__lookupGetter__"; "__lookupSetter__"; "isPrototypeOf";
    "propertyIsEnumerable"; "toString"; "valueOf"; "__proto__";
    "toLocaleString" ].

Definition inherited (name : string) : bool :=
  existsb (String.eqb name) objectPrototype.

(** *** JSON.parse, as far as the inference uses it: does it return? *)

Definition isJsonWhiteSpace (c : ascii) : bool :=
  let n := nat_of_ascii c in
  (n =? 32) || (n =? 9) || (n =? 10) || (n =? 13).

Definition isDigit (c : ascii) : bool :=
  let n := nat_of_ascii c in (48 <=? n) && (n <=? 57).

Definition isHexDigit (c : ascii) : bool :=
  let n := nat_of_ascii c in
  isDigit c || ((65 <=? n) && (n <=? 70)) || ((97 <=? n) && (n <=? 102)).

Fixpoint skipWhiteSpace (s : string) : string :=
  match s with
  | EmptyString => EmptyString
  | String c s' => if isJsonWhiteSpace c then skipWhiteSpace s' else s
  end.

Fixpoint skipDigits (s : string) : string :=
  match s with
  | EmptyString => EmptyString
  | String c s' => if isDigit c then skipDigits s' else s
  end.

(** One or more digits. *)
Definition digits1 (s : string) : option string :=
  match s with
  | String c s' => if isDigit c then Some (skipDigits s') else None
  | EmptyString => None
  end.

(** number = [ minus ] int [ frac ] [ exp ] *)
Definition jsonNumber (s : string) : option string :=
  let s := match s with
           | String "-" s' => s'
           | _ => s
           end in
  s ← match s with
      | String "0" s' => Some s'
      | _ => digits1 s
      end;
  s ← match s with
      | String "." s' => digits1 s'
      | _ => Some s
      end;
  match s with
  | String c s' =>
      if Ascii.eqb c "e" || Ascii.eqb c "E" then
        match s' with
        | String "+" s'' => digits1 s''
        | String "-" s'' => digits1 s''
        | _ => digits1 s'
        end
      else Some s
  | EmptyString => Some s
  end.

Inductive stringState := InString | AfterBackslash | InHex (n : nat).

(** The characters after the opening quotation mark, up to and including
    the closing one. *)
Fixpoint jsonStringBody (st : stringState) (s : string) : option string :=
  match s with
  | EmptyString => None
  | String c s' =>
      match st with
      | InString =>
          if Ascii.eqb c "034" then Some s'
          else if Ascii.eqb c "\" then jsonStringBody AfterBackslash s'
          else if nat_of_ascii c <? 32 then None
          else jsonStringBody InString s'
      | AfterBackslash =>
          if Ascii.eqb c "u" then jsonStringBody (InHex 4) s'
          else if Ascii.eqb c "034" || Ascii.eqb c "\" || Ascii.eqb c "/"
                  || Ascii.eqb c "b" || Ascii.eqb c "f" || Ascii.eqb c "n"
                  || Ascii.eqb c "r" || Ascii.eqb c "t"
          then jsonStringBody InString s'
          else None
      | InHex n =>
          if isHexDigit c then
            jsonStringBody (match n with
                            | S (S n') => InHex (S n')
                            | _ => InString
                            end) s'
          else None
      end
  end.

Definition dropPrefix (p s : string) : option string :=
  if String.prefix p s
  then Some (String.substring (String.length p)
               (String.length s - String.length p) s)
  else None.

(** value, then the elements of an array after its first bracket, then
    the members of an object after its first brace; [fuel] bounds the
    number of nested calls. *)
Fixpoint jsonValue (fuel : nat) (s : string) : option string :=
  match fuel with
  | 0 => None
  | S fuel' =>
      match s with
      | String "[" s' =>
          match skipWhiteSpace s' with
          | String "]" r => Some r
          | s'' => jsonElements fuel' s''
          end
      | String "{" s' =>
          match skipWhiteSpace s' with
          | String "}" r => Some r
          | s'' => jsonMembers fuel' s''
          end
      | String "034" s' => jsonStringBody InString s'
      | String "t" _ => dropPrefix "true" s
      | String "f" _ => dropPrefix "false" s
      | String "n" _ => dropPrefix "null" s
      | _ => jsonNumber s
      end
  end
with jsonElements (fuel : nat) (s : string) : option string :=
  match fuel with
  | 0 => None
  | S fuel' =>
      r ← jsonValue fuel' s;
      match skipWhiteSpace r with
      | String "," r' => jsonElements fuel' (skipWhiteSpace r')
      | String "]" r' => Some r'
      | _ => None
      end
  end
with jsonMembers (fuel : nat) (s : string) : option string :=
  match fuel with
  | 0 => None
  | S fuel' =>
      match s with
      | String "034" s' =>
          r ← jsonStringBody InString s';
          match skipWhiteSpace r with
          | String ":" r' =>
              r'' ← jsonValue fuel' (skipWhiteSpace r');
              match skipWhiteSpace r'' with
              | String "," r3 => jsonMembers fuel' (skipWhiteSpace r3)
              | String "}" r3 => Some r3
              | _ => None
              end
          | _ => None
          end
      | _ => None
      end
  end.

(** [JSON.parse(text)] returns (rather than throws a SyntaxError): the
    text is one JSON value between optional white space. A call that
    recurses has consumed a bracket, a brace, or a value and its comma,
    so the nested calls are fewer than twice the characters. *)
Definition jsonParses (text : string) : bool :=
  match jsonValue (2 * String.length text + 2) (skipWhiteSpace text) with
  | Some r => String.eqb (skipWhiteSpace r) ""
  | None => false
  end.

End Js.

(** ** Column type inference of the CSV processor
       (src/processors/csv-processor.js, inferColumnTypes) *)

Module Csv.
Import Js.

(** The tracking object of one column. [type] is [None] while it is
    still [null]. *)
Record tracking := {
  type : option string;
  maxLength : nat;
  containsDecimal : bool;
  containsNonNumeric : bool;
  isDate : bool
}.

Definition initialTracking : tracking :=
  {| type := None; maxLength := 0; containsDecimal := false;
     containsNonNumeric := false; isDate := true |}.

(** "Initialize type tracking for each column" *)
Definition initColumnTypes {number} (firstRow : record number)
  : gmap string tracking :=
  foldl (λ columnTypes column, <[column := initialTracking]> columnTypes)
        ∅ firstRow.*1.

(** The body of the inner loop for a value that is neither null nor
    empty, on the tracking object of its column. *)
Definition analyzeValue (h : Host) (t : tracking) (v : value (number h))
  : tracking :=
  let strValue := toString h v in
  let numValue := toNumber h v in
  let maxLength := Nat.max (maxLength t) (String.length strValue) in
  let isDate := if isDate t && dateIsInvalid h v then false else isDate t in
  if negb (isNaN h numValue) then
    {| type := type t; maxLength := maxLength;
       containsDecimal :=
         if JsString.includes (toString h (Number numValue)) "."
         then true else containsDecimal t;
       containsNonNumeric := containsNonNumeric t;
       isDate := isDate |}
  else
    {| type := type t; maxLength := maxLength;
       containsDecimal := containsDecimal t;
       containsNonNumeric := true;
       isDate := isDate |}.

(** One iteration of the inner loop. For a column the first row does not
    have, [columnTypes[column]] is what the plain object [columnTypes]
    inherits under that name. For a name of [Object.prototype] it is a
    function or, under __proto__ (a key no object built by assignment to
    [{}] has of its own), the prototype: the body reads and writes the
    flags on that object, nothing throws and the mapping is as it was.
    For every other name it is undefined, and reading [maxLength] of it
    is a TypeError. *)
Definition analyzeEntry (h : Host) (columnTypes : gmap string tracking)
    (entry : string * value (number h)) : outcome (gmap string tracking) :=
  let '(column, v) := entry in
  if isNullOrEmpty v then Ok columnTypes
  else
    match columnTypes !! column with
    | Some t => Ok (<[column := analyzeValue h t v]> columnTypes)
    | None =>
        if inherited column then Ok columnTypes
        else
          Throw "Cannot read properties of undefined (reading 'maxLength')"
    end.

(** "Analyze each record" *)
Definition analyzeRecords (h : Host) (columnTypes : gmap string tracking)
    (records : list (record (number h))) : outcome (gmap string tracking) :=
  forEach (forEach (analyzeEntry h)) columnTypes records.

(** 'VARCHAR(' + tracking.maxLength + ')' *)
Definition varchar (maxLength : nat) : string :=
  "VARCHAR(" +:+ pretty maxLength +:+ ")".

(** "Determine final types", for one tracking object. *)
Definition determineType (t : tracking) : tracking :=
  let ty :=
    if isDate t then "DATETIME"
    else if negb (containsNonNumeric t) then
      if containsDecimal t then "DECIMAL(10,2)"
      else if maxLength t <=? 3 then "TINYINT"
      else if maxLength t <=? 5 then "SMALLINT"
      else if maxLength t <=? 10 then "INT"
      else "BIGINT"
    else
      if maxLength t <=? 255 then varchar (maxLength t)
      else "TEXT" in
  {| type := Some ty; maxLength := maxLength t;
     containsDecimal := containsDecimal t;
     containsNonNumeric := containsNonNumeric t;
     isDate := isDate t |}.

Definition inferColumnTypes (h : Host) (records : list (record (number h)))
  : outcome (gmap string tracking) :=
  match records with
  | [] => Ok ∅
  | firstRow :: _ =>
      match analyzeRecords h (initColumnTypes firstRow) records with
      | Ok columnTypes => Ok (determineType <$> columnTypes)
      | Throw m => Throw m
      end
  end.

End Csv.

(** ** Column type inference of the JSON processor
       (src/processors/json-processor.js, inferColumnTypes) *)

Module Json.
Import Js.

Record tracking := {
  type : option string;
  maxLength : nat;
  containsDecimal : bool;
  containsNonNumeric : bool;
  isDate : bool;
  isJson : bool
}.

Definition initialTracking : tracking :=
  {| type := None; maxLength := 0; containsDecimal := false;
     containsNonNumeric := false; isDate := true; isJson := false |}.

Definition initColumnTypes {number} (firstRow : record number)
  : gmap string tracking :=
  foldl (λ columnTypes column, <[column := initialTracking]> columnTypes)
        ∅ firstRow.*1.

(** The body of the inner loop for a value that is neither null nor
    empty. When [JSON.parse(strValue)] returns, the [continue] in the
    [try] block skips the date and numeric checks. *)
Definition analyzeValue (h : Host) (t : tracking) (v : value (number h))
  : tracking :=
  let strValue := toString h v in
  let numValue := toNumber h v in
  let maxLength := Nat.max (maxLength t) (String.length strValue) in
  if jsonParses strValue then
    {| type := type t; maxLength := maxLength;
       containsDecimal := containsDecimal t;
       containsNonNumeric := true;
       isDate := false;
       isJson := true |}
  else
    let isDate :=
      if isDate t && dateIsInvalid h v then false else isDate t in
    if negb (isNaN h numValue) then
      {| type := type t; maxLength := maxLength;
         containsDecimal :=
           if JsString.includes (toString h (Number numValue)) "."
           then true else containsDecimal t;
         containsNonNumeric := containsNonNumeric t;
         isDate := isDate;
         isJson := isJson t |}
    else
      {| type := type t; maxLength := maxLength;
         containsDecimal := containsDecimal t;
         containsNonNumeric := true;
         isDate := isDate;
         isJson := isJson t |}.

(** One iteration of the inner loop; the tracking object of a column the
    first row does not have is looked up as in the CSV processor. *)
Definition analyzeEntry (h : Host) (columnTypes : gmap string tracking)
    (entry : string * value (number h)) : outcome (gmap string tracking) :=
  let '(column, v) := entry in
  if isNullOrEmpty v then Ok columnTypes
  else
    match columnTypes !! column with
    | Some t => Ok (<[column := analyzeValue h t v]> columnTypes)
    | None =>
        if inherited column then Ok columnTypes
        else
          Throw "Cannot read properties of undefined (reading 'maxLength')"
    end.

Definition analyzeRecords (h : Host) (columnTypes : gmap string tracking)
    (records : list (record (number h))) : outcome (gmap string tracking) :=
  forEach (forEach (analyzeEntry h)) columnTypes records.

Definition determineType (t : tracking) : tracking :=
  let ty :=
    if isJson t then "JSON"
    else if isDate t then "DATETIME"
    else if negb (containsNonNumeric t) then
      if containsDecimal t then "DECIMAL(10,2)"
      else if maxLength t <=? 3 then "TINYINT"
      else if maxLength t <=? 5 then "SMALLINT"
      else if maxLength t <=? 10 then "INT"
      else "BIGINT"
    else
      if maxLength t <=? 255 then Csv.varchar (maxLength t)
      else "TEXT" in
  {| type := Some ty; maxLength := maxLength t;
     containsDecimal := containsDecimal t;
     containsNonNumeric := containsNonNumeric t;
     isDate := isDate t;
     isJson := isJson t |}.

Definition inferColumnTypes (h : Host) (records : list (record (number h)))
  : outcome (gmap string tracking) :=
  match records with
  | [] => Ok ∅
  | firstRow :: _ =>
      match analyzeRecords h (initColumnTypes firstRow) records with
      | Ok columnTypes => Ok (determineType <$> columnTypes)
      | Throw m => Throw m
      end
  end.

End Json.

(** ** Notions the properties are stated with *)

(** *** Dependency graphs *)

(** [dependsOn D t d]: the dependency set recorded for [t] holds [d]. *)
Definition dependsOn (D : gmap string (list string)) (t d : string) : Prop :=
  d ∈ default [] (D !! t).

(** No table reaches itself along one or more dependencies. *)
Definition acyclic (D : gmap string (list string)) : Prop :=
  ∀ t, ¬ tc (dependsOn D) t t.

(** [a] stands before [b] in [l]. *)
Definition before (a b : string) (l : list string) : Prop :=
  ∃ l1 l2 l3, l = l1 ++ a :: l2 ++ b :: l3.

(** A name the merger can visit: a registered table, or a member of some
    dependency set. *)
Definition mentioned {payload} (this : Sql.SqlProcessor payload)
    (n : string) : Prop :=
  n ∈ Map_keys (Sql.tables this) ∨ ∃ t, dependsOn (Sql.dependencies this) t n.

(** *** What every completed visit of the merger maintains

    [D] is the dependency map, [statements] the transformed statements and
    [roots] the registered table names. The visited names are closed under
    dependencies; the statement found for a visited name has been pushed;
    every pushed statement was found for a visited name; the statement of a
    dependency was pushed before the statement of its dependent; and a
    visited name is a root or a member of some dependency set. *)
Record invariant (D : gmap string (list string)) (statements : list string)
    (roots : list string) (o : Sql.ordering) : Prop := {
  inv_closed : ∀ n d, n ∈ Sql.visited o → dependsOn D n d →
                      d ∈ Sql.visited o;
  inv_pushed : ∀ n s, n ∈ Sql.visited o →
                      Sql.findStatement statements n = Some s →
                      s ∈ Sql.ordered o;
  inv_justified : ∀ s, s ∈ Sql.ordered o →
                       ∃ n, n ∈ Sql.visited o ∧
                            Sql.findStatement statements n = Some s;
  inv_before : ∀ t d st sd, t ∈ Sql.visited o → dependsOn D t d →
                 Sql.findStatement statements t = Some st →
                 Sql.findStatement statements d = Some sd →
                 before sd st (Sql.ordered o);
  inv_origin : ∀ n, n ∈ Sql.visited o → n ∈ roots ∨ ∃ t, dependsOn D t n
}.

(** *** The end of a statement *)

(** [lastIs c s]: the last character of [s] that is not white space is
    [c]. *)
Definition lastIs (c : ascii) (s : string) : Prop :=
  ∃ r, JsString.trimStart (String.rev s) = String c r.

(** *** What a record sequence shows of one column *)

(** The values of column [c] that the inner loop does not skip, in the
    order the loops meet them. *)
Definition entryValues {number} (c : string)
    (entry : string * Js.value number) : list (Js.value number) :=
  if decide (entry.1 = c) then
    if Js.isNullOrEmpty entry.2 then [] else [entry.2]
  else [].

Definition columnValues {number} (c : string)
    (records : list (Js.record number)) : list (Js.value number) :=
  records ≫= (λ r, r ≫= entryValues c).

(** The column profile of section 3 of the specification, read off the
    observed values. *)
Record profile := {
  p_maxLength : nat;
  p_containsDecimal : bool;
  p_containsNonNumeric : bool;
  p_isDate : bool;
  p_isStructured : bool
}.

Definition isNumeric (h : Js.Host) (v : Js.value (Js.number h)) : bool :=
  negb (Js.isNaN h (Js.toNumber h v)).

Definition isDecimal (h : Js.Host) (v : Js.value (Js.number h)) : bool :=
  isNumeric h v &&
  JsString.includes (Js.toString h (Js.Number (Js.toNumber h v))) ".".

Definition isStructured (h : Js.Host) (v : Js.value (Js.number h)) : bool :=
  Js.jsonParses (Js.toString h v).

Definition maxStringLength (h : Js.Host) (vs : list (Js.value (Js.number h)))
  : nat :=
  foldr Nat.max 0 (map (λ v, String.length (Js.toString h v)) vs).

(** The profile of a delimited-text column: no value is structured. *)
Definition csvProfile (h : Js.Host) (vs : list (Js.value (Js.number h)))
  : profile :=
  {| p_maxLength := maxStringLength h vs;
     p_containsDecimal := existsb (isDecimal h) vs;
     p_containsNonNumeric := existsb (λ v, negb (isNumeric h v)) vs;
     p_isDate := forallb (λ v, negb (Js.dateIsInvalid h v)) vs;
     p_isStructured := false |}.

(** The profile of a structured-document column: a structured value is
    not examined further, counts as non-numeric and clears the date flag. *)
Definition jsonProfile (h : Js.Host) (vs : list (Js.value (Js.number h)))
  : profile :=
  {| p_maxLength := maxStringLength h vs;
     p_containsDecimal :=
       existsb (λ v, negb (isStructured h v) && isDecimal h v) vs;
     p_containsNonNumeric :=
       existsb (λ v, isStructured h v || negb (isNumeric h v)) vs;
     p_isDate :=
       forallb (λ v, negb (isStructured h v) &&
                     negb (Js.dateIsInvalid h v)) vs;
     p_isStructured := existsb (isStructured h) vs |}.

(** The resolution precedence of section 4.1, top-down. *)
Definition integerWidth (maxLength : nat) : string :=
  if maxLength <=? 3 then "TINYINT"
  else if maxLength <=? 5 then "SMALLINT"
  else if maxLength <=? 10 then "INT"
  else "BIGINT".

Definition precedence (p : profile) : string :=
  if p_isStructured p then "JSON"
  else if p_isDate p then "DATETIME"
  else if negb (p_containsNonNumeric p) then
    if p_containsDecimal p then "DECIMAL(10,2)"
    else integerWidth (p_maxLength p)
  else if p_maxLength p <=? 255 then
    "VARCHAR(" +:+ pretty (p_maxLength p) +:+ ")"
  else "TEXT".

(** A plain numeric string: decimal digits, the first of which is 0 only
    when it is the whole string. *)
Definition plainNumeric (s : string) : bool :=
  match s with
  | EmptyString => false
  | String c s' =>
      Js.isDigit c && String.eqb (Js.skipDigits s') "" &&
      (negb (Ascii.eqb c "0") || String.eqb s' "")
  end.

(** ** The host the scenarios run on *)

Module Node.
Import Js.

(** Node's built-ins on the values of the scenarios. The instance is
    exact on null, booleans, natural numbers of at most 15 digits, strings
    of at most 15 decimal digits and strings without any digit; signs
    before digits, fractions, exponents, radix prefixes and date formats
    are outside it.

    A number is NaN, an infinity or a natural number. *)
Inductive number := NaN | Infinity (negative : bool) | Nat (n : N).

Fixpoint digitsValue (acc : N) (s : string) : option N :=
  match s with
  | EmptyString => Some acc
  | String c s' =>
      if isDigit c
      then digitsValue (acc * 10 + N.of_nat (nat_of_ascii c - 48))%N s'
      else None
  end.

(** [Number(value)]: a string is trimmed; the empty string is 0. *)
Definition toNumber (v : value number) : number :=
  match v with
  | Null => Nat 0
  | Bool b => Nat (if b then 1 else 0)
  | Number n => n
  | Str s =>
      let t := JsString.trim s in
      if String.eqb t "Infinity" || String.eqb t "+Infinity"
      then Infinity false
      else if String.eqb t "-Infinity" then Infinity true
      else
        match digitsValue 0 t with
        | Some n => Nat n
        | None => NaN
        end
  end.

Definition isNaN (n : number) : bool :=
  match n with
  | NaN => true
  | _ => false
  end.

Definition numberToString (n : number) : string :=
  match n with
  | NaN => "NaN"
  | Infinity false => "Infinity"
  | Infinity true => "-Infinity"
  | Nat n => pretty n
  end.

(** [new Date(s)] for a string of digits, in V8. Four digits are an ISO
    year. Any other count goes to the legacy parser, which reads one
    number n and completes it with 1 and 1: when n can be a day of the
    month (1 to 31) the triple is month/day/year, so the date exists for
    n up to 12 only; otherwise n is the year, and the date exists up to
    the last year a time value can hold. *)
Definition digitsDateIsInvalid (s : string) (n : N) : bool :=
  if String.length s =? 4 then false
  else if ((1 <=? n) && (n <=? 31))%N then (12 <? n)%N
  else (275760 <? n)%N.

Definition dateIsInvalid (v : value number) : bool :=
  match v with
  | Null => false
  | Bool _ => false
  | Number (Nat _) => false
  | Number _ => true
  | Str s =>
      match digitsValue 0 s with
      | Some n => if String.eqb s "" then true else digitsDateIsInvalid s n
      | None => true
      end
  end.

Definition host : Host :=
  {| Js.number := number;
     Js.toNumber := toNumber;
     Js.isNaN := isNaN;
     Js.numberToString := numberToString;
     Js.dateIsInvalid := dateIsInvalid |}.

End Node.

(** ** The inputs of the scenarios *)

Module Scenario.

(** [{age: "7"}, {age: "12"}, {age: "999"}] *)
Definition ages {number} : list (Js.record number) :=
  [ [("age", Js.Str "7")]; [("age", Js.Str "12")];
    [("age", Js.Str "999")] ].

(** The same column with a row added whose age is the empty string and
    a row added whose age is null. *)
Definition agesWithEmpty {number} : list (Js.record number) :=
  [ [("age", Js.Str "7")]; [("age", Js.Str "")]; [("age", Js.Str "12")];
    [("age", Js.Null)]; [("age", Js.Str "999")] ].

(** [{a: "1"}, {b: "2"}]: the second record has a column the first has
    not. *)
Definition differingColumns {number} : list (Js.record number) :=
  [ [("a", Js.Str "1")]; [("b", Js.Str "2")] ].

(** [{code: "007"}]: a number for [Number], not for [JSON.parse]. *)
Definition leadingZeros {number} : list (Js.record number) :=
  [ [("code", Js.Str "007")] ].

Definition mergeConfig (stripPrefix : option string) : Sql.Config :=
  {| Sql.fromEncoding := "auto"; Sql.toEncoding := "utf8mb4";
     Sql.stripPrefix := stripPrefix; Sql.mergeSql := true;
     Sql.outputFormat := "mysql" |}.

Definition plainConfig : Sql.Config :=
  {| Sql.fromEncoding := "auto"; Sql.toEncoding := "utf8mb4";
     Sql.stripPrefix := None; Sql.mergeSql := false;
     Sql.outputFormat := "mysql" |}.

(** A statement tree with the given table name and referenced tables. *)
Definition createTable (name : string) (references : list string)
  : Sql.Ast unit :=
  {| Sql.ast_type := "create";
     Sql.table := Some name;
     Sql.create_definitions :=
       Some (map (λ r, {| Sql.resource := "foreign key";
                          Sql.reference_definition := Some r;
                          Sql.type := None; Sql.length := None;
                          Sql.charset := None; Sql.collate := None |})
                 references);
     Sql.other := () |}.

Definition ordersStatement : string :=
  "CREATE TABLE `orders` (`id` INT, `customer_id` INT, FOREIGN KEY (`customer_id`) REFERENCES `customers` (`id`))".
Definition customersStatement : string :=
  "CREATE TABLE `customers` (`id` INT)".

(** orders references customers; orders was registered first. *)
Definition ordersCustomers : Sql.SqlProcessor unit :=
  {| Sql.tables := [ ("orders", createTable "orders" ["customers"]);
                     ("customers", createTable "customers" []) ];
     Sql.dependencies :=
       <["customers" := []]> (<["orders" := ["customers"]]> ∅) |}.

(** Two tables that reference each other. *)
Definition authorStatement : string :=
  "CREATE TABLE `author` (`id` INT, `favourite` INT, FOREIGN KEY (`favourite`) REFERENCES `book` (`id`))".
Definition bookStatement : string :=
  "CREATE TABLE `book` (`id` INT, `author_id` INT, FOREIGN KEY (`author_id`) REFERENCES `author` (`id`))".

Definition authorBook : Sql.SqlProcessor unit :=
  {| Sql.tables := [ ("author", createTable "author" ["book"]);
                     ("book", createTable "book" ["author"]) ];
     Sql.dependencies :=
       <["book" := ["author"]]> (<["author" := ["book"]]> ∅) |}.

(** A parser that knows the statements of the scenarios and rejects
    every other text, as node-sql-parser rejects a statement it cannot
    parse. [sqlify] writes the table name between backquotes after
    CREATE TABLE. *)
Definition knownStatements : list (string * Sql.Ast unit) :=
  [ ("CREATE TABLE old_users (id INT);", createTable "old_users" []);
    ("CREATE TABLE orders (id INT, customer_id INT, FOREIGN KEY (customer_id) REFERENCES customers (id));",
      createTable "orders" ["customers"]);
    ("CREATE TABLE customers (id INT);", createTable "customers" []) ].

Definition parser : Sql.Parser unit :=
  {| Sql.astify := λ statement,
       match list_find (λ kv, kv.1 = statement) knownStatements with
       | Some (_, (_, ast)) => Ok ast
       | None => Throw "Syntax error"
       end;
     Sql.sqlify := λ ast,
       match Sql.table ast with
       | Some name => Ok ("CREATE TABLE `" +:+ name +:+ "` (...)")
       | None => Throw "Unsupported statement"
       end |}.

(** A table definition the parser rejects: the column list is not
    closed. *)
Definition brokenStatement : string := "CREATE TABLE `t` (id INT;".

(** A parser that also writes the column list: the tree keeps it, as
    printed, where the processor does not look. *)
Definition createTableWith (name : string) (references : list string)
    (columns : string) : Sql.Ast string :=
  {| Sql.ast_type := "create";
     Sql.table := Some name;
     Sql.create_definitions :=
       Some (map (λ r, {| Sql.resource := "foreign key";
                          Sql.reference_definition := Some r;
                          Sql.type := None; Sql.length := None;
                          Sql.charset := None; Sql.collate := None |})
                 references);
     Sql.other := columns |}.

Definition prefixedStatements : list (string * Sql.Ast string) :=
  [ ("CREATE TABLE old_users (id INT, legacy INT);",
      createTableWith "old_users" [] "`id` INT, `legacy` INT");
    ("CREATE TABLE users (id INT);", createTableWith "users" [] "`id` INT");
    ("CREATE TABLE orders (id INT, customer_id INT, FOREIGN KEY (customer_id) REFERENCES old_customers (id));",
      createTableWith "orders" ["old_customers"]
        "`id` INT, `customer_id` INT, FOREIGN KEY (`customer_id`) REFERENCES `old_customers` (`id`)");
    ("CREATE TABLE old_customers (id INT);",
      createTableWith "old_customers" [] "`id` INT") ].

Definition columnParser : Sql.Parser string :=
  {| Sql.astify := λ statement,
       match list_find (λ kv, kv.1 = statement) prefixedStatements with
       | Some (_, (_, ast)) => Ok ast
       | None => Throw "Syntax error"
       end;
     Sql.sqlify := λ ast,
       match Sql.table ast with
       | Some name =>
           Ok ("CREATE TABLE `" +:+ name +:+ "` (" +:+ Sql.other ast +:+ ")")
       | None => Throw "Unsupported statement"
       end |}.


(** Prefix old_, a table old_users and a table users after it. *)
Definition oldUsersAndUsers : list string :=
  [ "CREATE TABLE old_users (id INT, legacy INT);";
    "CREATE TABLE users (id INT);" ].



(** [{a: "1"}, {constructor: "x"}]: the second record has a column whose
    name every object inherits. *)
Definition inheritedColumn {number} : list (Js.record number) :=
  [ [("a", Js.Str "1")]; [("constructor", Js.Str "x")] ].

End Scenario.

(** ** The registries of the SQL processor *)

(** [registered this]: no table is registered twice, dependencies are
    recorded for registered tables only, and no dependency set holds a
    table twice. *)
Definition registered {payload} (this : Sql.SqlProcessor payload) : Prop :=
  NoDup (Map_keys (Sql.tables this)) ∧
  (∀ k, is_Some (Sql.dependencies this !! k) → k ∈ Map_keys (Sql.tables this))
  ∧ ∀ k deps, Sql.dependencies this !! k = Some deps → NoDup deps.

(** ** Objects with the property order of JavaScript *)

(** An array index: a canonical decimal numeral below 2^32 - 1. *)
Definition arrayIndex (k : string) : option N :=
  if plainNumeric k then
    match Node.digitsValue 0 k with
    | Some n => if (n <? 4294967295)%N then Some n else None
    | None => None
    end
  else None.

(** [keyBefore k k']: a new property [k] is enumerated before the existing
    property [k']: array indices come first, in ascending order, and the
    other keys follow in the order of their creation. *)
Definition keyBefore (k k' : string) : bool :=
  match arrayIndex k, arrayIndex k' with
  | Some i, Some j => (i <? j)%N
  | Some _, None => true
  | None, _ => false
  end.

Fixpoint Object_insert {V : Type} (k : string) (v : V)
    (o : list (string * V)) : list (string * V) :=
  match o with
  | [] => [(k, v)]
  | (k', v') :: o' =>
      if keyBefore k k' then (k, v) :: o
      else (k', v') :: Object_insert k v o'
  end.

(** [o[k] = v]: an existing property keeps its place. *)
Definition Object_set {V : Type} (k : string) (v : V)
    (o : list (string * V)) : list (string * V) :=
  if decide (k ∈ o.*1) then Map_set k v o else Object_insert k v o.

(** [acc[k] = v] for a string, a number, a boolean or [null] on an object
    created by [{}]. The key __proto__ names the accessor of
    Object.prototype, and assigning such a value to it creates no
    property. *)
Definition setProperty {V : Type} (k : string) (v : V)
    (acc : list (string * V)) : list (string * V) :=
  if String.eqb k "__proto__" then acc else Object_set k v acc.

(** [o[k]] for a key of the object's own; [None] is [undefined]. The names
    an object inherits from Object.prototype are not modelled. *)
Fixpoint Object_get {V : Type} (k : string) (o : list (string * V))
  : option V :=
  match o with
  | [] => None
  | (k', v) :: o' => if decide (k' = k) then Some v else Object_get k o'
  end.

(** The last of the values written under [k] by [setProperty], in the
    order of [written]; nothing is written under __proto__. *)
Definition lastWritten {V : Type} (k : string) (written : list (string * V))
  : option V :=
  if String.eqb k "__proto__" then None else Object_get k (reverse written).

(** [Object.assign(target, source)] *)
Definition Object_assign {V : Type} (target source : list (string * V))
  : list (string * V) :=
  foldl (λ acc kv, Object_set kv.1 kv.2 acc) target source.

(** ** Records out of a JSON document
       (src/processors/json-processor.js, normalizeData and flattenObject) *)

Module JsonRecords.
Import Js.

Set Warnings "-register-all".

(** What [JSON.parse] returns. The entries of an object are in the order
    [Object.keys] enumerates them. *)
Inductive json (number : Type) : Type :=
| JNull
| JBool (b : bool)
| JNumber (n : number)
| JString (s : string)
| JArray (items : list (json number))
| JObject (entries : list (string * json number)).
Arguments JNull {number}.
Arguments JBool {number} b.
Arguments JNumber {number} n.
Arguments JString {number} s.
Arguments JArray {number} items.
Arguments JObject {number} entries.

Fixpoint jsonSize {number} (j : json number) : nat :=
  match j with
  | JArray items => S (foldr (λ item n, jsonSize item + n) 0 items)
  | JObject entries => S (foldr (λ kv n, jsonSize kv.2 + n) 0 entries)
  | _ => 1
  end.

Fixpoint characters (s : string) : list string :=
  match s with
  | EmptyString => []
  | String c s' => String c EmptyString :: characters s'
  end.

(** [Object.keys(obj)] with [obj[key]] for each key. A string has its
    characters and an array its items under their indices; a boolean or a
    number has no keys; [null] cannot be converted to an object. *)
Definition ownEntries {number} (obj : json number)
  : outcome (list (string * json number)) :=
  match obj with
  | JNull => Throw "Cannot convert undefined or null to object"
  | JBool _ => Ok []
  | JNumber _ => Ok []
  | JString s => Ok (imap (λ i c, (pretty i, JString c)) (characters s))
  | JArray items => Ok (imap (λ i item, (pretty i, item)) items)
  | JObject entries => Ok entries
  end.

(** [prefix ? `${prefix}_${key}` : key] *)
Definition newKey (prefix key : string) : string :=
  if String.eqb prefix "" then key else prefix +:+ "_" +:+ key.

(** The body of the reducer for one key, given the new key and the value;
    [stringify] is [JSON.stringify] on arrays. A nested object is
    flattened from an empty accumulator and assigned to [acc]; the
    flattened object has no key __proto__, so [Object.assign] sets keys
    only. The keys of one object are distinct, as [JSON.parse] leaves
    them. *)
Fixpoint flattenValue {number} (stringify : json number → string)
    (key : string) (v : json number) (acc : record number)
  : record number :=
  match v with
  | JObject entries =>
      Object_assign acc
        ((fix reduce (es : list (string * json number)) (sub : record number)
            : record number :=
            match es with
            | [] => sub
            | (k, v') :: es' =>
                reduce es' (flattenValue stringify (newKey key k) v' sub)
            end) entries [])
  | JArray _ => setProperty key (Str (stringify v)) acc
  | JNull => setProperty key Null acc
  | JBool b => setProperty key (Bool b) acc
  | JNumber n => setProperty key (Number n) acc
  | JString s => setProperty key (Str s) acc
  end.

Definition flattenEntries {number} (stringify : json number → string)
    (prefix : string) (entries : list (string * json number))
    (acc : record number) : record number :=
  foldl (λ acc kv, flattenValue stringify (newKey prefix kv.1) kv.2 acc)
        acc entries.

(** [flattenObject(obj, prefix)] *)
Definition flattenObject {number} (stringify : json number → string)
    (obj : json number) (prefix : string) : outcome (record number) :=
  match ownEntries obj with
  | Ok entries => Ok (flattenEntries stringify prefix entries [])
  | Throw m => Throw m
  end.

(** The leaves of a value in the order the reducer reaches them, each with
    the key that spells its path. *)
Fixpoint leavesOf {number} (stringify : json number → string)
    (key : string) (v : json number) : list (string * value number) :=
  match v with
  | JObject entries =>
      (fix go (es : list (string * json number))
         : list (string * value number) :=
         match es with
         | [] => []
         | (k, v') :: es' => leavesOf stringify (newKey key k) v' ++ go es'
         end) entries
  | JArray _ => [(key, Str (stringify v))]
  | JNull => [(key, Null)]
  | JBool b => [(key, Bool b)]
  | JNumber n => [(key, Number n)]
  | JString s => [(key, Str s)]
  end.

Definition leaves {number} (stringify : json number → string)
    (prefix : string) (entries : list (string * json number))
  : list (string * value number) :=
  entries ≫= λ kv, leavesOf stringify (newKey prefix kv.1) kv.2.

(** [items.map(f)] for an [f] that can throw. *)
Fixpoint mapOutcome {A B : Type} (f : A → outcome B) (l : list A)
  : outcome (list B) :=
  match l with
  | [] => Ok []
  | x :: l' =>
      match f x with
      | Ok y =>
          match mapOutcome f l' with
          | Ok ys => Ok (y :: ys)
          | Throw m => Throw m
          end
      | Throw m => Throw m
      end
  end.


End JsonRecords.

(** ** SQL output of the record processors
       (csv-processor.js and json-processor.js, generateSqlOutput) *)

Module SqlOutput.
Import Js.

(** [s.replace(/'/g, "''")] *)
Fixpoint escapeQuotes (s : string) : string :=
  match s with
  | EmptyString => EmptyString
  | String c s' =>
      if Ascii.eqb c "'" then String "'" (String "'" (escapeQuotes s'))
      else String c (escapeQuotes s')
  end.

(** The text between the quotes of a literal, read back: two quotes are
    one quote, and a quote alone ends the literal too early. *)
Fixpoint unescapeQuotes (s : string) : option string :=
  match s with
  | EmptyString => Some EmptyString
  | String c s' =>
      if Ascii.eqb c "'" then
        match s' with
        | String c' s'' =>
            if Ascii.eqb c' "'" then String "'" <$> unescapeQuotes s''
            else None
        | EmptyString => None
        end
      else String c <$> unescapeQuotes s'
  end.

(** The first lines of the document, up to the opening parenthesis of
    CREATE TABLE. *)
Definition preamble (config : Sql.Config) (timestamp : string) : string :=
  JsString.join LF
    [ "-- Generated by DB Blender";
      "-- Timestamp: " +:+ timestamp;
      "-- Encoding: " +:+ Sql.toEncoding config;
      "";
      "SET NAMES utf8mb4;";
      "SET FOREIGN_KEY_CHECKS = 0;";
      "";
      "CREATE TABLE `imported_data` (" ].

(** [`${type}`] for a type that may still be [null]. *)
Definition typeText (type : option string) : string := default "null" type.

Definition encodingClause (config : Sql.Config) : string :=
  " CHARACTER SET " +:+ Sql.toEncoding config +:+
  " COLLATE " +:+ Sql.toEncoding config +:+ "_unicode_ci".

Definition insertHeader (columns : list string) : string :=
  "INSERT INTO `imported_data` (`" +:+ JsString.join "`, `" columns +:+
  "`) VALUES" +:+ LF.

(** The end of the document, from the column definitions on. *)
Definition assemble (config : Sql.Config) (timestamp : string)
    (columns columnDefs values : list string) : string :=
  preamble config timestamp +:+
  JsString.join ("," +:+ LF) columnDefs +:+ LF +:+ ");" +:+ LF +:+ LF +:+
  insertHeader columns +:+ JsString.join ("," +:+ LF) values +:+
  ";" +:+ LF +:+ LF +:+
  "SET FOREIGN_KEY_CHECKS = 1;" +:+ LF.

(** *** The CSV processor *)

(** One value of a row; [None] is the [undefined] that [record[column]]
    gives for a key the record does not have, which is neither [null] nor
    empty and has the string form undefined. *)
Definition csvValue (h : Host) (v : option (value (number h))) : string :=
  match v with
  | Some v =>
      if isNullOrEmpty v then "NULL"
      else "'" +:+ escapeQuotes (toString h v) +:+ "'"
  | None => "'undefined'"
  end.

Definition csvRow (h : Host) (columns : list string)
    (r : record (number h)) : string :=
  "(" +:+ JsString.join ", "
            (map (λ column, csvValue h (Object_get column r)) columns)
      +:+ ")".

(** Reading [type] of a missing tracking object is a TypeError. *)
Definition csvColumnDef (config : Sql.Config)
    (columnTypes : gmap string Csv.tracking) (column : string)
  : outcome string :=
  match columnTypes !! column with
  | Some t =>
      Ok ("  `" +:+ column +:+ "` " +:+ typeText (Csv.type t) +:+
          encodingClause config)
  | None => Throw "Cannot read properties of undefined (reading 'type')"
  end.

Definition csvGenerateSqlOutput (config : Sql.Config) (timestamp : string)
    (h : Host) (records : list (record (number h)))
    (columnTypes : gmap string Csv.tracking) : outcome string :=
  match records with
  | [] => Ok ""
  | firstRow :: _ =>
      let columns := firstRow.*1 in
      match JsonRecords.mapOutcome (csvColumnDef config columnTypes) columns with
      | Ok columnDefs =>
          Ok (assemble config timestamp columns columnDefs
                (map (csvRow h columns) records))
      | Throw m => Throw m
      end
  end.

(** *** The JSON processor *)

Definition jsonColumnDef (config : Sql.Config)
    (columnTypes : gmap string Json.tracking) (column : string)
  : outcome string :=
  match columnTypes !! column with
  | Some t =>
      if decide (Json.type t = Some "JSON")
      then Ok ("  `" +:+ column +:+ "` JSON")
      else Ok ("  `" +:+ column +:+ "` " +:+ typeText (Json.type t) +:+
               encodingClause config)
  | None => Throw "Cannot read properties of undefined (reading 'type')"
  end.

(** One value of a row. [stringify] is [JSON.stringify] on a value that
    is not [undefined]; of [undefined] it returns [undefined], and calling
    [replace] on that is a TypeError. *)
Definition jsonValue (h : Host) (stringify : value (number h) → string)
    (columnTypes : gmap string Json.tracking) (r : record (number h))
    (column : string) : outcome string :=
  let v := Object_get column r in
  if from_option isNullOrEmpty false v then Ok "NULL"
  else
    match columnTypes !! column with
    | None => Throw "Cannot read properties of undefined (reading 'type')"
    | Some t =>
        if decide (Json.type t = Some "JSON") then
          match v with
          | Some v => Ok ("'" +:+ escapeQuotes (stringify v) +:+ "'")
          | None =>
              Throw "Cannot read properties of undefined (reading 'replace')"
          end
        else
          Ok (match v with
              | Some v => "'" +:+ escapeQuotes (toString h v) +:+ "'"
              | None => "'undefined'"
              end)
    end.

Definition jsonRow (h : Host) (stringify : value (number h) → string)
    (columnTypes : gmap string Json.tracking) (columns : list string)
    (r : record (number h)) : outcome string :=
  match JsonRecords.mapOutcome (jsonValue h stringify columnTypes r) columns with
  | Ok rowValues => Ok ("(" +:+ JsString.join ", " rowValues +:+ ")")
  | Throw m => Throw m
  end.

Definition jsonGenerateSqlOutput (config : Sql.Config) (timestamp : string)
    (h : Host) (stringify : value (number h) → string)
    (records : list (record (number h)))
    (columnTypes : gmap string Json.tracking) : outcome string :=
  match records with
  | [] => Ok ""
  | firstRow :: _ =>
      let columns := firstRow.*1 in
      match JsonRecords.mapOutcome (jsonColumnDef config columnTypes)
              columns with
      | Ok columnDefs =>
          match JsonRecords.mapOutcome
                  (jsonRow h stringify columnTypes columns) records with
          | Ok values =>
              Ok (assemble config timestamp columns columnDefs values)
          | Throw m => Throw m
          end
      | Throw m => Throw m
      end
  end.

End SqlOutput.

(** ** Output formats (utils/config.js and base-processor.js) *)

Module Base.

(** [validFormats] of [getConfig]. *)
Definition validFormats : list string :=
  ["mysql"; "postgresql"; "csv"; "json"].

(** The validation of [getConfig]: [None] is [process.exit(1)]. *)
Definition validateFormat (config : Sql.Config) : option Sql.Config :=
  if decide (Sql.outputFormat config ∈ validFormats) then Some config
  else None.

(** [getOutputExtension] *)
Definition getOutputExtension (config : Sql.Config) : outcome string :=
  let format := Sql.outputFormat config in
  if String.eqb format "mysql" || String.eqb format "postgresql"
  then Ok ".sql"
  else if String.eqb format "csv" then Ok ".csv"
  else if String.eqb format "json" then Ok ".json"
  else Throw ("Unsupported output format: " +:+ format).

End Base.

(** * Properties *)

(** ** The recursion of the merger *)

Section Merger.
Import Sql.
Context (D : gmap string (list string)) (stmts : list string).

Lemma foldl_bind_None {A B} (g : B → A → option A) l :
  foldl (λ acc x, acc ≫= g x) None l = None.
Proof. induction l; simpl; auto. Qed.

Lemma visitAll_cons f name names o :
  visitAll D stmts f (name :: names) o = visit D stmts f name o ≫= visitAll D stmts f names.
Proof.
  unfold visitAll. simpl.
  destruct (visit D stmts f name o); simpl; [done|]. apply foldl_bind_None.
Qed.

Lemma visit_S f t o :
  visit D stmts (S f) t o =
    if decide (t ∈ visited o) then Some o
    else
      visitAll D stmts f (default [] (D !! t)) o ≫= λ o',
        Some {| visited := {[t]} ∪ visited o';
                ordered := pushFound (findStatement stmts t) (ordered o') |}.
Proof. reflexivity. Qed.

Lemma visit_mono f : ∀ f' t o o',
  visit D stmts f t o = Some o' → f ≤ f' → visit D stmts f' t o = Some o'.
Proof.
  induction f as [|f IH]; intros f' t o o' Hv Hle; [done|].
  destruct f' as [|f']; [lia|].
  rewrite visit_S in Hv. rewrite visit_S.
  destruct (decide (t ∈ visited o)) as [Hin|Hnin]; [done|].
  assert (Hall : ∀ names o1 o2, visitAll D stmts f names o1 = Some o2 →
                                visitAll D stmts f' names o1 = Some o2).
  { induction names as [|name names IHn]; intros o1 o2; [done|].
    rewrite !visitAll_cons. intros H.
    destruct (visit D stmts f name o1) as [o3|] eqn:E; [|done]. simpl in H.
    rewrite (IH f' name o1 o3 E) by lia. simpl. auto. }
  destruct (visitAll D stmts f _ o) as [o1|] eqn:E; [|done].
  by rewrite (Hall _ _ _ E).
Qed.

Lemma visitAll_mono f f' names o o' :
  visitAll D stmts f names o = Some o' → f ≤ f' → visitAll D stmts f' names o = Some o'.
Proof.
  intros H Hle. revert o H.
  induction names as [|name names IHn]; intros o; [done|].
  rewrite !visitAll_cons. intros H.
  destruct (visit D stmts f name o) as [o3|] eqn:E; [|done]. simpl in H.
  rewrite (visit_mono f f' name o o3 E) by lia. simpl. auto.
Qed.

Lemma includes_nil needle : needle ≠ "" → JsString.includes "" needle = false.
Proof. by destruct needle. Qed.

Lemma findStatement_nonempty n s : findStatement stmts n = Some s → s ≠ "".
Proof.
  unfold findStatement. intros H%find_some. destruct H as [_ H].
  intros ->. by rewrite includes_nil in H.
Qed.

Lemma pushFound_found n s l :
  findStatement stmts n = Some s → pushFound (findStatement stmts n) l = l ++ [s].
Proof.
  intros H. rewrite H. simpl.
  destruct (String.eqb_spec s ""); [|done].
  by apply findStatement_nonempty in H.
Qed.

Lemma pushFound_prefix st l : ∃ l', pushFound st l = l ++ l'.
Proof.
  destruct st as [s|]; simpl.
  - destruct (String.eqb s ""); [exists []; by rewrite app_nil_r | by exists [s]].
  - exists []. by rewrite app_nil_r.
Qed.

Lemma before_app a b l l' : before a b l → before a b (l ++ l').
Proof.
  intros (l1 & l2 & l3 & ->). exists l1, l2, (l3 ++ l').
  rewrite <- app_assoc. simpl. by rewrite <- app_assoc.
Qed.

Lemma before_snoc a b l : a ∈ l → before a b (l ++ [b]).
Proof.
  intros (l1 & l2 & ->)%list_elem_of_split. exists l1, l2, [].
  by rewrite <- app_assoc.
Qed.

Lemma visitAll_spec_from f roots
  (IH : ∀ t o o', visit D stmts f t o = Some o' → invariant D stmts roots o →
          (t ∈ roots ∨ ∃ t', dependsOn D t' t) →
          invariant D stmts roots o' ∧ t ∈ visited o' ∧ visited o ⊆ visited o' ∧
          ∃ l, ordered o' = ordered o ++ l) :
  ∀ names o o', visitAll D stmts f names o = Some o' → invariant D stmts roots o →
    (∀ n, n ∈ names → n ∈ roots ∨ ∃ t', dependsOn D t' n) →
    invariant D stmts roots o' ∧ (∀ n, n ∈ names → n ∈ visited o') ∧
    visited o ⊆ visited o' ∧ (∃ l, ordered o' = ordered o ++ l).
Proof.
  induction names as [|name names IHn]; intros o o' H Hinv Hor.
  - injection H as <-. split_and!; [done|set_solver|done|].
    exists []. by rewrite app_nil_r.
  - rewrite visitAll_cons in H.
    destruct (visit D stmts f name o) as [o1|] eqn:E; [|done]. simpl in H.
    destruct (IH _ _ _ E Hinv) as (Hinv1 & Hin1 & Hsub1 & [l1 Hl1]).
    { apply Hor. set_solver. }
    destruct (IHn _ _ H Hinv1) as (Hinv' & Hall & Hsub & [l2 Hl2]).
    { intros. apply Hor. set_solver. }
    split_and!; [done| |set_solver|].
    + intros n [->|Hn]%elem_of_cons; [set_solver|auto].
    + exists (l1 ++ l2). by rewrite Hl2, Hl1, app_assoc.
Qed.

Lemma visit_spec roots f : ∀ t o o',
  visit D stmts f t o = Some o' → invariant D stmts roots o →
  (t ∈ roots ∨ ∃ t', dependsOn D t' t) →
  invariant D stmts roots o' ∧ t ∈ visited o' ∧ visited o ⊆ visited o' ∧
  ∃ l, ordered o' = ordered o ++ l.
Proof.
  induction f as [|f IH]; intros t o o' Hv Hinv Hor; [done|].
  rewrite visit_S in Hv.
  destruct (decide (t ∈ visited o)) as [Hin|Hnin].
  { injection Hv as <-. split_and!; [done..|].
    exists []. by rewrite app_nil_r. }
  destruct (visitAll D stmts f _ o) as [o1|] eqn:E; [|done].
  simpl in Hv. injection Hv as <-.
  destruct (visitAll_spec_from f roots IH _ _ _ E Hinv)
    as (Hinv1 & Hdeps & Hsub & [l1 Hl1]).
  { intros n Hn. right. by exists t. }
  destruct (pushFound_prefix (findStatement stmts t) (ordered o1)) as [l2 Hl2].
  split_and!; cbn [visited ordered].
  - split; cbn [visited ordered].
    + intros n d [->%elem_of_singleton|Hn]%elem_of_union Hd.
      * apply elem_of_union_r. by apply Hdeps.
      * apply elem_of_union_r. by eapply (inv_closed _ _ _ _ Hinv1).
    + intros n s [->%elem_of_singleton|Hn]%elem_of_union Hs.
      * rewrite (pushFound_found _ _ _ Hs). set_solver.
      * rewrite Hl2. apply elem_of_app. left.
        by eapply (inv_pushed _ _ _ _ Hinv1).
    + intros s. destruct (findStatement stmts t) as [st|] eqn:Est.
      * rewrite <- Est, (pushFound_found t st _ Est).
        intros [Hs | ->%list_elem_of_singleton]%elem_of_app.
        -- destruct (inv_justified _ _ _ _ Hinv1 s Hs) as (n & ? & ?).
           exists n. set_solver.
        -- exists t. set_solver.
      * cbn [pushFound]. intros Hs.
        destruct (inv_justified _ _ _ _ Hinv1 s Hs) as (n & ? & ?).
        exists n. set_solver.
    + intros t0 d st sd [->%elem_of_singleton|Hn]%elem_of_union Hd Hst Hsd.
      * rewrite (pushFound_found _ _ _ Hst). apply before_snoc.
        eapply (inv_pushed _ _ _ _ Hinv1); [|done]. by apply Hdeps.
      * rewrite Hl2. apply before_app.
        by eapply (inv_before _ _ _ _ Hinv1).
    + intros n [->%elem_of_singleton|Hn]%elem_of_union; [done|].
      by eapply (inv_origin _ _ _ _ Hinv1).
  - set_solver.
  - set_solver.
  - exists (l1 ++ l2). by rewrite Hl2, Hl1, app_assoc.
Qed.


(** ** Termination on well-founded dependencies *)

Lemma visitAll_returns f names :
  (∀ n, n ∈ names → ∀ o, is_Some (visit D stmts f n o)) →
  ∀ o, is_Some (visitAll D stmts f names o).
Proof.
  induction names as [|name names IHn]; intros Hall o; [by eexists|].
  rewrite visitAll_cons.
  destruct (Hall name (list_elem_of_here _ _) o) as [o1 ->]. simpl.
  apply IHn. intros n Hn. apply Hall. by right.
Qed.

Lemma visit_returns t :
  Acc (λ d t, dependsOn D t d) t → ∃ f, ∀ o, is_Some (visit D stmts f t o).
Proof.
  induction 1 as [t _ IH].
  assert (∃ f, ∀ d, d ∈ default [] (D !! t) →
                    ∀ o, is_Some (visit D stmts f d o)) as [f Hf].
  { unfold dependsOn in IH.
    induction (default [] (D !! t)) as [|d ds IHds].
    - exists 0. intros d Hd. by apply elem_of_nil in Hd.
    - destruct IHds as [f1 Hf1].
      { intros d' Hd'. apply IH. by right. }
      destruct (IH d (list_elem_of_here _ _)) as [f2 Hf2].
      exists (f1 `max` f2). intros d' [->|Hd']%elem_of_cons o.
      + destruct (Hf2 o) as [o' Ho'].
        exists o'. eapply visit_mono; [done|lia].
      + destruct (Hf1 d' Hd' o) as [o' Ho'].
        exists o'. eapply visit_mono; [done|lia]. }
  exists (S f). intros o. rewrite visit_S.
  destruct (decide (t ∈ visited o)); [by eexists|].
  destruct (visitAll_returns f _ Hf o) as [o1 ->]. by eexists.
Qed.

(** In a finite graph the absence of cycles makes every table
    accessible: a path that never repeats a table has no more tables
    than the dependency map has keys. *)
Lemma acyclic_Acc : acyclic D → ∀ t, Acc (λ d t, dependsOn D t d) t.
Proof.
  intros Hac.
  assert (∀ n (P : gset string) t,
            size (dom D ∖ P) ≤ n →
            (∀ p, p ∈ P → tc (dependsOn D) p t) →
            Acc (λ d t, dependsOn D t d) t) as Haux.
  { induction n as [|n IH]; intros P t Hsize Hpath;
      constructor; intros d Hd.
    - exfalso.
      assert (t ∈ dom D ∖ P) as Ht.
      { apply elem_of_difference. split.
        - apply elem_of_dom. unfold dependsOn in Hd.
          destruct (D !! t); [by eexists|]. by apply elem_of_nil in Hd.
        - intros Hp. by apply (Hac t), Hpath. }
      assert (size (dom D ∖ P) = 0) as Hs by lia.
      apply size_empty_iff in Hs. set_solver.
    - apply (IH ({[t]} ∪ P)).
      + assert (t ∈ dom D) as HtD.
        { apply elem_of_dom. unfold dependsOn in Hd.
          destruct (D !! t); [by eexists|]. by apply elem_of_nil in Hd. }
        assert (t ∉ P) as HtP.
        { intros Hp. by apply (Hac t), Hpath. }
        assert (dom D ∖ ({[t]} ∪ P) ⊂ dom D ∖ P) as Hsub by set_solver.
        apply subset_size in Hsub. lia.
      + intros p [->%elem_of_singleton|Hp]%elem_of_union.
        * by apply tc_once.
        * eapply tc_r; [by apply Hpath|done]. }
  intros t. apply (Haux (size (dom D)) ∅ t).
  - apply subseteq_size. set_solver.
  - set_solver.
Qed.

(** ** Tables on a cycle *)

Lemma closed_rtc roots o n d :
  invariant D stmts roots o → n ∈ visited o → rtc (dependsOn D) n d → d ∈ visited o.
Proof.
  intros Hinv Hn Hr. induction Hr as [|x y z Hxy _ IH]; [done|].
  apply IH. by eapply (inv_closed _ _ _ _ Hinv).
Qed.

Lemma cycle_never_visited roots t :
  tc (dependsOn D) t t →
  ∀ f x o o', visit D stmts f x o = Some o' → invariant D stmts roots o →
              (x ∈ roots ∨ ∃ t', dependsOn D t' x) →
              t ∉ visited o → t ∉ visited o'.
Proof.
  intros Hcyc.
  induction f as [|f IH]; intros x o o' Hv Hinv Hor Ht; [done|].
  rewrite visit_S in Hv.
  destruct (decide (x ∈ visited o)) as [Hin|Hnin]; [by injection Hv as <-|].
  destruct (visitAll D stmts f _ o) as [o1|] eqn:E; [|done].
  simpl in Hv. injection Hv as <-. cbn [visited].
  assert (∀ names o o1, visitAll D stmts f names o = Some o1 →
            invariant D stmts roots o →
            (∀ n, n ∈ names → n ∈ roots ∨ ∃ t', dependsOn D t' n) →
            t ∉ visited o → t ∉ visited o1) as Hall.
  { clear -IH. induction names as [|name names IHn];
      intros o o1 H Hinv Hor Ht; [by injection H as <-|].
    rewrite visitAll_cons in H.
    destruct (visit D stmts f name o) as [o2|] eqn:E; [|done]. simpl in H.
    eapply (IHn o2 o1 H).
    - eapply visit_spec; [done..|]. apply Hor. by left.
    - intros. apply Hor. by right.
    - eapply IH; [done..| |done]. apply Hor. by left. }
  assert (t ∉ visited o1) as Ht1.
  { eapply Hall; [done..| |done]. intros n Hn. right. by exists x. }
  intros [->%elem_of_singleton|Hn]%elem_of_union; [|done].
  destruct (visitAll_spec_from f roots (visit_spec roots f) _ _ _ E Hinv)
    as (Hinv1 & Hdeps & _).
  { intros n Hn. right. by exists x. }
  apply Ht1. inversion Hcyc as [? ? H1|? y ? H1 H2]; subst.
  - by apply Hdeps.
  - eapply closed_rtc; [done| |by apply tc_rtc]. by apply Hdeps.
Qed.

End Merger.

(** ** orderByDependencies *)

Section OrderByDependencies.
Import Sql.
Context {payload : Type}.
Implicit Types (this : SqlProcessor payload) (statements : list string).

Lemma initial_invariant D stmts roots :
  invariant D stmts roots {| visited := ∅; ordered := [] |}.
Proof.
  split; cbn [visited ordered]; intros; set_solver.
Qed.

Lemma orderByDependencies_Some fuel this statements out :
  orderByDependencies fuel this statements = Some out →
  ∃ o, visitAll (dependencies this) statements fuel
         (Map_keys (tables this)) {| visited := ∅; ordered := [] |} = Some o
       ∧ invariant (dependencies this) statements (Map_keys (tables this)) o
       ∧ (∀ n, n ∈ Map_keys (tables this) → n ∈ visited o)
       ∧ out = ordered o ++
               filter (λ stmt, isCreateTable stmt = false) statements.
Proof.
  unfold orderByDependencies. intros H.
  destruct (visitAll _ _ _ _ _) as [o|] eqn:E; [|done].
  simpl in H. injection H as <-. exists o.
  destruct (visitAll_spec_from _ _ fuel _
              (visit_spec _ _ (Map_keys (tables this)) fuel) _ _ _ E
              (initial_invariant _ _ _)) as (Hinv & Hall & _); [by left|].
  done.
Qed.

Lemma orderByDependencies_mono fuel fuel' this statements out :
  orderByDependencies fuel this statements = Some out → fuel ≤ fuel' →
  orderByDependencies fuel' this statements = Some out.
Proof.
  unfold orderByDependencies. intros H Hle.
  destruct (visitAll _ _ fuel _ _) as [o|] eqn:E; [|done].
  by rewrite (visitAll_mono _ _ _ _ _ _ _ E Hle).
Qed.

Lemma orderByDependencies_returns this statements :
  acyclic (dependencies this) →
  ∃ N out, ∀ fuel, N ≤ fuel →
    orderByDependencies fuel this statements = Some out.
Proof.
  intros Hac.
  assert (∃ f, ∀ n, n ∈ Map_keys (tables this) →
            ∀ o, is_Some (visit (dependencies this) statements f n o))
    as [f Hf].
  { induction (Map_keys (tables this)) as [|k ks IH].
    - exists 0. intros n Hn. by apply elem_of_nil in Hn.
    - destruct IH as [f1 Hf1].
      destruct (visit_returns (dependencies this) statements k
                  (acyclic_Acc _ Hac k)) as [f2 Hf2].
      exists (f1 `max` f2). intros n [->|Hn]%elem_of_cons o.
      + destruct (Hf2 o) as [o' Ho'].
        exists o'. eapply visit_mono; [done|lia].
      + destruct (Hf1 n Hn o) as [o' Ho'].
        exists o'. eapply visit_mono; [done|lia]. }
  destruct (visitAll_returns _ _ f _ Hf {| visited := ∅; ordered := [] |})
    as [o Ho].
  exists f, (ordered o ++
             filter (λ stmt, isCreateTable stmt = false) statements).
  intros fuel Hle. apply (orderByDependencies_mono f); [|done].
  unfold orderByDependencies. by rewrite Ho.
Qed.

(** A cycle through a table the merger reaches: no bound on the depth
    of the recursion lets [orderByDependencies] return. *)
Lemma orderByDependencies_cycle this statements k t :
  k ∈ Map_keys (tables this) →
  rtc (dependsOn (dependencies this)) k t →
  tc (dependsOn (dependencies this)) t t →
  ∀ fuel, orderByDependencies fuel this statements = None.
Proof.
  intros Hk Hreach Hcyc fuel.
  destruct (orderByDependencies fuel this statements) as [out|] eqn:E;
    [exfalso|done].
  apply orderByDependencies_Some in E as (o & Ho & Hinv & Hall & _).
  assert (t ∈ visited o) as Ht.
  { eapply closed_rtc; [done| |done]. by apply Hall. }
  revert Ht.
  assert (∀ names o0 o1,
            visitAll (dependencies this) statements fuel names o0 = Some o1 →
            invariant (dependencies this) statements
                      (Map_keys (tables this)) o0 →
            (∀ n, n ∈ names → n ∈ Map_keys (tables this)) →
            t ∉ visited o0 → t ∉ visited o1) as Hnames.
  { induction names as [|name names IHn]; intros o0 o1 H Hi Hr Ht;
      [by injection H as <-|].
    rewrite visitAll_cons in H.
    destruct (visit _ _ fuel name o0) as [o2|] eqn:E2; [|done]. simpl in H.
    eapply (IHn o2 o1 H).
    - eapply visit_spec; [done..|]. left. apply Hr. by left.
    - intros. apply Hr. by right.
    - eapply cycle_never_visited; [done..| |done]. left. apply Hr. by left. }
  eapply Hnames; [done|apply initial_invariant|done|].
  cbn [visited]. set_solver.
Qed.

(** Where a statement of the output comes from. *)
Lemma orderByDependencies_origin fuel this statements out s :
  orderByDependencies fuel this statements = Some out → s ∈ out →
  (s ∈ statements ∧ isCreateTable s = false) ∨
  (∃ n, mentioned this n ∧ s ∈ statements ∧
        JsString.includes s (createTablePattern n) = true).
Proof.
  intros (o & _ & Hinv & _ & ->)%orderByDependencies_Some
         [Hs|Hs]%elem_of_app.
  - right. destruct (inv_justified _ _ _ _ Hinv s Hs) as (n & Hn & Hf).
    exists n. split; [by apply (inv_origin _ _ _ _ Hinv)|].
    unfold findStatement in Hf. apply find_some in Hf as [Hin Hinc].
    split; [by apply list_elem_of_In|done].
  - left. apply list_elem_of_filter in Hs as [? ?]. done.
Qed.


End OrderByDependencies.

(** ** transformStatements *)

Section TransformStatements.
Import Sql.
Context {payload : Type} (parser : Parser payload) (config : Config).
Implicit Types (this : SqlProcessor payload) (t : transformation payload).

Lemma Map_keys_set {V} k (v : V) m k' :
  k' ∈ Map_keys (Map_set k v m) ↔ k' = k ∨ k' ∈ Map_keys m.
Proof.
  unfold Map_keys. induction m as [|[k0 v0] m IH]; simpl.
  - rewrite list_elem_of_singleton. set_solver.
  - destruct (decide (k0 = k)) as [->|Hne]; simpl.
    + rewrite !elem_of_cons. tauto.
    + rewrite !elem_of_cons, IH. tauto.
Qed.

(** Whether a statement is transformed or kept does not depend on what
    was registered before. *)
Lemma transformStatement_outcome this1 this2 statement :
  (transformStatement parser config this1 statement).2 =
  (transformStatement parser config this2 statement).2.
Proof.
  unfold transformStatement.
  destruct (astify parser statement) as [ast|m]; [|done].
  destruct (String.eqb _ _); [|done].
  destruct (table ast) as [name|]; [|done].
  unfold extractDependencies. cbn [create_definitions].
  destruct (match transformColumns config <$> create_definitions ast with
            | Some defs => collectDependencies defs []
            | None => Ok []
            end); done.
Qed.

Lemma transformStatement_grows this statement :
  let this' := (transformStatement parser config this statement).1 in
  (∀ k, k ∈ Map_keys (tables this) → k ∈ Map_keys (tables this')) ∧
  (∀ k, is_Some (dependencies this !! k) →
        is_Some (dependencies this' !! k)).
Proof.
  unfold transformStatement.
  destruct (astify parser statement) as [ast|m]; [|done].
  destruct (String.eqb _ _); [|done].
  destruct (table ast) as [name|]; [|done].
  unfold extractDependencies. cbn [create_definitions tables dependencies].
  destruct (match transformColumns config <$> create_definitions ast with
            | Some defs => collectDependencies defs []
            | None => Ok []
            end); cbn [fst tables dependencies]; split; intros k Hk;
    try (apply Map_keys_set; by right); try done.
  destruct (decide (name = k)) as [->|Hne].
  - rewrite lookup_insert_eq. by eexists.
  - by rewrite lookup_insert_ne.
Qed.

(** A table definition that parses is registered under the name the
    parser read, and what [sqlify] receives carries the stripped name. *)
Lemma transformStatement_registers this statement ast name :
  astify parser statement = Ok ast → ast_type ast = "create" →
  table ast = Some name →
  let r := transformStatement parser config this statement in
  name ∈ Map_keys (tables r.1) ∧
  ∀ text, r.2 = Ok text →
    is_Some (dependencies r.1 !! name) ∧
    ∃ ast', table ast' = Some (stripTableName config name) ∧
            sqlify parser ast' = Ok text.
Proof.
  intros Ha Hty Htab. unfold transformStatement. rewrite Ha, Hty, Htab.
  rewrite String.eqb_refl.
  unfold extractDependencies. cbn [create_definitions tables dependencies].
  destruct (match transformColumns config <$> create_definitions ast with
            | Some defs => collectDependencies defs []
            | None => Ok []
            end) as [deps|m]; cbn [fst snd tables dependencies].
  - split; [apply Map_keys_set; by left|]. intros text Htext. split.
    + rewrite lookup_insert_eq. by eexists.
    + eexists. split; [|exact Htext]. done.
  - split; [apply Map_keys_set; by left|]. intros text Htext. done.
Qed.

Lemma transformStep_this t statement :
  this_ (transformStep parser config t statement) =
  (transformStatement parser config (this_ t) statement).1.
Proof.
  unfold transformStep.
  by destruct (transformStatement _ _ _ _) as [this [text|m]].
Qed.

(** What one iteration appends: the transformed text, or the original
    statement together with a warning. *)
Lemma transformStep_transformed t statement :
  transformed (transformStep parser config t statement) =
  transformed t ++
    [match (transformStatement parser config (this_ t) statement).2 with
     | Ok text => text
     | Throw _ => statement
     end].
Proof.
  unfold transformStep.
  by destruct (transformStatement _ _ _ _) as [this [text|m]].
Qed.

Lemma transformStep_warnings t statement :
  warnings (transformStep parser config t statement) =
  warnings t ++
    match (transformStatement parser config (this_ t) statement).2 with
    | Ok _ => []
    | Throw m => ["Error transforming statement, keeping original: " +:+ m]
    end.
Proof.
  unfold transformStep.
  destruct (transformStatement _ _ _ _) as [this [text|m]]; simpl;
    by rewrite ?app_nil_r.
Qed.

Lemma foldl_transformStep_grows statements : ∀ t,
  let t' := foldl (transformStep parser config) t statements in
  (∀ k, k ∈ Map_keys (tables (this_ t)) →
        k ∈ Map_keys (tables (this_ t'))) ∧
  (∀ k, is_Some (dependencies (this_ t) !! k) →
        is_Some (dependencies (this_ t') !! k)).
Proof.
  induction statements as [|s statements IH]; intros t; [done|].
  cbn [foldl]. destruct (IH (transformStep parser config t s)) as [IH1 IH2].
  pose proof (transformStatement_grows (this_ t) s) as [H1 H2].
  rewrite <- transformStep_this in H1, H2. split; auto.
Qed.

(** The loop visits every statement once, in order. *)
Lemma foldl_transformStep_transformed statements : ∀ t,
  ∃ l, transformed (foldl (transformStep parser config) t statements) =
         transformed t ++ l ∧
       List.length l = List.length statements ∧
       ∀ i statement, statements !! i = Some statement →
         ∃ this, l !! i = Some
           match (transformStatement parser config this statement).2 with
           | Ok text => text
           | Throw _ => statement
           end.
Proof.
  induction statements as [|s statements IH]; intros t.
  - exists []. rewrite app_nil_r. split_and!; [done..|]. by intros i ?.
  - cbn [foldl]. destruct (IH (transformStep parser config t s))
      as (l & Hl & Hlen & Hi).
    rewrite transformStep_transformed, <- app_assoc in Hl.
    eexists. split; [exact Hl|]. split; [simpl; lia|].
    intros [|i] statement Hs; simpl in *.
    + injection Hs as ->. by exists (this_ t).
    + by apply Hi.
Qed.

Lemma foldl_transformStep_warnings statements : ∀ t statement m,
  statement ∈ statements →
  astify parser statement = Throw m →
  ("Error transforming statement, keeping original: " +:+ m)
    ∈ warnings (foldl (transformStep parser config) t statements).
Proof.
  assert (∀ l t w, w ∈ warnings t →
            w ∈ warnings (foldl (transformStep parser config) t l)) as Hkeep.
  { induction l as [|s l IH]; intros t w Hw; [done|].
    cbn [foldl]. apply IH. rewrite transformStep_warnings.
    apply elem_of_app. by left. }
  induction statements as [|s statements IH]; intros t statement m Hin Ha.
  - by apply elem_of_nil in Hin.
  - cbn [foldl]. apply elem_of_cons in Hin as [->|Hin]; [|by apply (IH _ statement)].
    apply Hkeep. rewrite transformStep_warnings.
    unfold transformStatement. rewrite Ha. cbn [snd]. set_solver.
Qed.

(** The statement at index [i] could not be parsed: the transformed
    sequence holds its text at index [i], and the warning was logged. *)
Lemma transformLoop_passthrough this statements i statement m :
  statements !! i = Some statement →
  astify parser statement = Throw m →
  let t := transformLoop parser config this statements in
  List.length (transformed t) = List.length statements ∧
  transformed t !! i = Some statement ∧
  ("Error transforming statement, keeping original: " +:+ m) ∈ warnings t.
Proof.
  intros Hi Ha. unfold transformLoop.
  destruct (foldl_transformStep_transformed statements
              {| this_ := this; transformed := []; warnings := [] |})
    as (l & Hl & Hlen & Hall).
  cbn [transformed] in Hl. rewrite app_nil_l in Hl. cbn zeta. rewrite Hl.
  split; [done|]. split.
  - destruct (Hall i statement Hi) as [this0 H0].
    unfold transformStatement in H0. by rewrite Ha in H0.
  - apply (foldl_transformStep_warnings statements _ statement); [|done].
    by eapply list_elem_of_lookup_2.
Qed.

Lemma transformLoop_registers this statements statement ast name text :
  statement ∈ statements →
  astify parser statement = Ok ast → ast_type ast = "create" →
  table ast = Some name →
  (transformStatement parser config this statement).2 = Ok text →
  let final := this_ (transformLoop parser config this statements) in
  name ∈ Map_keys (tables final) ∧ is_Some (dependencies final !! name) ∧
  text ∈ transformed (transformLoop parser config this statements).
Proof.
  intros Hin Ha Hty Htab Htext. unfold transformLoop.
  generalize {| this_ := this; transformed := []; warnings := [] |}.
  induction statements as [|s statements IH]; intros t.
  - by apply elem_of_nil in Hin.
  - cbn [foldl]. apply elem_of_cons in Hin as [->|Hin]; [|by apply IH].
    destruct (foldl_transformStep_grows statements
                (transformStep parser config t s)) as [H1 H2].
    destruct (foldl_transformStep_transformed statements
                (transformStep parser config t s)) as (l & Hl & _).
    destruct (transformStatement_registers (this_ t) s ast name Ha Hty Htab)
      as [Hk Hd].
    rewrite (transformStatement_outcome (this_ t) this) in Hd.
    destruct (Hd text Htext) as [Hdep _].
    rewrite <- transformStep_this in Hk, Hdep.
    split_and!; [by apply H1|by apply H2|].
    rewrite Hl, transformStep_transformed.
    rewrite (transformStatement_outcome (this_ t) this), Htext.
    set_solver.
Qed.

End TransformStatements.

(** ** The loops of the type inference *)

Lemma init_lookup {T} (initial : T) (keys : list string) :
  ∀ (m : gmap string T) c,
  foldl (λ columnTypes column, <[column := initial]> columnTypes) m keys !! c
  = if decide (c ∈ keys) then Some initial else m !! c.
Proof.
  induction keys as [|k keys IH]; intros m c; cbn [foldl].
  - destruct (decide (c ∈ [])) as [Hin|]; [by apply elem_of_nil in Hin|done].
  - rewrite IH. destruct (decide (c ∈ keys)) as [Hin|Hnin].
    + by rewrite decide_True by set_solver.
    + destruct (decide (c = k)) as [->|Hne].
      * rewrite lookup_insert_eq. by rewrite decide_True by set_solver.
      * rewrite lookup_insert_ne by done.
        by rewrite decide_False by set_solver.
Qed.

Section Loops.
Import Js Csv.
Context {number T : Type} (update : T → value number → T).

(** The shape both processors give to one iteration of the inner loop. *)
Context (entry : gmap string T → string * value number →
                 outcome (gmap string T)).
Hypothesis entry_skip : ∀ m column v,
  isNullOrEmpty v = true → entry m (column, v) = Ok m.
Hypothesis entry_update : ∀ m column v t,
  isNullOrEmpty v = false → m !! column = Some t →
  entry m (column, v) = Ok (<[column := update t v]> m).
Hypothesis entry_inherited : ∀ m column v,
  isNullOrEmpty v = false → m !! column = None → inherited column = true →
  entry m (column, v) = Ok m.
Hypothesis entry_throw : ∀ m column v,
  isNullOrEmpty v = false → m !! column = None → inherited column = false →
  ∃ message, entry m (column, v) = Throw message.

Lemma record_lookup (r : record number) : ∀ m m',
  forEach entry m r = Ok m' →
  ∀ c, m' !! c = (λ t, foldl update t (r ≫= entryValues c)) <$> m !! c.
Proof.
  induction r as [|[column v] r IH]; intros m m' H c; simpl in H.
  - injection H as <-. by destruct (m !! c).
  - destruct (entry m (column, v)) as [m1|] eqn:E; [|done].
    rewrite (IH _ _ H c), bind_cons. unfold entryValues at 2.
    cbn [fst snd].
    destruct (isNullOrEmpty v) eqn:Hv.
    + rewrite entry_skip in E by done. injection E as <-.
      by destruct (decide (column = c)).
    + destruct (m !! column) as [t|] eqn:Ht.
      * rewrite (entry_update _ _ _ t) in E by done. injection E as <-.
        destruct (decide (column = c)) as [->|Hne].
        -- rewrite lookup_insert_eq, Ht. done.
        -- rewrite lookup_insert_ne by done. done.
      * destruct (inherited column) eqn:Hi.
        -- rewrite entry_inherited in E by done. injection E as <-.
           destruct (decide (column = c)) as [->|Hne]; [|done].
           by rewrite Ht.
        -- destruct (entry_throw m column v Hv Ht Hi) as [msg Hmsg].
           congruence.
Qed.

Lemma records_lookup (rs : list (record number)) : ∀ m m',
  forEach (forEach entry) m rs = Ok m' →
  ∀ c, m' !! c = (λ t, foldl update t (columnValues c rs)) <$> m !! c.
Proof.
  induction rs as [|r rs IH]; intros m m' H c; simpl in H.
  - injection H as <-. by destruct (m !! c).
  - destruct (forEach entry m r) as [m1|] eqn:E; [|done].
    rewrite (IH _ _ H c), (record_lookup _ _ _ E c).
    unfold columnValues. rewrite bind_cons.
    destruct (m !! c); simpl; [|done]. by rewrite foldl_app.
Qed.

(** The loops complete exactly when every value they do not skip lies
    in a column that has a tracking object or under an inherited name. *)
Lemma record_dom (r : record number) : ∀ m m',
  forEach entry m r = Ok m' → dom m' = dom m.
Proof.
  intros m m' H. apply set_eq. intros c.
  rewrite !elem_of_dom, (record_lookup _ _ _ H c).
  by rewrite fmap_is_Some.
Qed.

Lemma record_returns (r : record number) : ∀ m,
  (∀ column v, (column, v) ∈ r → isNullOrEmpty v = false →
               column ∈ dom m ∨ inherited column = true) →
  ∃ m', forEach entry m r = Ok m'.
Proof.
  induction r as [|[column v] r IH]; intros m Hdom; simpl; [by eexists|].
  destruct (isNullOrEmpty v) eqn:Hv.
  - rewrite entry_skip by done. apply IH. intros. eapply Hdom; [|done].
    by right.
  - destruct (m !! column) as [t|] eqn:Ht.
    + rewrite (entry_update _ _ _ t) by done. apply IH.
      intros c' v' Hin Hv'. rewrite dom_insert.
      destruct (Hdom c' v') as [?|?]; [by right|done| |by right].
      left. by apply elem_of_union_r.
    + destruct (Hdom column v) as [[t Ht']%elem_of_dom|Hi];
        [by left|done|congruence|].
      rewrite entry_inherited by done. apply IH.
      intros c' v' Hin Hv'. eapply Hdom; [|done]. by right.
Qed.

Lemma records_returns (rs : list (record number)) : ∀ m,
  (∀ r column v, r ∈ rs → (column, v) ∈ r → isNullOrEmpty v = false →
                 column ∈ dom m ∨ inherited column = true) →
  ∃ m', forEach (forEach entry) m rs = Ok m'.
Proof.
  induction rs as [|r rs IH]; intros m Hdom; simpl; [by eexists|].
  destruct (record_returns r m) as [m1 H1].
  { intros. eapply Hdom; [by left|done..]. }
  rewrite H1. apply IH. intros r' c v Hr Hin Hv.
  rewrite (record_dom _ _ _ H1). eapply Hdom; [by right|done..].
Qed.

Lemma record_throws (r : record number) : ∀ m column v,
  (column, v) ∈ r → isNullOrEmpty v = false → column ∉ dom m →
  inherited column = false →
  ∃ message, forEach entry m r = Throw message.
Proof.
  induction r as [|[column0 v0] r IH]; intros m column v Hin Hv Hdom Hi.
  - by apply elem_of_nil in Hin.
  - simpl. destruct (entry m (column0, v0)) as [m1|msg] eqn:E;
      [|by eexists].
    apply elem_of_cons in Hin as [Heq|Hin].
    + injection Heq as <- <-.
      apply not_elem_of_dom in Hdom.
      destruct (entry_throw m column v Hv Hdom Hi) as [msg Hmsg]. congruence.
    + eapply IH; [done..| |done].
      assert (forEach entry m [(column0, v0)] = Ok m1) as H1
        by (simpl; by rewrite E).
      by rewrite (record_dom _ _ _ H1).
Qed.

Lemma records_throws (rs : list (record number)) : ∀ m r column v,
  r ∈ rs → (column, v) ∈ r → isNullOrEmpty v = false → column ∉ dom m →
  inherited column = false →
  ∃ message, forEach (forEach entry) m rs = Throw message.
Proof.
  induction rs as [|r0 rs IH]; intros m r column v Hr Hin Hv Hdom Hi.
  - by apply elem_of_nil in Hr.
  - simpl. destruct (forEach entry m r0) as [m1|msg] eqn:E; [|by eexists].
    apply elem_of_cons in Hr as [->|Hr].
    + destruct (record_throws _ m column v Hin Hv Hdom Hi) as [msg Hmsg].
      congruence.
    + eapply IH; [done..| |done]. by rewrite (record_dom _ _ _ E).
Qed.

End Loops.

Lemma max_foldr_assoc a b l :
  Nat.max (Nat.max a b) (foldr Nat.max 0 l) = Nat.max a (foldr Nat.max 0 (b :: l)).
Proof. simpl. lia. Qed.

(** ** The CSV processor *)

Section CsvInference.
Import Js Csv.
Context (h : Host).
Implicit Types (v : value (number h)) (t : tracking).

Lemma csv_entry_skip (m : gmap string tracking) column v :
  isNullOrEmpty v = true → analyzeEntry h m (column, v) = Ok m.
Proof. intros Hv. unfold analyzeEntry. by rewrite Hv. Qed.

Lemma csv_entry_update (m : gmap string tracking) column v t :
  isNullOrEmpty v = false → m !! column = Some t →
  analyzeEntry h m (column, v) = Ok (<[column := analyzeValue h t v]> m).
Proof. intros Hv Ht. unfold analyzeEntry. by rewrite Hv, Ht. Qed.

Lemma csv_entry_inherited (m : gmap string tracking) column v :
  isNullOrEmpty v = false → m !! column = None → inherited column = true →
  analyzeEntry h m (column, v) = Ok m.
Proof. intros Hv Ht Hi. unfold analyzeEntry. by rewrite Hv, Ht, Hi. Qed.

Lemma csv_entry_throw (m : gmap string tracking) column v :
  isNullOrEmpty v = false → m !! column = None → inherited column = false →
  ∃ message, analyzeEntry h m (column, v) = Throw message.
Proof.
  intros Hv Ht Hi. unfold analyzeEntry. rewrite Hv, Ht, Hi. by eexists.
Qed.

Lemma csv_analyzeValues vs : ∀ t,
  foldl (analyzeValue h) t vs =
  {| type := type t;
     maxLength := Nat.max (maxLength t) (maxStringLength h vs);
     containsDecimal := containsDecimal t || existsb (isDecimal h) vs;
     containsNonNumeric :=
       containsNonNumeric t || existsb (λ v, negb (isNumeric h v)) vs;
     isDate := isDate t && forallb (λ v, negb (dateIsInvalid h v)) vs |}.
Proof.
  induction vs as [|v vs IH]; intros t.
  - destruct t. cbn. f_equal; try lia; by rewrite ?orb_false_r, ?andb_true_r.
  - cbn [foldl]. rewrite IH. unfold analyzeValue, isDecimal, isNumeric.
    unfold maxStringLength. cbn [map existsb forallb].
    rewrite <- max_foldr_assoc.
    destruct (isNaN h (toNumber h v)); cbn [negb type maxLength
      containsDecimal containsNonNumeric isDate andb orb]; f_equal;
      destruct (isDate t), (dateIsInvalid h v), (containsDecimal t),
        (containsNonNumeric t),
        (JsString.includes (toString h (Number (toNumber h v))) ".");
      done.
Qed.

Lemma csv_determineType_precedence vs :
  type (determineType (foldl (analyzeValue h) initialTracking vs)) =
  Some (precedence (csvProfile h vs)).
Proof.
  rewrite csv_analyzeValues. unfold determineType, precedence, csvProfile,
    integerWidth, varchar, initialTracking.
  cbn [type maxLength containsDecimal containsNonNumeric isDate
       p_maxLength p_containsDecimal p_containsNonNumeric p_isDate
       p_isStructured andb orb Nat.max].
  done.
Qed.

Lemma csv_inferColumnTypes_lookup records m c t :
  inferColumnTypes h records = Ok m → m !! c = Some t →
  (∃ firstRow rest, records = firstRow :: rest ∧ c ∈ firstRow.*1) ∧
  t = determineType
        (foldl (analyzeValue h) initialTracking (columnValues c records)).
Proof.
  unfold inferColumnTypes. destruct records as [|firstRow rest].
  { intros [= <-]. by rewrite lookup_empty. }
  destruct (analyzeRecords h _ _) as [m1|] eqn:E; [|done].
  intros [= <-]. rewrite lookup_fmap.
  unfold analyzeRecords in E.
  rewrite (records_lookup _ _ csv_entry_skip csv_entry_update
             csv_entry_inherited csv_entry_throw _ _ _ E c).
  unfold initColumnTypes. rewrite init_lookup, lookup_empty.
  destruct (decide (c ∈ firstRow.*1)) as [Hin|Hnin]; [|done].
  cbn. intros [= <-]. split; [|done]. by exists firstRow, rest.
Qed.

Lemma csv_initColumnTypes_dom (firstRow : record (number h)) c :
  c ∈ dom (initColumnTypes firstRow) ↔ c ∈ firstRow.*1.
Proof.
  rewrite elem_of_dom. unfold initColumnTypes.
  rewrite init_lookup, lookup_empty.
  destruct (decide (c ∈ firstRow.*1)); split; try done;
    try by intros [? ?].
Qed.

(** The inference returns when every value it does not skip lies in a
    column of the first record or under an inherited name. *)
Lemma csv_inferColumnTypes_returns_inherited firstRow rest :
  (∀ r column v, r ∈ firstRow :: rest → (column, v) ∈ r →
     isNullOrEmpty v = false →
     column ∈ firstRow.*1 ∨ inherited column = true) →
  ∃ m, inferColumnTypes h (firstRow :: rest) = Ok m.
Proof.
  intros Hcols. unfold inferColumnTypes, analyzeRecords.
  destruct (records_returns _ _ csv_entry_skip csv_entry_update
              csv_entry_inherited csv_entry_throw (firstRow :: rest)
              (initColumnTypes firstRow))
    as [m1 ->]; [|by eexists].
  intros r column v Hr Hin Hv. rewrite csv_initColumnTypes_dom. eauto.
Qed.

Lemma csv_inferColumnTypes_returns firstRow rest :
  (∀ r column v, r ∈ firstRow :: rest → (column, v) ∈ r →
     isNullOrEmpty v = false → column ∈ firstRow.*1) →
  ∃ m, inferColumnTypes h (firstRow :: rest) = Ok m.
Proof.
  intros Hcols. apply csv_inferColumnTypes_returns_inherited.
  intros r column v Hr Hin Hv. left. eauto.
Qed.

(** It throws when some record has such a value in another column,
    unless the column has an inherited name. *)
Lemma csv_inferColumnTypes_throws firstRow rest r column v :
  r ∈ firstRow :: rest → (column, v) ∈ r → isNullOrEmpty v = false →
  column ∉ firstRow.*1 → inherited column = false →
  ∃ message, inferColumnTypes h (firstRow :: rest) = Throw message.
Proof.
  intros Hr Hin Hv Hcol Hi. unfold inferColumnTypes, analyzeRecords.
  destruct (records_throws _ _ csv_entry_skip csv_entry_update
              csv_entry_inherited csv_entry_throw (firstRow :: rest)
              (initColumnTypes firstRow)
              r column v Hr Hin Hv) as [msg ->]; [|done|by eexists].
  by rewrite csv_initColumnTypes_dom.
Qed.

Lemma csv_inferColumnTypes_resolves firstRow rest m c :
  inferColumnTypes h (firstRow :: rest) = Ok m → c ∈ firstRow.*1 →
  ∃ t, m !! c = Some t ∧
       type t = Some (precedence
                        (csvProfile h (columnValues c (firstRow :: rest)))).
Proof.
  intros Hm Hc. unfold inferColumnTypes in Hm.
  destruct (analyzeRecords h _ _) as [m1|] eqn:E; [|done].
  injection Hm as <-. rewrite lookup_fmap. unfold analyzeRecords in E.
  rewrite (records_lookup _ _ csv_entry_skip csv_entry_update
             csv_entry_inherited csv_entry_throw _ _ _ E c).
  unfold initColumnTypes. rewrite init_lookup, decide_True by done.
  cbn. eexists. split; [done|]. apply csv_determineType_precedence.
Qed.

End CsvInference.

(** ** The JSON processor *)

Section JsonInference.
Import Js Json.
Context (h : Host).
Implicit Types (v : value (number h)) (t : tracking).

Lemma json_entry_skip (m : gmap string tracking) column v :
  isNullOrEmpty v = true → analyzeEntry h m (column, v) = Ok m.
Proof. intros Hv. unfold analyzeEntry. by rewrite Hv. Qed.

Lemma json_entry_update (m : gmap string tracking) column v t :
  isNullOrEmpty v = false → m !! column = Some t →
  analyzeEntry h m (column, v) = Ok (<[column := analyzeValue h t v]> m).
Proof. intros Hv Ht. unfold analyzeEntry. by rewrite Hv, Ht. Qed.

Lemma json_entry_inherited (m : gmap string tracking) column v :
  isNullOrEmpty v = false → m !! column = None → inherited column = true →
  analyzeEntry h m (column, v) = Ok m.
Proof. intros Hv Ht Hi. unfold analyzeEntry. by rewrite Hv, Ht, Hi. Qed.

Lemma json_entry_throw (m : gmap string tracking) column v :
  isNullOrEmpty v = false → m !! column = None → inherited column = false →
  ∃ message, analyzeEntry h m (column, v) = Throw message.
Proof.
  intros Hv Ht Hi. unfold analyzeEntry. rewrite Hv, Ht, Hi. by eexists.
Qed.

Lemma json_analyzeValues vs : ∀ t,
  foldl (analyzeValue h) t vs =
  {| type := type t;
     maxLength := Nat.max (maxLength t) (maxStringLength h vs);
     containsDecimal :=
       containsDecimal t ||
       existsb (λ v, negb (isStructured h v) && isDecimal h v) vs;
     containsNonNumeric :=
       containsNonNumeric t ||
       existsb (λ v, isStructured h v || negb (isNumeric h v)) vs;
     isDate :=
       isDate t &&
       forallb (λ v, negb (isStructured h v) &&
                     negb (dateIsInvalid h v)) vs;
     isJson := isJson t || existsb (isStructured h) vs |}.
Proof.
  induction vs as [|v vs IH]; intros t.
  - destruct t. cbn. f_equal; try lia; by rewrite ?orb_false_r, ?andb_true_r.
  - cbn [foldl]. rewrite IH.
    unfold analyzeValue, isDecimal, isNumeric, isStructured.
    unfold maxStringLength. cbn [map existsb forallb].
    rewrite <- max_foldr_assoc.
    destruct (jsonParses (toString h v)), (isNaN h (toNumber h v));
      cbn [negb type maxLength containsDecimal containsNonNumeric isDate
           isJson andb orb]; f_equal;
      destruct (isDate t), (dateIsInvalid h v), (containsDecimal t),
        (containsNonNumeric t), (isJson t),
        (JsString.includes (toString h (Number (toNumber h v))) ".");
      done.
Qed.

Lemma json_determineType_precedence vs :
  type (determineType (foldl (analyzeValue h) initialTracking vs)) =
  Some (precedence (jsonProfile h vs)).
Proof.
  rewrite json_analyzeValues. unfold determineType, precedence, jsonProfile,
    integerWidth, Csv.varchar, initialTracking.
  cbn [type maxLength containsDecimal containsNonNumeric isDate isJson
       p_maxLength p_containsDecimal p_containsNonNumeric p_isDate
       p_isStructured andb orb Nat.max].
  done.
Qed.

Lemma json_inferColumnTypes_lookup records m c t :
  inferColumnTypes h records = Ok m → m !! c = Some t →
  (∃ firstRow rest, records = firstRow :: rest ∧ c ∈ firstRow.*1) ∧
  t = determineType
        (foldl (analyzeValue h) initialTracking (columnValues c records)).
Proof.
  unfold inferColumnTypes. destruct records as [|firstRow rest].
  { intros [= <-]. by rewrite lookup_empty. }
  destruct (analyzeRecords h _ _) as [m1|] eqn:E; [|done].
  intros [= <-]. rewrite lookup_fmap.
  unfold analyzeRecords in E.
  rewrite (records_lookup _ _ json_entry_skip json_entry_update
             json_entry_inherited json_entry_throw _ _ _ E c).
  unfold initColumnTypes. rewrite init_lookup, lookup_empty.
  destruct (decide (c ∈ firstRow.*1)) as [Hin|Hnin]; [|done].
  cbn. intros [= <-]. split; [|done]. by exists firstRow, rest.
Qed.

Lemma json_initColumnTypes_dom (firstRow : record (number h)) c :
  c ∈ dom (initColumnTypes firstRow) ↔ c ∈ firstRow.*1.
Proof.
  rewrite elem_of_dom. unfold initColumnTypes.
  rewrite init_lookup, lookup_empty.
  destruct (decide (c ∈ firstRow.*1)); split; try done;
    try by intros [? ?].
Qed.

(** The inference returns when every value it does not skip lies in a
    column of the first record. *)
Lemma json_inferColumnTypes_returns_inherited firstRow rest :
  (∀ r column v, r ∈ firstRow :: rest → (column, v) ∈ r →
     isNullOrEmpty v = false →
     column ∈ firstRow.*1 ∨ inherited column = true) →
  ∃ m, inferColumnTypes h (firstRow :: rest) = Ok m.
Proof.
  intros Hcols. unfold inferColumnTypes, analyzeRecords.
  destruct (records_returns _ _ json_entry_skip json_entry_update
              json_entry_inherited json_entry_throw (firstRow :: rest)
              (initColumnTypes firstRow))
    as [m1 ->]; [|by eexists].
  intros r column v Hr Hin Hv. rewrite json_initColumnTypes_dom. eauto.
Qed.

Lemma json_inferColumnTypes_returns firstRow rest :
  (∀ r column v, r ∈ firstRow :: rest → (column, v) ∈ r →
     isNullOrEmpty v = false → column ∈ firstRow.*1) →
  ∃ m, inferColumnTypes h (firstRow :: rest) = Ok m.
Proof.
  intros Hcols. apply json_inferColumnTypes_returns_inherited.
  intros r column v Hr Hin Hv. left. eauto.
Qed.

(** It throws when some record has such a value in another column,
    unless the column has an inherited name. *)
Lemma json_inferColumnTypes_throws firstRow rest r column v :
  r ∈ firstRow :: rest → (column, v) ∈ r → isNullOrEmpty v = false →
  column ∉ firstRow.*1 → inherited column = false →
  ∃ message, inferColumnTypes h (firstRow :: rest) = Throw message.
Proof.
  intros Hr Hin Hv Hcol Hi. unfold inferColumnTypes, analyzeRecords.
  destruct (records_throws _ _ json_entry_skip json_entry_update
              json_entry_inherited json_entry_throw (firstRow :: rest)
              (initColumnTypes firstRow)
              r column v Hr Hin Hv) as [msg ->]; [|done|by eexists].
  by rewrite json_initColumnTypes_dom.
Qed.

Lemma json_inferColumnTypes_resolves firstRow rest m c :
  inferColumnTypes h (firstRow :: rest) = Ok m → c ∈ firstRow.*1 →
  ∃ t, m !! c = Some t ∧
       type t = Some (precedence
                        (jsonProfile h (columnValues c (firstRow :: rest)))).
Proof.
  intros Hm Hc. unfold inferColumnTypes in Hm.
  destruct (analyzeRecords h _ _) as [m1|] eqn:E; [|done].
  injection Hm as <-. rewrite lookup_fmap. unfold analyzeRecords in E.
  rewrite (records_lookup _ _ json_entry_skip json_entry_update
             json_entry_inherited json_entry_throw _ _ _ E c).
  unfold initColumnTypes. rewrite init_lookup, decide_True by done.
  cbn. eexists. split; [done|]. apply json_determineType_precedence.
Qed.

End JsonInference.

(** ** The dependency-ordered merger *)








(** The same scenario from the statements on: orders is read and
    registered first, customers second. *)
Example ordersCustomers_from_statements :
  Sql.transformStatements 2 Scenario.parser (Scenario.mergeConfig None)
    (Sql.new_SqlProcessor unit)
    [ "CREATE TABLE orders (id INT, customer_id INT, FOREIGN KEY (customer_id) REFERENCES customers (id));";
      "CREATE TABLE customers (id INT);" ] =
  (Scenario.ordersCustomers, [],
   Some ["CREATE TABLE `customers` (...)"; "CREATE TABLE `orders` (...)"]).
Proof. reflexivity. Qed.

(** A foreign key to a table that is not among the statements: the
    referenced table has no statement, and the merger emits orders
    alone. *)
Example orders_without_customers :
  Sql.transformStatements 2 Scenario.parser (Scenario.mergeConfig None)
    (Sql.new_SqlProcessor unit)
    [ "CREATE TABLE orders (id INT, customer_id INT, FOREIGN KEY (customer_id) REFERENCES customers (id));" ] =
  ({| Sql.tables :=
        [("orders", Scenario.createTable "orders" ["customers"])];
      Sql.dependencies := <["orders" := ["customers"]]> ∅ |}, [],
   Some ["CREATE TABLE `orders` (...)"]).
Proof. reflexivity. Qed.

Lemma authorBook_cycle :
  tc (dependsOn (Sql.dependencies Scenario.authorBook)) "author" "author".
Proof.
  apply tc_l with "book".
  - unfold dependsOn. vm_compute. by left.
  - apply tc_once. unfold dependsOn. vm_compute. by left.
Qed.

(** C3. Two tables that reference each other: whatever depth of recursion
    is allowed, [orderByDependencies] does not return. The claim asks for
    termination on graphs with cycles; [visit] marks a table as visited
    only after it has visited the dependencies. *)
Theorem C3_cycle_never_returns :
  ∀ fuel,
    Sql.orderByDependencies fuel Scenario.authorBook
      [Scenario.authorStatement; Scenario.bookStatement] = None.
Proof.
  apply (orderByDependencies_cycle _ _ "author" "author").
  - vm_compute. by left.
  - done.
  - apply authorBook_cycle.
Qed.

(** ** Statements that cannot be parsed *)

(** C7. With merge mode on, a table definition the parser rejects is
    logged as kept and then left out of what [transformStatements]
    returns: the trailing pass of [orderByDependencies] skips every
    statement that starts with CREATE TABLE, and no table was registered
    for it. The claim has the original text in the output sequence. *)
Theorem C7_merge_drops_unparsed_definition :
  ∀ fuel,
    Sql.transformStatements fuel Scenario.parser (Scenario.mergeConfig None)
      (Sql.new_SqlProcessor unit) [Scenario.brokenStatement] =
    (Sql.new_SqlProcessor unit,
     ["Error transforming statement, keeping original: Syntax error"],
     Some []).
Proof. intros fuel. reflexivity. Qed.

(** The same for every parser and every such statement. *)
Lemma merge_drops_unparsed_definition {payload} (parser : Sql.Parser payload)
    (config : Sql.Config) (statement message : string) (fuel : nat) :
  Sql.mergeSql config = true →
  Sql.astify parser statement = Throw message →
  Sql.isCreateTable statement = true →
  Sql.transformStatements fuel parser config (Sql.new_SqlProcessor payload)
    [statement] =
  (Sql.new_SqlProcessor payload,
   ["Error transforming statement, keeping original: " +:+ message],
   Some []).
Proof.
  intros Hmerge Ha Hct.
  unfold Sql.transformStatements, Sql.transformLoop. cbn [foldl].
  unfold Sql.transformStep, Sql.transformStatement. rewrite Ha, Hmerge.
  cbn [Sql.this_ Sql.warnings Sql.transformed app].
  unfold Sql.orderByDependencies, Sql.new_SqlProcessor.
  cbn [Sql.tables Sql.dependencies Map_keys fmap list_fmap Sql.visitAll foldl
       mbind option_bind Sql.ordered app filter list_filter].
  rewrite Hct. by rewrite decide_False by done.
Qed.

(** Without merge mode the statement is returned as it was read. *)
Lemma transformStatements_passthrough {payload} (parser : Sql.Parser payload)
    (config : Sql.Config) (this : Sql.SqlProcessor payload)
    (statements : list string) (i : nat) (statement message : string)
    (fuel : nat) :
  Sql.mergeSql config = false →
  statements !! i = Some statement →
  Sql.astify parser statement = Throw message →
  ∃ this' warnings out,
    Sql.transformStatements fuel parser config this statements =
      (this', warnings, Some out) ∧
    List.length out = List.length statements ∧
    out !! i = Some statement ∧
    ("Error transforming statement, keeping original: " +:+ message)
      ∈ warnings.
Proof.
  intros Hmerge Hi Ha. unfold Sql.transformStatements. rewrite Hmerge.
  destruct (transformLoop_passthrough parser config this statements i
              statement message Hi Ha) as (Hlen & Hout & Hwarn).
  by eexists _, _, _.
Qed.

(** In merge mode it is returned when it does not start with
    CREATE TABLE. *)
Lemma transformStatements_merge_passthrough {payload}
    (parser : Sql.Parser payload) (config : Sql.Config)
    (this : Sql.SqlProcessor payload) (statements : list string)
    (statement message : string) (fuel : nat) (out : list string) :
  statement ∈ statements →
  Sql.astify parser statement = Throw message →
  Sql.isCreateTable statement = false →
  (Sql.transformStatements fuel parser config this statements).2 = Some out →
  Sql.mergeSql config = true →
  statement ∈ out.
Proof.
  intros [i Hi]%list_elem_of_lookup_1 Ha Hct Hout Hmerge.
  unfold Sql.transformStatements in Hout. rewrite Hmerge in Hout.
  cbn [snd] in Hout.
  destruct (transformLoop_passthrough parser config this statements i
              statement message Hi Ha) as (_ & Hin & _).
  apply orderByDependencies_Some in Hout as (o & _ & _ & _ & ->).
  apply elem_of_app. right. apply list_elem_of_filter. split; [done|].
  by eapply list_elem_of_lookup_2.
Qed.

(** ** The output assembler *)

Lemma append_cons (x : ascii) (a b : string) :
  String x a +:+ b = String x (a +:+ b).
Proof. reflexivity. Qed.

Lemma append_assoc (a b c : string) : (a +:+ b) +:+ c = a +:+ b +:+ c.
Proof.
  induction a as [|x a IH]; [done|]. by rewrite !append_cons, IH.
Qed.

Lemma append_nil_r (a : string) : a +:+ "" = a.
Proof. induction a as [|x a IH]; [done|]. by rewrite append_cons, IH. Qed.

Lemma join_cons sep s rest :
  JsString.join sep (s :: rest) =
  s +:+ String.concat "" (map (λ t, sep +:+ t) rest).
Proof.
  revert s. induction rest as [|t rest IH]; intros s.
  - cbn [JsString.join map String.concat]. by rewrite append_nil_r.
  - change (JsString.join sep (s :: t :: rest))
      with (s +:+ sep +:+ JsString.join sep (t :: rest)).
    rewrite IH. destruct rest as [|u rest]; cbn [map String.concat].
    + by rewrite append_nil_r.
    + by rewrite !append_assoc.
Qed.

(** C8, as the code has it. The document is the banner, the encoding
    pragma, the integrity-disable pragma, the statements and the
    integrity-enable pragma. Every statement but the first is preceded by
    a semicolon and a blank line, whatever the statement before it ends
    with; nothing is put between the last statement and the line break
    before the closing pragma. *)
Theorem C8_document_layout (config : Sql.Config) (timestamp : string)
    (statements : list string) :
  Sql.generateOutput config timestamp statements =
    "-- Generated by DB Blender" +:+ LF +:+
    "-- Timestamp: " +:+ timestamp +:+ LF +:+
    "-- Encoding: " +:+ Sql.toEncoding config +:+ LF +:+
    LF +:+
    "SET NAMES utf8mb4;" +:+ LF +:+
    "SET FOREIGN_KEY_CHECKS = 0;" +:+ LF +:+
    match statements with
    | [] => ""
    | first :: rest =>
        first +:+ String.concat "" (map (λ s, ";" +:+ LF +:+ LF +:+ s) rest)
    end +:+
    LF +:+ "SET FOREIGN_KEY_CHECKS = 1;".
Proof.
  unfold Sql.generateOutput.
  destruct statements as [|first rest].
  - cbn [JsString.join]. by rewrite !append_assoc.
  - rewrite (join_cons _ first rest). cbn [JsString.join].
    rewrite !append_assoc. reflexivity.
Qed.

(** C8, as the claim has it, fails: a statement that ends with the
    terminator is followed by a second one. *)
Lemma C8_terminator_duplicated :
  Sql.generateOutput Scenario.plainConfig "2024-01-01T00:00:00.000Z"
    ["SELECT 1;"; "SELECT 2;"] =
    "-- Generated by DB Blender" +:+ LF +:+
    "-- Timestamp: 2024-01-01T00:00:00.000Z" +:+ LF +:+
    "-- Encoding: utf8mb4" +:+ LF +:+ LF +:+
    "SET NAMES utf8mb4;" +:+ LF +:+
    "SET FOREIGN_KEY_CHECKS = 0;" +:+ LF +:+
    "SELECT 1;;" +:+ LF +:+ LF +:+
    "SELECT 2;" +:+ LF +:+
    "SET FOREIGN_KEY_CHECKS = 1;"
  ∧ JsString.includes
      (Sql.generateOutput Scenario.plainConfig "2024-01-01T00:00:00.000Z"
         ["SELECT 1;"; "SELECT 2;"]) ";;" = true
  ∧ JsString.includes "SELECT 1;" ";;" = false
  ∧ JsString.includes "SELECT 2;" ";;" = false.
Proof. by vm_compute. Qed.

(** ** The statement splitter *)

Lemma rev_app_append (s1 s2 : string) :
  String.rev_app s1 s2 = String.rev s1 +:+ s2.
Proof.
  unfold String.rev. revert s2.
  induction s1 as [|c s1 IH]; intros s2; [done|].
  cbn [String.rev_app]. rewrite IH, (IH (String c "")).
  by rewrite append_assoc.
Qed.

Lemma rev_cons (c : ascii) (s : string) :
  String.rev (String c s) = String.rev s +:+ String c "".
Proof. unfold String.rev at 1. cbn [String.rev_app]. apply rev_app_append. Qed.

Lemma rev_append (a b : string) :
  String.rev (a +:+ b) = String.rev b +:+ String.rev a.
Proof.
  induction a as [|c a IH].
  - change ("" +:+ b) with b. by rewrite append_nil_r.
  - rewrite append_cons, !rev_cons, IH. by rewrite append_assoc.
Qed.

Lemma rev_involutive (s : string) : String.rev (String.rev s) = s.
Proof.
  induction s as [|c s IH]; [done|].
  rewrite rev_cons, rev_append, IH. done.
Qed.

Lemma trimStart_append_nonempty (a b : string) c r :
  JsString.trimStart a = String c r →
  JsString.trimStart (a +:+ b) = String c (r +:+ b).
Proof.
  induction a as [|x a IH]; [done|].
  rewrite append_cons. cbn [JsString.trimStart].
  destruct (JsString.isWhiteSpace x); [done|].
  intros [= -> ->]. done.
Qed.

Lemma trimStart_cases (s : string) :
  JsString.trimStart s = "" ∨
  ∃ w c r, s = w +:+ String c r ∧ JsString.trimStart s = String c r ∧
           JsString.isWhiteSpace c = false ∧ JsString.trimStart w = "".
Proof.
  induction s as [|x s IH]; [by left|].
  cbn [JsString.trimStart]. destruct (JsString.isWhiteSpace x) eqn:Hx.
  - destruct IH as [H|(w & c & r & -> & H & Hc & Hw)]; [by left|].
    right. exists (String x w), c, r. rewrite append_cons.
    split_and!; try done. cbn [JsString.trimStart]. by rewrite Hx.
  - right. by exists "", x, s.
Qed.

Lemma trimStart_rev_nonempty w c r :
  JsString.isWhiteSpace c = false →
  ∃ c' r', JsString.trimStart (String.rev (w +:+ String c r)) = String c' r'.
Proof.
  intros Hc. rewrite rev_append, rev_cons.
  destruct (trimStart_cases (String.rev r))
    as [H|(w' & c' & r' & _ & H & _)].
  - assert (JsString.trimStart (String.rev r +:+ String c "") = String c "")
      as H1.
    { revert H. generalize (String.rev r). intros a.
      induction a as [|x a IH]; cbn [JsString.trimStart].
      - intros _. change ("" +:+ String c "") with (String c "").
        cbn [JsString.trimStart]. by rewrite Hc.
      - rewrite append_cons. cbn [JsString.trimStart].
        destruct (JsString.isWhiteSpace x); [done|discriminate]. }
    rewrite (trimStart_append_nonempty _ _ _ _ H1). by eexists _, _.
  - assert (JsString.trimStart (String.rev r +:+ String c "")
            = String c' (r' +:+ String c "")) as H1
      by by apply trimStart_append_nonempty.
    rewrite (trimStart_append_nonempty _ _ _ _ H1). by eexists _, _.
Qed.

Lemma lastIs_trimStart c s : lastIs c s → lastIs c (JsString.trimStart s).
Proof.
  intros [r Hr]. unfold lastIs.
  destruct (trimStart_cases s) as [H|(w & x & t & -> & H & Hx & Hw)].
  - exfalso. clear -H Hr.
    assert (∀ a, JsString.trimStart a = "" →
                 JsString.trimStart (String.rev a) = "") as Hws.
    { induction a as [|y a IH]; [done|]. cbn [JsString.trimStart].
      destruct (JsString.isWhiteSpace y) eqn:Hy; [|done]. intros Ha.
      rewrite rev_cons.
      destruct (trimStart_cases (String.rev a))
        as [H0|(? & ? & ? & _ & H0 & _)].
      - clear -H0 Hy. revert H0. generalize (String.rev a). intros b.
        induction b as [|z b IHb]; cbn [JsString.trimStart].
        + intros _. change ("" +:+ String y "") with (String y "").
          cbn [JsString.trimStart]. by rewrite Hy.
        + rewrite append_cons. cbn [JsString.trimStart].
          destruct (JsString.isWhiteSpace z); [done|discriminate].
      - rewrite (IH Ha) in H0. discriminate. }
    rewrite (Hws _ H) in Hr. discriminate.
  - rewrite H. rewrite rev_append in Hr.
    destruct (trimStart_rev_nonempty "" x t Hx) as (c' & r' & Hc').
    change ("" +:+ String x t) with (String x t) in Hc'.
    rewrite (trimStart_append_nonempty _ _ _ _ Hc') in Hr.
    injection Hr as -> _. by eexists.
Qed.

Lemma lastIs_untrimStart c s : lastIs c (JsString.trimStart s) → lastIs c s.
Proof.
  intros [r Hr]. unfold lastIs.
  destruct (trimStart_cases s) as [H|(w & x & t & -> & H & Hx & Hw)].
  - rewrite H in Hr. discriminate.
  - rewrite H in Hr. rewrite rev_append.
    rewrite (trimStart_append_nonempty _ _ _ _ Hr). by eexists.
Qed.

Lemma lastIs_trim c s : lastIs c (JsString.trim s) ↔ lastIs c s.
Proof.
  unfold JsString.trim. split.
  - intros [r Hr]. rewrite rev_involutive in Hr.
    apply lastIs_untrimStart. unfold lastIs.
    destruct (trimStart_cases (String.rev (JsString.trimStart s)))
      as [H|(w & x & t & _ & H & Hx & _)].
    + rewrite H in Hr. discriminate.
    + rewrite H in Hr. cbn [JsString.trimStart] in Hr. rewrite Hx in Hr.
      rewrite H. by eexists.
  - intros H%lastIs_trimStart. destruct H as [r Hr].
    unfold lastIs. rewrite rev_involutive, Hr.
    destruct (trimStart_cases (String.rev (JsString.trimStart s)))
      as [H|(w & x & t & _ & H & Hx & _)].
    + rewrite H in Hr. discriminate.
    + rewrite H in Hr. injection Hr as -> ->.
      cbn [JsString.trimStart]. rewrite Hx. by eexists.
Qed.

Lemma endsWithSemicolon_lastIs s :
  Sql.endsWithSemicolon (JsString.trim s) = true ↔ lastIs ";" s.
Proof.
  rewrite <- lastIs_trim. unfold Sql.endsWithSemicolon, JsString.startsWith.
  unfold lastIs, JsString.trim. rewrite rev_involutive.
  destruct (trimStart_cases (String.rev (JsString.trimStart s)))
    as [H|(w & x & t & _ & H & Hx & _)]; rewrite H.
  - split; [done|]. by intros [? ?].
  - cbn [JsString.trimStart]. rewrite Hx. cbn [String.prefix].
    destruct (Ascii.ascii_dec ";" x) as [Heq|Hne].
    + subst x. split; [by eexists|]. intros _. by destruct t.
    + split; [done|]. intros [? [= Heq]]. by subst x.
Qed.

(** Every statement the splitter hands over ends with the terminator. *)
Lemma splitStatements_terminated content statement :
  statement ∈ Sql.splitStatements content →
  Sql.endsWithSemicolon statement = true.
Proof.
  unfold Sql.splitStatements. generalize (Sql.split_lines content) "".
  intros lines. induction lines as [|line lines IH]; intros cur.
  - by intros ?%elem_of_nil.
  - cbn [Sql.splitStatements_go].
    destruct (_ || _ || _); [by apply IH|].
    destruct (Sql.endsWithSemicolon (JsString.trim line)) eqn:Hend;
      [|by apply IH].
    intros [->|Hin]%elem_of_cons; [|by eapply IH].
    apply endsWithSemicolon_lastIs. apply endsWithSemicolon_lastIs in Hend.
    destruct Hend as [r Hr]. unfold lastIs.
    rewrite !rev_append, append_assoc.
    change (String.rev LF +:+ String.rev line +:+ String.rev cur)
      with (String "010" (String.rev line +:+ String.rev cur)).
    cbn [JsString.trimStart].
    change (JsString.isWhiteSpace "010") with true. cbv iota.
    rewrite (trimStart_append_nonempty _ _ _ _ Hr). by eexists.
Qed.

(** ** Prefix stripping in merge mode *)

(** C10, as the code has it. Merge mode, a configured prefix, and a
    table definition whose name starts with it. The table is registered
    under the name the parser read, while [sqlify] writes the statement
    from a tree that carries the stripped name. When that text is a
    CREATE TABLE statement in which the merger finds the pattern of no
    name it visits, the text is produced by the loop and is absent from
    what [transformStatements] returns; and [transformStatements] does
    return when the dependencies have no cycle. *)
Theorem C10_stripped_table_left_out {payload : Type}
    (parser : Sql.Parser payload) (config : Sql.Config)
    (this : Sql.SqlProcessor payload) (statements : list string)
    (prefix statement name text : string) (ast : Sql.Ast payload) :
  Sql.mergeSql config = true →
  Sql.stripPrefix config = Some prefix →
  prefix ≠ "" →
  statement ∈ statements →
  Sql.astify parser statement = Ok ast →
  Sql.ast_type ast = "create" →
  Sql.table ast = Some name →
  JsString.startsWith name prefix = true →
  (Sql.transformStatement parser config this statement).2 = Ok text →
  Sql.isCreateTable text = true →
  let final := Sql.this_ (Sql.transformLoop parser config this statements) in
  (∀ n, mentioned final n →
        JsString.includes text (Sql.createTablePattern n) = false) →
  (name ∈ Map_keys (Sql.tables final) ∧
   is_Some (Sql.dependencies final !! name)) ∧
  (∃ ast', Sql.table ast' =
             Some (JsString.substringFrom (String.length prefix) name) ∧
           Sql.sqlify parser ast' = Ok text) ∧
  text ∈ Sql.transformed (Sql.transformLoop parser config this statements) ∧
  (∀ fuel out,
     (Sql.transformStatements fuel parser config this statements).2 =
       Some out → text ∉ out) ∧
  (acyclic (Sql.dependencies final) →
   ∃ N out, ∀ fuel, N ≤ fuel →
     (Sql.transformStatements fuel parser config this statements).2 =
       Some out).
Proof.
  intros Hmerge Hprefix Hne Hin Ha Hty Htab Hstarts Htext Hcreate final
         Hpattern.
  destruct (transformLoop_registers parser config this statements statement
              ast name text Hin Ha Hty Htab Htext) as (Hkey & Hdep & Htr).
  split; [done|]. split.
  { destruct (transformStatement_registers parser config this statement ast
                name Ha Hty Htab) as [_ Hreg].
    destruct (Hreg text Htext) as [_ (ast' & Htable & Hsql)].
    exists ast'. split; [|done]. rewrite Htable. f_equal.
    unfold Sql.stripTableName. rewrite Hprefix, Hstarts.
    destruct (String.eqb_spec prefix ""); done. }
  split; [done|]. split.
  - intros fuel out Hout Hmem.
    unfold Sql.transformStatements in Hout. rewrite Hmerge in Hout.
    cbn [snd] in Hout.
    destruct (orderByDependencies_origin _ _ _ _ _ Hout Hmem)
      as [[_ Hnot]|(n & Hn & _ & Hinc)].
    + congruence.
    + rewrite (Hpattern n Hn) in Hinc. done.
  - intros Hac.
    destruct (orderByDependencies_returns final
                (Sql.transformed (Sql.transformLoop parser config this
                                    statements)) Hac) as (N & out & Hout).
    exists N, out. intros fuel Hle.
    unfold Sql.transformStatements. rewrite Hmerge. cbn [snd].
    by apply Hout.
Qed.

Lemma oldUsers_final :
  Sql.this_ (Sql.transformLoop Scenario.parser
               (Scenario.mergeConfig (Some "old_")) (Sql.new_SqlProcessor unit)
               ["CREATE TABLE old_users (id INT);"]) =
  {| Sql.tables :=
       [("old_users",
         {| Sql.ast_type := "create"; Sql.table := Some "users";
            Sql.create_definitions := Some []; Sql.other := () |})];
     Sql.dependencies := <["old_users" := []]> ∅ |}.
Proof. reflexivity. Qed.

Lemma oldUsers_mentioned n :
  mentioned
    (Sql.this_ (Sql.transformLoop Scenario.parser
                  (Scenario.mergeConfig (Some "old_"))
                  (Sql.new_SqlProcessor unit)
                  ["CREATE TABLE old_users (id INT);"])) n →
  n = "old_users".
Proof.
  rewrite oldUsers_final. unfold mentioned, dependsOn.
  cbn [Sql.tables Sql.dependencies Map_keys fmap list_fmap fst].
  intros [Hn|[t Hd]].
  - by apply list_elem_of_singleton in Hn.
  - destruct (decide (t = "old_users")) as [->|Hne].
    + rewrite lookup_insert_eq in Hd. by apply elem_of_nil in Hd.
    + rewrite lookup_insert_ne, lookup_empty in Hd by done.
      by apply elem_of_nil in Hd.
Qed.

Lemma oldUsers_acyclic :
  acyclic (Sql.dependencies
             (Sql.this_ (Sql.transformLoop Scenario.parser
                           (Scenario.mergeConfig (Some "old_"))
                           (Sql.new_SqlProcessor unit)
                           ["CREATE TABLE old_users (id INT);"]))).
Proof.
  rewrite oldUsers_final. cbn [Sql.dependencies]. intros t Ht.
  assert (∀ x y, ¬ dependsOn (<["old_users" := []]> ∅) x y) as Hno.
  { intros x y. unfold dependsOn.
    destruct (decide (x = "old_users")) as [->|Hne].
    + rewrite lookup_insert_eq. by intros ?%elem_of_nil.
    + rewrite lookup_insert_ne, lookup_empty by done. by intros ?%elem_of_nil. }
  inversion Ht as [? ? H|? ? ? H _]; by apply Hno in H.
Qed.

Lemma C10_witness :
  "CREATE TABLE `users` (...)"
    ∈ Sql.transformed
        (Sql.transformLoop Scenario.parser
           (Scenario.mergeConfig (Some "old_")) (Sql.new_SqlProcessor unit)
           ["CREATE TABLE old_users (id INT);"]) ∧
  ∃ N out, ∀ fuel, N ≤ fuel →
    (Sql.transformStatements fuel Scenario.parser
       (Scenario.mergeConfig (Some "old_")) (Sql.new_SqlProcessor unit)
       ["CREATE TABLE old_users (id INT);"]).2 = Some out ∧
    "CREATE TABLE `users` (...)" ∉ out.
Proof.
  destruct (C10_stripped_table_left_out Scenario.parser
              (Scenario.mergeConfig (Some "old_")) (Sql.new_SqlProcessor unit)
              ["CREATE TABLE old_users (id INT);"] "old_"
              "CREATE TABLE old_users (id INT);" "old_users"
              "CREATE TABLE `users` (...)"
              (Scenario.createTable "old_users" []))
    as (_ & _ & Htr & Habsent & Hret).
  - reflexivity.
  - reflexivity.
  - discriminate.
  - by left.
  - reflexivity.
  - reflexivity.
  - reflexivity.
  - reflexivity.
  - reflexivity.
  - reflexivity.
  - intros n ->%oldUsers_mentioned. reflexivity.
  - split; [exact Htr|].
    destruct (Hret oldUsers_acyclic) as (N & out & Hout).
    exists N, out. intros fuel Hle. split; [by apply Hout|].
    apply (Habsent fuel). by apply Hout.
Defined.

(** C10, as the claim has it, fails: with the prefix old_ and the tables
    old_users and users, the statement of old_users is written with the
    name users, and the merger finds it when it looks for the table
    users. The output is the statement of the stripped table, and the
    statement of the table users is the one left out. *)
Lemma C10_stripped_statement_emitted :
  "old_users"
    ∈ Map_keys
        (Sql.tables
           (Sql.this_ (Sql.transformLoop Scenario.columnParser
                         (Scenario.mergeConfig (Some "old_"))
                         (Sql.new_SqlProcessor string)
                         Scenario.oldUsersAndUsers))) ∧
  (Sql.transformStatement Scenario.columnParser
     (Scenario.mergeConfig (Some "old_")) (Sql.new_SqlProcessor string)
     "CREATE TABLE old_users (id INT, legacy INT);").2 =
    Ok "CREATE TABLE `users` (`id` INT, `legacy` INT)" ∧
  Sql.transformed
    (Sql.transformLoop Scenario.columnParser
       (Scenario.mergeConfig (Some "old_")) (Sql.new_SqlProcessor string)
       Scenario.oldUsersAndUsers) =
    [ "CREATE TABLE `users` (`id` INT, `legacy` INT)";
      "CREATE TABLE `users` (`id` INT)" ] ∧
  (∀ fuel,
     (Sql.transformStatements (1 + fuel) Scenario.columnParser
        (Scenario.mergeConfig (Some "old_")) (Sql.new_SqlProcessor string)
        Scenario.oldUsersAndUsers).2 =
     Some [ "CREATE TABLE `users` (`id` INT, `legacy` INT)" ]).
Proof.
  split_and!.
  - cbn. set_solver.
  - reflexivity.
  - reflexivity.
  - intros fuel. unfold Sql.transformStatements. cbn [Sql.mergeSql
      Scenario.mergeConfig snd].
    apply (orderByDependencies_mono 1); [|lia]. reflexivity.
Qed.


Example jsonParses_accepts :
  Forall (λ text, Js.jsonParses text = true)
    ["7"; "12"; "999"; "0"; "-5"; "3.14"; "1e5"; " 7 "; "true"; "null";
     "[]"; "[1, [2, {}], 3]"; "{}"].
Proof. repeat constructor. Qed.

Example jsonParses_rejects :
  Forall (λ text, Js.jsonParses text = false)
    ["007"; "+7"; ".5"; "5."; "0x10"; "abc"; "2024-01-01"; "[1,]"; "1 2";
     "Infinity"].
Proof. repeat constructor. Qed.

(** ** The type inferencer *)

(** A value observed in a column sits, not skipped, in some record. *)
Lemma columnValues_elem {number} (c : string)
    (records : list (Js.record number)) (v : Js.value number) :
  v ∈ columnValues c records ↔
  ∃ r, r ∈ records ∧ (c, v) ∈ r ∧ Js.isNullOrEmpty v = false.
Proof.
  unfold columnValues. rewrite list_elem_of_bind. split.
  - intros (r & [[column v'] [Hv Hin]]%list_elem_of_bind & Hr).
    exists r. split; [done|]. unfold entryValues in Hv. cbn [fst snd] in Hv.
    destruct (decide (column = c)) as [->|]; [|by apply elem_of_nil in Hv].
    destruct (Js.isNullOrEmpty v') eqn:E; [by apply elem_of_nil in Hv|].
    by apply list_elem_of_singleton in Hv as ->.
  - intros (r & Hr & Hin & Hv). exists r. split; [|done].
    apply list_elem_of_bind. exists (c, v). split; [|done].
    unfold entryValues. cbn [fst snd]. rewrite decide_True by done.
    rewrite Hv. by left.
Qed.

(** A column in which a value was observed is, once the inference has
    returned, a column of the first record, unless every object inherits
    its name. *)
Lemma csv_observed_column (h : Js.Host)
    (firstRow : Js.record (Js.number h)) rest m (c : string) :
  Csv.inferColumnTypes h (firstRow :: rest) = Ok m →
  columnValues c (firstRow :: rest) ≠ [] → Js.inherited c = false →
  c ∈ firstRow.*1.
Proof.
  intros Hm Hobs Hi.
  destruct (columnValues c (firstRow :: rest)) as [|v vs] eqn:E; [done|].
  assert (v ∈ columnValues c (firstRow :: rest)) as Hv
    by (rewrite E; by left).
  apply columnValues_elem in Hv as (r & Hr & Hin & Hskip).
  destruct (decide (c ∈ firstRow.*1)) as [|Hno]; [done|].
  destruct (csv_inferColumnTypes_throws h firstRow rest r c v
              Hr Hin Hskip Hno Hi) as [msg Hmsg].
  destruct (eq_ind (Ok m) (λ o, if o is Ok _ then True else False) I _
              (eq_trans (eq_sym Hm) Hmsg)).
Qed.

Lemma json_observed_column (h : Js.Host)
    (firstRow : Js.record (Js.number h)) rest m (c : string) :
  Json.inferColumnTypes h (firstRow :: rest) = Ok m →
  columnValues c (firstRow :: rest) ≠ [] → Js.inherited c = false →
  c ∈ firstRow.*1.
Proof.
  intros Hm Hobs Hi.
  destruct (columnValues c (firstRow :: rest)) as [|v vs] eqn:E; [done|].
  assert (v ∈ columnValues c (firstRow :: rest)) as Hv
    by (rewrite E; by left).
  apply columnValues_elem in Hv as (r & Hr & Hin & Hskip).
  destruct (decide (c ∈ firstRow.*1)) as [|Hno]; [done|].
  destruct (json_inferColumnTypes_throws h firstRow rest r c v
              Hr Hin Hskip Hno Hi) as [msg Hmsg].
  destruct (eq_ind (Ok m) (λ o, if o is Ok _ then True else False) I _
              (eq_trans (eq_sym Hm) Hmsg)).
Qed.

(** C1. The inference returns a mapping for records that all have the
    columns of the first one. Whenever it returns a mapping, every column
    of the first record has a type in it, and so has every column in
    which a value was observed (a column that carries a name every object
    inherits, such as constructor, is typed as a column of the first
    record only). The type of a column is the one the fixed precedence
    selects for the profile of the values observed in it: structured,
    then date, then numeric-only (decimal, or the integer width by
    maximum length), then text. For delimited text no value is
    structured. *)
Theorem C1_resolution_precedence (h : Js.Host)
    (records : list (Js.record (Js.number h))) (c : string) :
  (∀ firstRow rest, records = firstRow :: rest →
     (∀ r column v, r ∈ records → (column, v) ∈ r → column ∈ firstRow.*1) →
     (∃ m, Csv.inferColumnTypes h records = Ok m) ∧
     (∃ m, Json.inferColumnTypes h records = Ok m)) ∧
  (∀ m, Csv.inferColumnTypes h records = Ok m →
     ((columnValues c records ≠ [] ∧ Js.inherited c = false) ∨
      (∃ firstRow rest, records = firstRow :: rest ∧ c ∈ firstRow.*1) →
      ∃ t, m !! c = Some t) ∧
     ∀ t, m !! c = Some t →
       Csv.type t =
         Some (precedence (csvProfile h (columnValues c records)))) ∧
  (∀ m, Json.inferColumnTypes h records = Ok m →
     ((columnValues c records ≠ [] ∧ Js.inherited c = false) ∨
      (∃ firstRow rest, records = firstRow :: rest ∧ c ∈ firstRow.*1) →
      ∃ t, m !! c = Some t) ∧
     ∀ t, m !! c = Some t →
       Json.type t =
         Some (precedence (jsonProfile h (columnValues c records)))).
Proof.
  split_and!.
  - intros firstRow rest -> Hcols. split.
    + apply csv_inferColumnTypes_returns. intros r column v Hr Hin _.
      by apply (Hcols r column v).
    + apply json_inferColumnTypes_returns. intros r column v Hr Hin _.
      by apply (Hcols r column v).
  - intros m Hm. split.
    + intros Hc.
      assert (∃ firstRow rest, records = firstRow :: rest ∧ c ∈ firstRow.*1)
        as (firstRow & rest & -> & Hfirst).
      { destruct Hc as [[Hobs Hi]|?]; [|done].
        destruct records as [|firstRow rest]; [done|].
        exists firstRow, rest. split; [done|].
        by apply (csv_observed_column h firstRow rest m c). }
      destruct (csv_inferColumnTypes_resolves h _ _ m c Hm Hfirst)
        as (t & Ht & _). by exists t.
    + intros t Ht.
      destruct (csv_inferColumnTypes_lookup h records m c t Hm Ht) as [_ ->].
      apply csv_determineType_precedence.
  - intros m Hm. split.
    + intros Hc.
      assert (∃ firstRow rest, records = firstRow :: rest ∧ c ∈ firstRow.*1)
        as (firstRow & rest & -> & Hfirst).
      { destruct Hc as [[Hobs Hi]|?]; [|done].
        destruct records as [|firstRow rest]; [done|].
        exists firstRow, rest. split; [done|].
        by apply (json_observed_column h firstRow rest m c). }
      destruct (json_inferColumnTypes_resolves h _ _ m c Hm Hfirst)
        as (t & Ht & _). by exists t.
    + intros t Ht.
      destruct (json_inferColumnTypes_lookup h records m c t Hm Ht) as [_ ->].
      apply json_determineType_precedence.
Qed.

Lemma C1_witness :
  ∃ m t m' t',
    Csv.inferColumnTypes Node.host Scenario.ages = Ok m ∧
    m !! "age" = Some t ∧
    Csv.type t =
      Some (precedence
              (csvProfile Node.host (columnValues "age" Scenario.ages))) ∧
    Csv.type t = Some "DATETIME" ∧
    Json.inferColumnTypes Node.host Scenario.ages = Ok m' ∧
    m' !! "age" = Some t' ∧
    Json.type t' =
      Some (precedence
              (jsonProfile Node.host (columnValues "age" Scenario.ages))) ∧
    Json.type t' = Some "JSON".
Proof.
  destruct (C1_resolution_precedence Node.host Scenario.ages "age")
    as (Hreturns & Hcsv & Hjson).
  destruct (Hreturns [("age", Js.Str "7")]
              [ [("age", Js.Str "12")]; [("age", Js.Str "999")] ] eq_refl)
    as [[m Hm] [m' Hm']].
  { intros r column v Hr Hin.
    repeat (apply elem_of_cons in Hr as [->|Hr]);
      try (apply list_elem_of_singleton in Hin as [= -> ->]; by left).
    by apply elem_of_nil in Hr. }
  destruct (Hcsv m Hm) as [Hhas Hty].
  destruct (Hjson m' Hm') as [Hhas' Hty'].
  destruct Hhas as [t Ht]; [left; split; [discriminate|reflexivity]|].
  destruct Hhas' as [t' Ht']; [left; split; [discriminate|reflexivity]|].
  exists m, t, m', t'.
  split; [exact Hm|]. split; [exact Ht|].
  split; [exact (Hty t Ht)|]. split; [rewrite (Hty t Ht); reflexivity|].
  split; [exact Hm'|]. split; [exact Ht'|].
  split; [exact (Hty' t' Ht')|]. rewrite (Hty' t' Ht'). reflexivity.
Defined.

(** C4, as the code has it. The column age has maximum length 3, no
    decimal and no non-numeric value; it resolves to TINYINT when the
    Date constructor of the host rejects one of the three values, and to
    DATETIME when it accepts them all. *)
Theorem C4_age_column (h : Js.Host) :
  (∀ v, v ∈ [Js.Str "7"; Js.Str "12"; Js.Str "999"] →
        isNumeric h v = true ∧ isDecimal h v = false) →
  ∃ m t, Csv.inferColumnTypes h Scenario.ages = Ok m ∧
         m !! "age" = Some t ∧
         Csv.type t =
           Some (if forallb (λ v, negb (Js.dateIsInvalid h v))
                      [Js.Str "7"; Js.Str "12"; Js.Str "999"]
                 then "DATETIME" else "TINYINT").
Proof.
  intros Hnum.
  destruct (csv_inferColumnTypes_returns h [("age", Js.Str "7")]
              [ [("age", Js.Str "12")]; [("age", Js.Str "999")] ]) as [m Hm].
  { intros r column v Hr Hin _.
    repeat (apply elem_of_cons in Hr as [->|Hr]);
      try (apply list_elem_of_singleton in Hin as [= -> ->]; by left).
    by apply elem_of_nil in Hr. }
  destruct (csv_inferColumnTypes_resolves h _ _ m "age" Hm)
    as (t & Ht & Hty); [by left|].
  exists m, t. split; [exact Hm|]. split; [exact Ht|].
  rewrite Hty. f_equal. change (columnValues "age" _)
    with [Js.Str "7"; Js.Str "12"; Js.Str "999" : Js.value (Js.number h)].
  destruct (Hnum (Js.Str "7")) as [N1 D1]; [set_solver|].
  destruct (Hnum (Js.Str "12")) as [N2 D2]; [set_solver|].
  destruct (Hnum (Js.Str "999")) as [N3 D3]; [set_solver|].
  unfold precedence, csvProfile.
  cbn [p_isStructured p_isDate p_containsNonNumeric p_containsDecimal
       p_maxLength existsb].
  rewrite N1, N2, N3, D1, D2, D3. cbn [negb orb].
  destruct (forallb _ _); reflexivity.
Qed.

Lemma C4_witness :
  ∃ m t, Csv.inferColumnTypes Node.host Scenario.ages = Ok m ∧
         m !! "age" = Some t ∧ Csv.type t = Some "DATETIME".
Proof.
  destruct (C4_age_column Node.host) as (m & t & Hm & Ht & Hty).
  - intros v Hv.
    repeat (apply elem_of_cons in Hv as [->|Hv]); try (split; reflexivity).
    by apply elem_of_nil in Hv.
  - exists m, t. split; [exact Hm|]. split; [exact Ht|]. exact Hty.
Defined.

(** C4, as the claim has it, fails on Node: its Date constructor accepts
    "7", "12" and "999", the date flag is never cleared, and the column
    resolves to DATETIME. *)
Lemma C4_age_is_DATETIME_on_Node :
  ∃ m t, Csv.inferColumnTypes Node.host Scenario.ages = Ok m ∧
         m !! "age" = Some t ∧
         Csv.type t = Some "DATETIME" ∧ Csv.type t ≠ Some "TINYINT".
Proof.
  destruct (csv_inferColumnTypes_returns Node.host [("age", Js.Str "7")]
              [ [("age", Js.Str "12")]; [("age", Js.Str "999")] ]) as [m Hm].
  { intros r column v Hr Hin _.
    repeat (apply elem_of_cons in Hr as [->|Hr]);
      try (apply list_elem_of_singleton in Hin as [= -> ->]; by left).
    by apply elem_of_nil in Hr. }
  destruct (csv_inferColumnTypes_resolves Node.host _ _ m "age" Hm)
    as (t & Ht & Hty); [by left|].
  exists m, t. split; [exact Hm|]. split; [exact Ht|].
  rewrite Hty. split; [reflexivity|discriminate].
Qed.

(** C5. The second record has a column the first record has not: reading
    [maxLength] of the missing tracking object throws, in both processors
    and on every host. The claim has inference return a mapping for
    records with differing column sets. *)
Theorem C5_differing_columns_throw (h : Js.Host) :
  Csv.inferColumnTypes h Scenario.differingColumns =
    Throw "Cannot read properties of undefined (reading 'maxLength')" ∧
  Json.inferColumnTypes h Scenario.differingColumns =
    Throw "Cannot read properties of undefined (reading 'maxLength')".
Proof. split; reflexivity. Qed.

(** The part of C5 that holds: no records, no columns. *)
Lemma inferColumnTypes_empty (h : Js.Host) :
  Csv.inferColumnTypes h [] = Ok ∅ ∧ Json.inferColumnTypes h [] = Ok ∅.
Proof. split; reflexivity. Qed.

(** Adding or removing an entry whose value is null or the empty string
    leaves the observed values of every column as they were. *)
Lemma columnValues_skip_entry {number} (c column : string)
    (v : Js.value number) (before_ after_ : list (Js.record number))
    (r1 r2 : Js.record number) :
  Js.isNullOrEmpty v = true →
  columnValues c (before_ ++ (r1 ++ (column, v) :: r2) :: after_) =
  columnValues c (before_ ++ (r1 ++ r2) :: after_).
Proof.
  intros Hv. unfold columnValues.
  rewrite !bind_app, !bind_cons, !bind_app, bind_cons.
  assert (entryValues c (column, v) = []) as ->; [|done].
  unfold entryValues. cbn [fst snd]. rewrite Hv.
  by destruct (decide (column = c)).
Qed.

(** *** Entries and records the loops pass over *)












(** A numeric string that [JSON.parse] rejects takes the other path: the
    column of [{code: "007"}] is not structured, on any host. *)
Lemma leadingZeros_not_structured (h : Js.Host) m t :
  Json.inferColumnTypes h Scenario.leadingZeros = Ok m →
  m !! "code" = Some t →
  Json.isJson t = false ∧ Json.type t ≠ Some "JSON".
Proof.
  intros Hm Ht.
  destruct (json_inferColumnTypes_lookup h _ m "code" t Hm Ht) as [_ ->].
  change (columnValues "code" Scenario.leadingZeros)
    with [Js.Str "007" : Js.value (Js.number h)].
  cbn [foldl]. unfold Json.analyzeValue.
  change (Js.jsonParses (Js.toString h (Js.Str "007"))) with false.
  cbv iota. unfold Json.determineType, Json.initialTracking, Csv.varchar.
  destruct (Js.isNaN h _), (Js.dateIsInvalid h _), (JsString.includes _ _);
    cbn; split; done.
Qed.

(** * Further properties of the SQL processor *)

(** ** splitStatements *)

(** One statement for each line that is not skipped and ends, once
    trimmed, with a semicolon: a semicolon inside a line separates
    nothing, and a semicolon on a comment line ends nothing. *)
Theorem splitStatements_count (content : string) :
  List.length (Sql.splitStatements content) =
  List.length
    (filter (λ line,
       (JsString.startsWith (JsString.trim line) "--"
        || JsString.startsWith (JsString.trim line) "#"
        || String.eqb (JsString.trim line) "") = false ∧
       Sql.endsWithSemicolon (JsString.trim line) = true)
       (Sql.split_lines content)).
Proof.
  unfold Sql.splitStatements. generalize (Sql.split_lines content).
  intros lines. generalize EmptyString at 1.
  induction lines as [|line lines IH]; intros cur; [done|].
  cbn [Sql.splitStatements_go]. rewrite filter_cons.
  destruct (_ || _ || _) eqn:Hskip.
  - rewrite decide_False by (by intros [? _]). apply IH.
  - destruct (Sql.endsWithSemicolon (JsString.trim line)) eqn:Hend.
    + rewrite decide_True by done. cbn [List.length]. by rewrite IH.
    + rewrite decide_False by (by intros [_ ?]). apply IH.
Qed.

Lemma split_lines_go_append (a b cur : string) :
  Sql.split_lines_go cur (a +:+ LF +:+ b) =
  Sql.split_lines_go cur a ++ Sql.split_lines b.
Proof.
  revert cur. induction a as [|c a IH]; intros cur.
  - done.
  - rewrite append_cons. cbn [Sql.split_lines_go].
    destruct (Ascii.eqb c "010"); [|apply IH].
    cbn [app]. f_equal. apply IH.
Qed.

Lemma splitStatements_go_unterminated (tail : list string) : ∀ cur,
  (∀ line, line ∈ tail → Sql.endsWithSemicolon (JsString.trim line) = false) →
  Sql.splitStatements_go cur tail = [].
Proof.
  induction tail as [|line tail IH]; intros cur Hno; [done|].
  cbn [Sql.splitStatements_go]. cbv zeta.
  rewrite (Hno line) by (by left).
  destruct (_ || _ || _); apply IH; intros l Hl; apply Hno; by right.
Qed.

Lemma splitStatements_go_app (lines tail : list string) : ∀ cur,
  (∀ line, line ∈ tail → Sql.endsWithSemicolon (JsString.trim line) = false) →
  Sql.splitStatements_go cur (lines ++ tail) =
  Sql.splitStatements_go cur lines.
Proof.
  induction lines as [|line lines IH]; intros cur Hno.
  - by apply splitStatements_go_unterminated.
  - cbn [app Sql.splitStatements_go]. cbv zeta.
    destruct (_ || _ || _); [by apply IH|].
    destruct (Sql.endsWithSemicolon _); [|by apply IH].
    f_equal. by apply IH.
Qed.

(** What follows the last line that ends with a semicolon is not part of
    any statement: the text collected when the lines run out is dropped. *)
Theorem splitStatements_drops_unterminated (content tail : string) :
  (∀ line, line ∈ Sql.split_lines tail →
           Sql.endsWithSemicolon (JsString.trim line) = false) →
  Sql.splitStatements (content +:+ LF +:+ tail) =
  Sql.splitStatements content.
Proof.
  intros Hno. unfold Sql.splitStatements, Sql.split_lines.
  rewrite split_lines_go_append. by apply splitStatements_go_app.
Qed.

Lemma splitStatements_drops_unterminated_witness :
  Sql.splitStatements
    ("CREATE TABLE a (id INT);" +:+ LF +:+ "CREATE TABLE b (id INT)") =
  Sql.splitStatements "CREATE TABLE a (id INT);".
Proof.
  apply (splitStatements_drops_unterminated "CREATE TABLE a (id INT);"
           "CREATE TABLE b (id INT)").
  intros line Hline.
  apply list_elem_of_singleton in Hline. subst line. reflexivity.
Defined.

(** ** transformColumns *)

(** Modernising the columns twice is modernising them once. *)
Theorem transformColumns_idempotent (config : Sql.Config)
    (columns : list Sql.create_definition) :
  Sql.transformColumns config (Sql.transformColumns config columns) =
  Sql.transformColumns config columns.
Proof.
  unfold Sql.transformColumns. rewrite map_map. apply map_ext.
  intros [r rd ty len cs co]. unfold Sql.transformColumn.
  cbn [Sql.type Sql.resource Sql.reference_definition Sql.length Sql.charset
       Sql.collate].
  repeat (case_decide; cbn [Sql.type Sql.resource Sql.reference_definition
                            Sql.length Sql.charset Sql.collate] in * );
    try done; naive_solver.
Qed.

(** After the transformation no column is a TINYTEXT, and every VARCHAR or
    TEXT column has the target character set and its unicode collation. *)
Theorem transformColumns_modern (config : Sql.Config)
    (columns : list Sql.create_definition) (column : Sql.create_definition) :
  column ∈ Sql.transformColumns config columns →
  Sql.type column ≠ Some "TINYTEXT" ∧
  (Sql.type column = Some "VARCHAR" ∨ Sql.type column = Some "TEXT" →
   Sql.charset column = Some (Sql.toEncoding config) ∧
   Sql.collate column = Some (Sql.toEncoding config +:+ "_unicode_ci")).
Proof.
  unfold Sql.transformColumns.
  intros ([r rd ty len cs co] & -> & _)%list_elem_of_fmap.
  unfold Sql.transformColumn.
  cbn [Sql.type Sql.resource Sql.reference_definition Sql.length Sql.charset
       Sql.collate].
  repeat (case_decide; cbn [Sql.type Sql.resource Sql.reference_definition
                            Sql.length Sql.charset Sql.collate] in * );
    split; try done; naive_solver.
Qed.

Lemma transformColumns_modern_witness :
  Sql.type
    (Sql.transformColumn Scenario.plainConfig
       {| Sql.resource := "column"; Sql.reference_definition := None;
          Sql.type := Some "TINYTEXT"; Sql.length := None;
          Sql.charset := None; Sql.collate := None |}) ≠ Some "TINYTEXT" ∧
  Sql.charset
    (Sql.transformColumn Scenario.plainConfig
       {| Sql.resource := "column"; Sql.reference_definition := None;
          Sql.type := Some "TINYTEXT"; Sql.length := None;
          Sql.charset := None; Sql.collate := None |}) = Some "utf8mb4".
Proof.
  destruct (transformColumns_modern Scenario.plainConfig
              [ {| Sql.resource := "column"; Sql.reference_definition := None;
                   Sql.type := Some "TINYTEXT"; Sql.length := None;
                   Sql.charset := None; Sql.collate := None |} ]
              (Sql.transformColumn Scenario.plainConfig
                 {| Sql.resource := "column";
                    Sql.reference_definition := None;
                    Sql.type := Some "TINYTEXT"; Sql.length := None;
                    Sql.charset := None; Sql.collate := None |}))
    as [Hty Hcs].
  { by left. }
  split; [exact Hty|]. apply Hcs. by left.
Defined.

(** ** extractDependencies *)

Lemma Set_add_elem_of x y s : y ∈ Set_add x s ↔ y = x ∨ y ∈ s.
Proof.
  unfold Set_add. case_decide; [|rewrite elem_of_app, list_elem_of_singleton];
    set_solver.
Qed.

Lemma Set_add_NoDup x s : NoDup s → NoDup (Set_add x s).
Proof.
  unfold Set_add. case_decide; [done|]. intros Hs.
  apply NoDup_app. split_and!; [done| |apply NoDup_singleton].
  intros y Hy ->%list_elem_of_singleton. done.
Qed.

Lemma collectDependencies_spec defs : ∀ acc deps,
  Sql.collectDependencies defs acc = Ok deps →
  (NoDup acc → NoDup deps) ∧
  ∀ d, d ∈ deps ↔
       d ∈ acc ∨ ∃ def, def ∈ defs ∧ Sql.resource def = "foreign key" ∧
                        Sql.reference_definition def = Some d.
Proof.
  induction defs as [|def defs IH]; intros acc deps H; cbn in H.
  - injection H as <-. split; [done|]. intros d. split; [by left|].
    intros [?|(? & ?%elem_of_nil & _)]; done.
  - destruct (String.eqb_spec (Sql.resource def) "foreign key") as [Hr|Hr].
    + destruct (Sql.reference_definition def) as [t|] eqn:Ht; [|done].
      destruct (IH _ _ H) as [Hnd Hin]. split.
      * intros Hacc. by apply Hnd, Set_add_NoDup.
      * intros d. rewrite Hin, Set_add_elem_of. split.
        -- intros [[->|?]|(def' & ? & ? & ?)]; [right|by left|right].
           ++ exists def. split_and!; [by left|done..].
           ++ exists def'. split_and!; [by right|done..].
        -- intros [?|(def' & [->|?]%elem_of_cons & ? & ?)].
           ++ left. by right.
           ++ left. left. congruence.
           ++ right. by exists def'.
    + destruct (IH _ _ H) as [Hnd Hin]. split; [done|].
      intros d. rewrite Hin. split.
      * intros [?|(def' & ? & ? & ?)]; [by left|right].
        exists def'. split_and!; [by right|done..].
      * intros [?|(def' & [->|?]%elem_of_cons & ? & ?)];
          [by left|done|right; by exists def'].
Qed.

Lemma collectDependencies_transformColumns config defs : ∀ acc,
  Sql.collectDependencies (Sql.transformColumns config defs) acc =
  Sql.collectDependencies defs acc.
Proof.
  induction defs as [|def defs IH]; intros acc; [done|].
  cbn [Sql.transformColumns map Sql.collectDependencies].
  assert (Sql.resource (Sql.transformColumn config def) = Sql.resource def ∧
          Sql.reference_definition (Sql.transformColumn config def) =
            Sql.reference_definition def) as [-> ->].
  { unfold Sql.transformColumn. by repeat case_decide. }
  fold (Sql.transformColumns config defs).
  destruct (String.eqb _ _); [|apply IH].
  destruct (Sql.reference_definition def); [apply IH|done].
Qed.

Lemma extractDependencies_frame {payload}
    (this this' : Sql.SqlProcessor payload) (tableName : string)
    (ast : Sql.Ast payload) :
  Sql.extractDependencies this tableName ast = Ok this' →
  Sql.tables this' = Sql.tables this ∧
  (∀ k, k ≠ tableName →
        Sql.dependencies this' !! k = Sql.dependencies this !! k) ∧
  ∃ deps, Sql.dependencies this' !! tableName = Some deps ∧ NoDup deps.
Proof.
  unfold Sql.extractDependencies.
  destruct (Sql.create_definitions ast) as [defs|].
  - destruct (Sql.collectDependencies defs []) as [deps|] eqn:Hc; [|done].
    intros [= <-]. cbn [Sql.tables Sql.dependencies].
    split; [done|]. split; [intros k Hk; by rewrite lookup_insert_ne|].
    exists deps. rewrite lookup_insert_eq. split; [done|].
    apply (collectDependencies_spec _ _ _ Hc), NoDup_nil_2.
  - intros [= <-]. cbn [Sql.tables Sql.dependencies].
    split; [done|]. split; [intros k Hk; by rewrite lookup_insert_ne|].
    exists []. rewrite lookup_insert_eq. split; [done|apply NoDup_nil_2].
Qed.

(** Recording the dependencies of a table touches nothing else: the
    table definitions and the dependencies of the other tables stay, and
    the set recorded holds, once each, the tables that the foreign keys
    of the statement reference. *)
Theorem extractDependencies_records {payload}
    (this this' : Sql.SqlProcessor payload) (tableName : string)
    (ast : Sql.Ast payload) :
  Sql.extractDependencies this tableName ast = Ok this' →
  Sql.tables this' = Sql.tables this ∧
  (∀ k, k ≠ tableName →
        Sql.dependencies this' !! k = Sql.dependencies this !! k) ∧
  ∃ deps, Sql.dependencies this' !! tableName = Some deps ∧ NoDup deps ∧
    ∀ d, d ∈ deps ↔
         ∃ defs def, Sql.create_definitions ast = Some defs ∧ def ∈ defs ∧
                     Sql.resource def = "foreign key" ∧
                     Sql.reference_definition def = Some d.
Proof.
  unfold Sql.extractDependencies.
  destruct (Sql.create_definitions ast) as [defs|] eqn:Hdefs.
  - destruct (Sql.collectDependencies defs []) as [deps|] eqn:Hc; [|done].
    intros [= <-]. cbn [Sql.tables Sql.dependencies].
    split; [done|]. split; [intros k Hk; by rewrite lookup_insert_ne|].
    exists deps. rewrite lookup_insert_eq.
    destruct (collectDependencies_spec _ _ _ Hc) as [Hnd Hin].
    split; [done|]. split; [apply Hnd, NoDup_nil_2|].
    intros d. rewrite Hin. split.
    + intros [?%elem_of_nil|(def & ? & ? & ?)]; [done|]. by exists defs, def.
    + intros (defs' & def & [= <-] & ? & ? & ?). right. by exists def.
  - intros [= <-]. cbn [Sql.tables Sql.dependencies].
    split; [done|]. split; [intros k Hk; by rewrite lookup_insert_ne|].
    exists []. rewrite lookup_insert_eq. split; [done|].
    split; [apply NoDup_nil_2|]. intros d. split; [by intros ?%elem_of_nil|].
    by intros (? & ? & ? & _).
Qed.

Lemma extractDependencies_witness :
  ∃ this' deps,
    Sql.extractDependencies (Sql.new_SqlProcessor unit) "orders"
      (Scenario.createTable "orders" ["customers"; "customers"]) = Ok this' ∧
    Sql.dependencies this' !! "orders" = Some deps ∧
    NoDup deps ∧ "customers" ∈ deps.
Proof.
  eexists.
  destruct (extractDependencies_records (Sql.new_SqlProcessor unit) _
              "orders"
              (Scenario.createTable "orders" ["customers"; "customers"])
              eq_refl) as (_ & _ & deps & Hd & Hnd & Hin).
  exists deps. split; [reflexivity|]. split; [exact Hd|].
  split; [exact Hnd|]. apply Hin.
  eexists _, _. split; [reflexivity|]. split; [by left|]. done.
Defined.

(** The foreign keys are read from the definitions after the columns were
    modernised, and that changes none of them: the dependencies recorded
    are those of the parsed statement. *)
Theorem extractDependencies_transformColumns {payload} (config : Sql.Config)
    (this : Sql.SqlProcessor payload) (tableName : string)
    (ast : Sql.Ast payload) (table : option string) :
  Sql.extractDependencies this tableName
    {| Sql.ast_type := Sql.ast_type ast; Sql.table := table;
       Sql.create_definitions :=
         Sql.transformColumns config <$> Sql.create_definitions ast;
       Sql.other := Sql.other ast |} =
  Sql.extractDependencies this tableName ast.
Proof.
  unfold Sql.extractDependencies. cbn [Sql.create_definitions].
  destruct (Sql.create_definitions ast) as [defs|]; [|done].
  cbn [fmap option_fmap option_map].
  by rewrite collectDependencies_transformColumns.
Qed.

(** ** Prefix stripping *)

Lemma prefix_append (p s : string) : String.prefix p (p +:+ s) = true.
Proof.
  induction p as [|c p IH]; [by destruct s|].
  rewrite append_cons. cbn [String.prefix].
  by destruct (Ascii.ascii_dec c c).
Qed.

Lemma length_append (p s : string) :
  String.length (p +:+ s) = String.length p + String.length s.
Proof.
  induction p as [|c p IH]; [done|].
  rewrite append_cons. cbn [String.length]. by rewrite IH.
Qed.

Lemma substring_all (s : string) : String.substring 0 (String.length s) s = s.
Proof. induction s as [|c s IH]; [done|]. cbn. by rewrite IH. Qed.

Lemma substringFrom_append (p s : string) :
  JsString.substringFrom (String.length p) (p +:+ s) = s.
Proof.
  unfold JsString.substringFrom. rewrite length_append.
  replace (String.length p + String.length s - String.length p)
    with (String.length s) by lia.
  induction p as [|c p IH]; [apply substring_all|].
  rewrite append_cons. cbn [String.length String.substring]. apply IH.
Qed.

(** The configured prefix is removed once, from the front. *)
Theorem stripTableName_prefixed (config : Sql.Config) (prefix rest : string) :
  Sql.stripPrefix config = Some prefix → prefix ≠ "" →
  Sql.stripTableName config (prefix +:+ rest) = rest.
Proof.
  intros Hp Hne. unfold Sql.stripTableName, JsString.startsWith.
  rewrite Hp, prefix_append.
  destruct (String.eqb_spec prefix ""); [done|]. apply substringFrom_append.
Qed.

Lemma stripTableName_witness :
  Sql.stripTableName (Scenario.mergeConfig (Some "old_")) "old_old_users" =
  "old_users".
Proof.
  apply (stripTableName_prefixed (Scenario.mergeConfig (Some "old_"))
           "old_" "old_users"); [reflexivity|discriminate].
Defined.

(** A name that does not start with the prefix, and any name when the
    prefix is empty or not configured, is kept. *)
Theorem stripTableName_unchanged (config : Sql.Config) (name : string) :
  (∀ prefix, Sql.stripPrefix config = Some prefix →
             prefix = "" ∨ JsString.startsWith name prefix = false) →
  Sql.stripTableName config name = name.
Proof.
  intros H. unfold Sql.stripTableName.
  destruct (Sql.stripPrefix config) as [prefix|]; [|done].
  destruct (H prefix eq_refl) as [-> | ->]; [done|].
  by rewrite andb_false_r.
Qed.

Lemma stripTableName_unchanged_witness :
  Sql.stripTableName (Scenario.mergeConfig (Some "old_")) "users" = "users".
Proof.
  apply (stripTableName_unchanged (Scenario.mergeConfig (Some "old_")) "users").
  intros prefix Hp. injection Hp as <-. by right.
Defined.

(** ** The registries *)

Lemma Map_set_NoDup {V} k (v : V) m :
  NoDup (Map_keys m) → NoDup (Map_keys (Map_set k v m)).
Proof.
  unfold Map_keys. induction m as [|[k0 v0] m IH]; cbn.
  - intros _. apply NoDup_singleton.
  - intros [Hk0 Hm]%NoDup_cons. destruct (decide (k0 = k)) as [->|Hne]; cbn.
    + by apply NoDup_cons.
    + apply NoDup_cons. split; [|by apply IH].
      intros Hin. apply (Map_keys_set k v m k0) in Hin as [?|?]; done.
Qed.

(** ** The registries across a run *)

Lemma transformStatement_registered {payload} (parser : Sql.Parser payload)
    (config : Sql.Config) (this : Sql.SqlProcessor payload)
    (statement : string) :
  registered this →
  registered (Sql.transformStatement parser config this statement).1.
Proof.
  intros (Hnd & Hdom & Hsets). unfold Sql.transformStatement.
  destruct (Sql.astify parser statement) as [ast|m]; [|done].
  destruct (String.eqb _ _); [|done].
  destruct (Sql.table ast) as [name|]; [|done].
  set (ast' := {| Sql.ast_type := _ |}).
  set (this1 := {| Sql.tables := _ |}).
  assert (registered this1) as Hreg1.
  { split_and!; cbn [this1 Sql.tables Sql.dependencies].
    - by apply Map_set_NoDup.
    - intros k Hk. apply Map_keys_set. right. by apply Hdom.
    - done. }
  destruct (Sql.extractDependencies this1 name ast') as [this2|m] eqn:E;
    [|done].
  cbn [fst].
  destruct (extractDependencies_frame _ _ _ _ E)
    as (Htab & Hother & deps & Hd & Hnd2).
  destruct Hreg1 as (Hnd1 & Hdom1 & Hsets1).
  split_and!; rewrite ?Htab.
  - done.
  - intros k Hk. destruct (decide (k = name)) as [->|Hne].
    + cbn [this1 Sql.tables]. apply Map_keys_set. by left.
    + rewrite Hother in Hk by done. by apply Hdom1.
  - intros k ds Hk. destruct (decide (k = name)) as [->|Hne].
    + rewrite Hd in Hk. by injection Hk as <-.
    + rewrite Hother in Hk by done. by eapply Hsets1.
Qed.

(** The loop keeps the registries well formed: no table is registered
    twice, dependencies are recorded for registered tables only, and no
    dependency set holds a table twice. *)
Theorem transformLoop_registered {payload} (parser : Sql.Parser payload)
    (config : Sql.Config) (this : Sql.SqlProcessor payload)
    (statements : list string) :
  registered this →
  registered (Sql.this_ (Sql.transformLoop parser config this statements)).
Proof.
  unfold Sql.transformLoop.
  change this with
    (Sql.this_ {| Sql.this_ := this; Sql.transformed := [];
                  Sql.warnings := [] |}) at 1.
  generalize {| Sql.this_ := this; Sql.transformed := [];
                Sql.warnings := [] |}.
  induction statements as [|s statements IH]; intros t Ht; [done|].
  cbn [foldl]. apply IH. rewrite transformStep_this.
  by apply transformStatement_registered.
Qed.

Lemma new_SqlProcessor_registered payload :
  registered (Sql.new_SqlProcessor payload).
Proof.
  split_and!; cbn.
  - apply NoDup_nil_2.
  - intros k [? Hk]. by rewrite lookup_empty in Hk.
  - intros k deps Hk. by rewrite lookup_empty in Hk.
Qed.

Lemma transformLoop_registered_witness :
  registered
    (Sql.this_
       (Sql.transformLoop Scenario.parser (Scenario.mergeConfig None)
          (Sql.new_SqlProcessor unit)
          ["CREATE TABLE customers (id INT);";
           "CREATE TABLE customers (id INT);"])).
Proof.
  apply transformLoop_registered, new_SqlProcessor_registered.
Defined.

(** ** What transformStatements returns *)

(** Without merging, the result has one element for each statement, in
    the order of the statements: the text the parser printed, or the
    statement itself when something threw. *)
Theorem transformStatements_one_for_one {payload}
    (parser : Sql.Parser payload) (config : Sql.Config)
    (this : Sql.SqlProcessor payload) (statements : list string)
    (fuel : nat) :
  Sql.mergeSql config = false →
  ∃ out,
    (Sql.transformStatements fuel parser config this statements).2 = Some out ∧
    List.length out = List.length statements ∧
    ∀ i statement, statements !! i = Some statement →
      out !! i = Some statement ∨
      ∃ ast text, Sql.sqlify parser ast = Ok text ∧ out !! i = Some text.
Proof.
  intros Hmerge. unfold Sql.transformStatements. rewrite Hmerge. cbn [snd].
  eexists. split; [done|]. unfold Sql.transformLoop.
  destruct (foldl_transformStep_transformed parser config statements
              {| Sql.this_ := this; Sql.transformed := [];
                 Sql.warnings := [] |}) as (l & Hl & Hlen & Hall).
  cbn [Sql.transformed] in Hl. rewrite app_nil_l in Hl. rewrite Hl.
  split; [done|]. intros i statement Hi.
  destruct (Hall i statement Hi) as [this0 H0]. rewrite H0.
  unfold Sql.transformStatement.
  destruct (Sql.astify parser statement) as [ast|m]; [|by left].
  destruct (String.eqb _ _).
  - destruct (Sql.table ast) as [name|]; [|by left].
    destruct (Sql.extractDependencies _ _ _); [|by left]. cbn [snd].
    destruct (Sql.sqlify parser _) as [text|] eqn:Hs; [|by left].
    right. by eexists _, text.
  - cbn [snd]. destruct (Sql.sqlify parser ast) as [text|] eqn:Hs; [|by left].
    right. by exists ast, text.
Qed.

Lemma transformStatements_one_for_one_witness :
  ∃ out,
    (Sql.transformStatements 0 Scenario.parser Scenario.plainConfig
       (Sql.new_SqlProcessor unit)
       [Scenario.brokenStatement; "CREATE TABLE customers (id INT);"]).2
      = Some out ∧
    List.length out = 2.
Proof.
  destruct (transformStatements_one_for_one Scenario.parser
              Scenario.plainConfig (Sql.new_SqlProcessor unit)
              [Scenario.brokenStatement; "CREATE TABLE customers (id INT);"]
              0 eq_refl) as (out & Hout & Hlen & _).
  exists out. split; [exact Hout|exact Hlen].
Defined.

(** The merged output: table definitions found among the statements,
    then every statement that does not start with CREATE TABLE, in the
    order they had. *)
Theorem orderByDependencies_shape {payload} (fuel : nat)
    (this : Sql.SqlProcessor payload) (statements out : list string) :
  Sql.orderByDependencies fuel this statements = Some out →
  ∃ definitions,
    out = definitions ++
          filter (λ stmt, Sql.isCreateTable stmt = false) statements ∧
    ∀ s, s ∈ definitions →
      s ∈ statements ∧
      ∃ n, mentioned this n ∧
           JsString.includes s (Sql.createTablePattern n) = true.
Proof.
  intros H. pose proof H as (o & _ & Hinv & _ & ->)%orderByDependencies_Some.
  exists (Sql.ordered o). split; [done|]. intros s Hs.
  destruct (orderByDependencies_origin fuel this statements _ s H)
    as [[Hin Hct]|(n & Hn & Hin & Hinc)].
  { apply elem_of_app. by left. }
  - destruct (inv_justified _ _ _ _ Hinv s Hs) as (n & Hn & Hf).
    split; [done|]. exists n. split; [by apply (inv_origin _ _ _ _ Hinv)|].
    unfold Sql.findStatement in Hf. by apply find_some in Hf as [_ ?].
  - split; [done|]. by exists n.
Qed.

Lemma orderByDependencies_shape_witness :
  ∃ definitions,
    [Scenario.customersStatement; Scenario.ordersStatement] =
      definitions ++
      filter (λ stmt, Sql.isCreateTable stmt = false)
        [Scenario.ordersStatement; Scenario.customersStatement] ∧
    ∀ s, s ∈ definitions →
      s ∈ [Scenario.ordersStatement; Scenario.customersStatement].
Proof.
  destruct (orderByDependencies_shape 2 Scenario.ordersCustomers
              [Scenario.ordersStatement; Scenario.customersStatement]
              [Scenario.customersStatement; Scenario.ordersStatement]
              eq_refl) as (definitions & Heq & Hall).
  exists definitions. split; [exact Heq|]. intros s Hs. by apply Hall.
Defined.

(** ** When the merger returns *)

Lemma reach_Acc (D : gmap string (list string)) (k : string) :
  (∀ t, rtc (dependsOn D) k t → ¬ tc (dependsOn D) t t) →
  Acc (λ d t, dependsOn D t d) k.
Proof.
  intros Hac.
  assert (∀ n (P : gset string) t,
            size (dom D ∖ P) ≤ n → rtc (dependsOn D) k t →
            (∀ p, p ∈ P → tc (dependsOn D) p t) →
            Acc (λ d t, dependsOn D t d) t) as Haux.
  { induction n as [|n IH]; intros P t Hsize Hreach Hpath;
      constructor; intros d Hd.
    - exfalso.
      assert (t ∈ dom D ∖ P) as Ht.
      { apply elem_of_difference. split.
        - apply elem_of_dom. unfold dependsOn in Hd.
          destruct (D !! t); [by eexists|]. by apply elem_of_nil in Hd.
        - intros Hp. by apply (Hac t Hreach), Hpath. }
      assert (size (dom D ∖ P) = 0) as Hs by lia.
      apply size_empty_iff in Hs. set_solver.
    - apply (IH ({[t]} ∪ P)).
      + assert (t ∈ dom D) as HtD.
        { apply elem_of_dom. unfold dependsOn in Hd.
          destruct (D !! t); [by eexists|]. by apply elem_of_nil in Hd. }
        assert (t ∉ P) as HtP.
        { intros Hp. by apply (Hac t Hreach), Hpath. }
        assert (dom D ∖ ({[t]} ∪ P) ⊂ dom D ∖ P) as Hsub by set_solver.
        apply subset_size in Hsub. lia.
      + by eapply rtc_r.
      + intros p [->%elem_of_singleton|Hp]%elem_of_union.
        * by apply tc_once.
        * eapply tc_r; [by apply Hpath|done]. }
  apply (Haux (size (dom D)) ∅ k).
  - apply subseteq_size. set_solver.
  - done.
  - set_solver.
Qed.

(** The merger returns exactly when no registered table reaches a cycle
    of dependencies. *)
Theorem orderByDependencies_returns_iff {payload}
    (this : Sql.SqlProcessor payload) (statements : list string) :
  (∃ fuel out, Sql.orderByDependencies fuel this statements = Some out) ↔
  (∀ k t, k ∈ Map_keys (Sql.tables this) →
          rtc (dependsOn (Sql.dependencies this)) k t →
          ¬ tc (dependsOn (Sql.dependencies this)) t t).
Proof.
  split.
  - intros (fuel & out & H) k t Hk Hreach Hcyc.
    by rewrite (orderByDependencies_cycle this statements k t Hk Hreach Hcyc)
      in H.
  - intros Hno.
    assert (∃ f, ∀ n, n ∈ Map_keys (Sql.tables this) →
              ∀ o, is_Some (Sql.visit (Sql.dependencies this) statements f n o))
      as [f Hf].
    { assert (∀ k, k ∈ Map_keys (Sql.tables this) →
                Acc (λ d t, dependsOn (Sql.dependencies this) t d) k) as Hacc.
      { intros k Hk. apply reach_Acc. intros t. by apply Hno. }
      clear Hno. revert Hacc. generalize (Map_keys (Sql.tables this)).
      intros keys. induction keys as [|k ks IH]; intros Hacc.
      - exists 0. intros n Hn. by apply elem_of_nil in Hn.
      - destruct IH as [f1 Hf1].
        { intros k' Hk'. apply Hacc. by right. }
        destruct (visit_returns (Sql.dependencies this) statements k)
          as [f2 Hf2].
        { apply Hacc. by left. }
        exists (f1 `max` f2). intros n [->|Hn]%elem_of_cons o.
        + destruct (Hf2 o) as [o' Ho'].
          exists o'. eapply visit_mono; [done|lia].
        + destruct (Hf1 n Hn o) as [o' Ho'].
          exists o'. eapply visit_mono; [done|lia]. }
    destruct (visitAll_returns _ _ f _ Hf
                {| Sql.visited := ∅; Sql.ordered := [] |}) as [o Ho].
    exists f. eexists. unfold Sql.orderByDependencies. by rewrite Ho.
Qed.

(** * Further properties of the type inference *)

(** The inference returns exactly when every value it does not skip lies
    in a column of the first record or under a name that every object
    inherits (constructor, toString and the like); the mapping then has
    the columns of the first record, no more and no less. *)
Theorem inferColumnTypes_returns_iff (h : Js.Host)
    (firstRow : Js.record (Js.number h))
    (rest : list (Js.record (Js.number h))) :
  let tracked :=
    ∀ r column v, r ∈ firstRow :: rest → (column, v) ∈ r →
                  Js.isNullOrEmpty v = false →
                  column ∈ firstRow.*1 ∨ Js.inherited column = true in
  ((∃ m, Csv.inferColumnTypes h (firstRow :: rest) = Ok m) ↔ tracked) ∧
  ((∃ m, Json.inferColumnTypes h (firstRow :: rest) = Ok m) ↔ tracked) ∧
  (∀ m, Csv.inferColumnTypes h (firstRow :: rest) = Ok m →
        ∀ c, c ∈ dom m ↔ c ∈ firstRow.*1) ∧
  (∀ m, Json.inferColumnTypes h (firstRow :: rest) = Ok m →
        ∀ c, c ∈ dom m ↔ c ∈ firstRow.*1).
Proof.
  intros tracked. split_and!.
  - split; [|apply csv_inferColumnTypes_returns_inherited].
    intros [m Hm] r column v Hr Hin Hv.
    destruct (decide (column ∈ firstRow.*1)) as [|Hno]; [by left|].
    destruct (Js.inherited column) eqn:Hi; [by right|].
    destruct (csv_inferColumnTypes_throws h firstRow rest r column v
                Hr Hin Hv Hno Hi) as [msg Hmsg].
    destruct (eq_ind (Ok m) (λ o, if o is Ok _ then True else False) I _
                (eq_trans (eq_sym Hm) Hmsg)).
  - split; [|apply json_inferColumnTypes_returns_inherited].
    intros [m Hm] r column v Hr Hin Hv.
    destruct (decide (column ∈ firstRow.*1)) as [|Hno]; [by left|].
    destruct (Js.inherited column) eqn:Hi; [by right|].
    destruct (json_inferColumnTypes_throws h firstRow rest r column v
                Hr Hin Hv Hno Hi) as [msg Hmsg].
    destruct (eq_ind (Ok m) (λ o, if o is Ok _ then True else False) I _
                (eq_trans (eq_sym Hm) Hmsg)).
  - intros m Hm c. rewrite elem_of_dom. split.
    + intros [t Ht].
      destruct (csv_inferColumnTypes_lookup h _ m c t Hm Ht)
        as [(f & r & [= <- <-] & Hc) _]. done.
    + intros Hc.
      destruct (csv_inferColumnTypes_resolves h _ _ m c Hm Hc) as (t & -> & _).
      by eexists.
  - intros m Hm c. rewrite elem_of_dom. split.
    + intros [t Ht].
      destruct (json_inferColumnTypes_lookup h _ m c t Hm Ht)
        as [(f & r & [= <- <-] & Hc) _]. done.
    + intros Hc.
      destruct (json_inferColumnTypes_resolves h _ _ m c Hm Hc) as (t & -> & _).
      by eexists.
Qed.

(** [{a: "1"}, {constructor: "x"}]: the entry under the inherited name
    is passed over, and the mapping has the column of the first record
    alone. *)
Example inheritedColumn_returns (h : Js.Host) :
  ∃ m, Csv.inferColumnTypes h Scenario.inheritedColumn = Ok m ∧
       Json.inferColumnTypes h Scenario.inheritedColumn =
         Ok (Json.determineType <$>
               <["a" := Json.analyzeValue h Json.initialTracking (Js.Str "1")]>
                 ∅) ∧
       m = Csv.determineType <$>
             <["a" := Csv.analyzeValue h Csv.initialTracking (Js.Str "1")]> ∅.
Proof. eexists. split; [reflexivity|]. split; reflexivity. Qed.

(** A column in which nothing was observed keeps the date flag it started
    with: it resolves to DATETIME. *)
Theorem unobserved_column_is_DATETIME (h : Js.Host)
    (records : list (Js.record (Js.number h))) (c : string) :
  columnValues c records = [] →
  (∀ m t, Csv.inferColumnTypes h records = Ok m → m !! c = Some t →
          Csv.type t = Some "DATETIME") ∧
  (∀ m t, Json.inferColumnTypes h records = Ok m → m !! c = Some t →
          Json.type t = Some "DATETIME").
Proof.
  intros Hnone. split; intros m t Hm Ht.
  - destruct (csv_inferColumnTypes_lookup h _ m c t Hm Ht) as [_ ->].
    by rewrite Hnone.
  - destruct (json_inferColumnTypes_lookup h _ m c t Hm Ht) as [_ ->].
    by rewrite Hnone.
Qed.

Lemma unobserved_column_witness :
  ∃ m t,
    Csv.inferColumnTypes Node.host
      [ [("age", Js.Str ""); ("name", Js.Str "Ann")];
        [("age", Js.Null); ("name", Js.Str "Bob")] ] = Ok m ∧
    m !! "age" = Some t ∧ Csv.type t = Some "DATETIME".
Proof.
  destruct (csv_inferColumnTypes_returns Node.host
              [("age", Js.Str ""); ("name", Js.Str "Ann")]
              [ [("age", Js.Null); ("name", Js.Str "Bob")] ]) as [m Hm].
  { intros r column v Hr Hin _.
    repeat (apply elem_of_cons in Hr as [->|Hr]);
      repeat (apply elem_of_cons in Hin as [[= -> ->]|Hin]);
      try (by apply elem_of_nil in Hin); try (by apply elem_of_nil in Hr).
    all: set_solver. }
  destruct (csv_inferColumnTypes_resolves Node.host _ _ m "age" Hm)
    as (t & Ht & _); [by left|].
  exists m, t. split; [exact Hm|]. split; [exact Ht|].
  exact (proj1 (unobserved_column_is_DATETIME Node.host
                  [ [("age", Js.Str ""); ("name", Js.Str "Ann")];
                    [("age", Js.Null); ("name", Js.Str "Bob")] ]
                  "age" eq_refl) m t Hm Ht).
Defined.

(** ** The order of the records *)

Lemma columnValues_Permutation {number} (c : string)
    (records records' : list (Js.record number)) :
  records ≡ₚ records' → columnValues c records ≡ₚ columnValues c records'.
Proof.
  unfold columnValues. induction 1 as [|r l l' _ IH|r r' l|l l' l'' _ IH _ IH'].
  - done.
  - rewrite !bind_cons. by rewrite IH.
  - rewrite !bind_cons, !app_assoc. f_equiv. apply Permutation_app_comm.
  - by etrans.
Qed.

Lemma existsb_Permutation {A} (f : A → bool) l l' :
  l ≡ₚ l' → existsb f l = existsb f l'.
Proof.
  induction 1 as [|x l l' _ IH|x y l|l l' l'' _ IH _ IH']; cbn.
  - done.
  - by rewrite IH.
  - by destruct (f x), (f y).
  - by etrans.
Qed.

Lemma forallb_Permutation {A} (f : A → bool) l l' :
  l ≡ₚ l' → forallb f l = forallb f l'.
Proof.
  induction 1 as [|x l l' _ IH|x y l|l l' l'' _ IH _ IH']; cbn.
  - done.
  - by rewrite IH.
  - by destruct (f x), (f y).
  - by etrans.
Qed.

Lemma maxStringLength_Permutation h l l' :
  l ≡ₚ l' → maxStringLength h l = maxStringLength h l'.
Proof.
  unfold maxStringLength.
  induction 1 as [|x l l' _ IH|x y l|l l' l'' _ IH _ IH']; cbn.
  - done.
  - by rewrite IH.
  - lia.
  - by etrans.
Qed.

Lemma csvProfile_Permutation h l l' :
  l ≡ₚ l' → csvProfile h l = csvProfile h l'.
Proof.
  intros Hp. unfold csvProfile.
  by rewrite (maxStringLength_Permutation h _ _ Hp),
    !(existsb_Permutation _ _ _ Hp), (forallb_Permutation _ _ _ Hp).
Qed.

Lemma jsonProfile_Permutation h l l' :
  l ≡ₚ l' → jsonProfile h l = jsonProfile h l'.
Proof.
  intros Hp. unfold jsonProfile.
  by rewrite (maxStringLength_Permutation h _ _ Hp),
    !(existsb_Permutation _ _ _ Hp), (forallb_Permutation _ _ _ Hp).
Qed.

(** The type of a column does not depend on the order of the records. *)
Theorem record_order_irrelevant (h : Js.Host)
    (records records' : list (Js.record (Js.number h))) (c : string) :
  records ≡ₚ records' →
  (∀ m m' t t',
     Csv.inferColumnTypes h records = Ok m →
     Csv.inferColumnTypes h records' = Ok m' →
     m !! c = Some t → m' !! c = Some t' → Csv.type t = Csv.type t') ∧
  (∀ m m' t t',
     Json.inferColumnTypes h records = Ok m →
     Json.inferColumnTypes h records' = Ok m' →
     m !! c = Some t → m' !! c = Some t' → Json.type t = Json.type t').
Proof.
  intros Hp%(columnValues_Permutation c).
  split; intros m m' t t' Hm Hm' Ht Ht'.
  - destruct (csv_inferColumnTypes_lookup h _ _ _ _ Hm Ht) as [_ ->].
    destruct (csv_inferColumnTypes_lookup h _ _ _ _ Hm' Ht') as [_ ->].
    rewrite !csv_determineType_precedence.
    by rewrite (csvProfile_Permutation h _ _ Hp).
  - destruct (json_inferColumnTypes_lookup h _ _ _ _ Hm Ht) as [_ ->].
    destruct (json_inferColumnTypes_lookup h _ _ _ _ Hm' Ht') as [_ ->].
    rewrite !json_determineType_precedence.
    by rewrite (jsonProfile_Permutation h _ _ Hp).
Qed.

Lemma record_order_witness :
  ∃ m m' t t',
    Csv.inferColumnTypes Node.host
      [ [("age", Js.Str "7")]; [("age", Js.Str "13")] ] = Ok m ∧
    Csv.inferColumnTypes Node.host
      [ [("age", Js.Str "13")]; [("age", Js.Str "7")] ] = Ok m' ∧
    m !! "age" = Some t ∧ m' !! "age" = Some t' ∧
    Csv.type t = Csv.type t'.
Proof.
  destruct (csv_inferColumnTypes_returns Node.host [("age", Js.Str "7")]
              [ [("age", Js.Str "13")] ]) as [m Hm].
  { intros r column v Hr Hin _.
    repeat (apply elem_of_cons in Hr as [->|Hr]);
      try (apply list_elem_of_singleton in Hin as [= -> ->]; by left).
    by apply elem_of_nil in Hr. }
  destruct (csv_inferColumnTypes_returns Node.host [("age", Js.Str "13")]
              [ [("age", Js.Str "7")] ]) as [m' Hm'].
  { intros r column v Hr Hin _.
    repeat (apply elem_of_cons in Hr as [->|Hr]);
      try (apply list_elem_of_singleton in Hin as [= -> ->]; by left).
    by apply elem_of_nil in Hr. }
  destruct (csv_inferColumnTypes_resolves Node.host _ _ m "age" Hm)
    as (t & Ht & _); [by left|].
  destruct (csv_inferColumnTypes_resolves Node.host _ _ m' "age" Hm')
    as (t' & Ht' & _); [by left|].
  exists m, m', t, t'. split_and!; try done.
  exact (proj1 (record_order_irrelevant Node.host
                  [ [("age", Js.Str "7")]; [("age", Js.Str "13")] ]
                  [ [("age", Js.Str "13")]; [("age", Js.Str "7")] ] "age"
                  (Permutation_swap _ _ [])) m m' t t' Hm Hm' Ht Ht').
Defined.

(** ** The date flag *)

(** In the CSV processor a column resolves to DATETIME exactly when the
    Date constructor accepts every observed value: one rejected value
    rules the type out, whatever comes before or after it. *)
Theorem csv_DATETIME_iff (h : Js.Host)
    (records : list (Js.record (Js.number h))) (c : string) m t :
  Csv.inferColumnTypes h records = Ok m → m !! c = Some t →
  Csv.type t = Some "DATETIME" ↔
  ∀ v, v ∈ columnValues c records → Js.dateIsInvalid h v = false.
Proof.
  intros Hm Ht.
  destruct (csv_inferColumnTypes_lookup h _ m c t Hm Ht) as [_ ->].
  rewrite csv_determineType_precedence. unfold precedence, csvProfile.
  cbn [p_isStructured p_isDate p_containsNonNumeric p_containsDecimal
       p_maxLength].
  destruct (forallb _ _) eqn:Hall.
  - split; [|done]. intros _ v Hv.
    rewrite forallb_forall in Hall. apply list_elem_of_In in Hv.
    specialize (Hall v Hv). by destruct (Js.dateIsInvalid h v).
  - split.
    + intros [= Hd]. apply (f_equal (String.get 3)) in Hd. revert Hd.
      unfold integerWidth.
      destruct (existsb (λ v, negb (isNumeric h v)) _); cbn [negb].
      * by destruct (_ <=? 255).
      * destruct (existsb (isDecimal h) _); [done|].
        by repeat destruct (_ <=? _).
    + intros Hvalid. exfalso.
      assert (forallb (λ v, negb (Js.dateIsInvalid h v))
                (columnValues c records) = true) as Htrue; [|congruence].
      apply forallb_forall. intros v Hv%list_elem_of_In.
      by rewrite (Hvalid v Hv).
Qed.

Lemma csv_DATETIME_witness :
  ∃ m t,
    Csv.inferColumnTypes Node.host
      [ [("age", Js.Str "7")]; [("age", Js.Str "13")]; [("age", Js.Str "9")] ]
      = Ok m ∧
    m !! "age" = Some t ∧ Csv.type t ≠ Some "DATETIME".
Proof.
  destruct (csv_inferColumnTypes_returns Node.host [("age", Js.Str "7")]
              [ [("age", Js.Str "13")]; [("age", Js.Str "9")] ]) as [m Hm].
  { intros r column v Hr Hin _.
    repeat (apply elem_of_cons in Hr as [->|Hr]);
      try (apply list_elem_of_singleton in Hin as [= -> ->]; by left).
    by apply elem_of_nil in Hr. }
  destruct (csv_inferColumnTypes_resolves Node.host _ _ m "age" Hm)
    as (t & Ht & _); [by left|].
  exists m, t. split; [exact Hm|]. split; [exact Ht|].
  intros Hd.
  pose proof (proj1 (csv_DATETIME_iff Node.host _ "age" m t Hm Ht) Hd
                (Js.Str "13")) as H13.
  assert (Js.dateIsInvalid Node.host (Js.Str "13") = false) as Habs.
  { apply H13. right. by left. }
  discriminate Habs.
Defined.

(** ** Booleans in a JSON document *)

(** In the JSON processor a column in which a boolean was observed
    resolves to JSON: the string form of a boolean parses as JSON. *)
Theorem boolean_column_is_JSON (h : Js.Host)
    (records : list (Js.record (Js.number h))) (c : string) m t (b : bool) :
  Json.inferColumnTypes h records = Ok m → m !! c = Some t →
  Js.Bool b ∈ columnValues c records →
  Json.type t = Some "JSON".
Proof.
  intros Hm Ht Hb.
  destruct (json_inferColumnTypes_lookup h _ m c t Hm Ht) as [_ ->].
  rewrite json_determineType_precedence. unfold precedence, jsonProfile.
  cbn [p_isStructured].
  assert (existsb (isStructured h) (columnValues c records) = true) as ->;
    [|done].
  apply existsb_exists. exists (Js.Bool b).
  split; [by apply list_elem_of_In|]. by destruct b.
Qed.

Lemma boolean_column_witness :
  ∃ m t,
    Json.inferColumnTypes Node.host
      [ [("active", Js.Bool true)]; [("active", Js.Bool false)] ] = Ok m ∧
    m !! "active" = Some t ∧ Json.type t = Some "JSON".
Proof.
  destruct (json_inferColumnTypes_returns Node.host [("active", Js.Bool true)]
              [ [("active", Js.Bool false)] ]) as [m Hm].
  { intros r column v Hr Hin _.
    repeat (apply elem_of_cons in Hr as [->|Hr]);
      try (apply list_elem_of_singleton in Hin as [= -> ->]; by left).
    by apply elem_of_nil in Hr. }
  destruct (json_inferColumnTypes_resolves Node.host _ _ m "active" Hm)
    as (t & Ht & _); [by left|].
  exists m, t. split; [exact Hm|]. split; [exact Ht|].
  apply (boolean_column_is_JSON Node.host _ "active" m t true Hm Ht).
  by left.
Defined.

(** * Records out of a JSON document *)

(** ** Objects *)

Lemma Object_get_None {V} k (o : list (string * V)) :
  Object_get k o = None ↔ k ∉ o.*1.
Proof.
  induction o as [|[k0 v0] o IH]; cbn.
  - split; [intros _ ?%elem_of_nil|]; done.
  - destruct (decide (k0 = k)) as [->|Hne].
    + split; [done|]. intros H. exfalso. apply H. by left.
    + rewrite IH. split.
      * intros H [?|?]%elem_of_cons; [congruence|done].
      * intros H ?. apply H. by right.
Qed.

Lemma Object_get_app {V} k (o o' : list (string * V)) :
  Object_get k (o ++ o') = from_option Some (Object_get k o') (Object_get k o).
Proof.
  induction o as [|[k0 v0] o IH]; cbn; [done|].
  by destruct (decide (k0 = k)).
Qed.

Lemma Object_get_Map_set {V} k k' (v : V) o :
  Object_get k (Map_set k' v o) =
  if decide (k' = k) then Some v else Object_get k o.
Proof.
  induction o as [|[k0 v0] o IH]; cbn.
  - by destruct (decide (k' = k)).
  - destruct (decide (k0 = k')) as [->|Hne]; cbn.
    + by destruct (decide (k' = k)).
    + destruct (decide (k0 = k)) as [->|Hne'].
      * by rewrite decide_False by done.
      * apply IH.
Qed.

Lemma Object_insert_keys {V} k (v : V) o :
  (Object_insert k v o).*1 ≡ₚ k :: o.*1.
Proof.
  induction o as [|[k0 v0] o IH]; cbn; [done|].
  destruct (keyBefore k k0); cbn; [done|].
  rewrite IH. apply Permutation_swap.
Qed.

Lemma Object_get_insert {V} k k' (v : V) o :
  k' ∉ o.*1 →
  Object_get k (Object_insert k' v o) =
  if decide (k' = k) then Some v else Object_get k o.
Proof.
  induction o as [|[k0 v0] o IH]; cbn; intros Hk'.
  - by destruct (decide (k' = k)).
  - apply not_elem_of_cons in Hk' as [Hne Hk'].
    destruct (keyBefore k' k0); cbn.
    + by destruct (decide (k' = k)).
    + destruct (decide (k0 = k)) as [->|Hne'].
      * by rewrite decide_False by done.
      * by apply IH.
Qed.

Lemma Object_get_set {V} k k' (v : V) o :
  Object_get k (Object_set k' v o) =
  if decide (k' = k) then Some v else Object_get k o.
Proof.
  unfold Object_set. destruct (decide (k' ∈ o.*1)).
  - apply Object_get_Map_set.
  - by apply Object_get_insert.
Qed.

Lemma Object_set_NoDup {V} k (v : V) o :
  NoDup o.*1 → NoDup (Object_set k v o).*1.
Proof.
  intros Hnd. unfold Object_set. destruct (decide (k ∈ o.*1)) as [Hin|Hnin].
  - by apply Map_set_NoDup.
  - rewrite Object_insert_keys. by apply NoDup_cons.
Qed.

Lemma setProperty_NoDup {V} k (v : V) o :
  NoDup o.*1 → NoDup (setProperty k v o).*1.
Proof.
  intros Hnd. unfold setProperty. destruct (String.eqb k "__proto__"); [done|].
  by apply Object_set_NoDup.
Qed.

Lemma Object_assign_NoDup {V} (source target : list (string * V)) :
  NoDup target.*1 → NoDup (Object_assign target source).*1.
Proof.
  unfold Object_assign. revert target.
  induction source as [|[k v] source IH]; intros target Hnd; [done|].
  cbn [foldl]. by apply IH, Object_set_NoDup.
Qed.

Lemma Object_get_assign {V} k (source target : list (string * V)) :
  NoDup source.*1 →
  Object_get k (Object_assign target source) =
  from_option Some (Object_get k target) (Object_get k source).
Proof.
  unfold Object_assign. revert target.
  induction source as [|[k0 v0] source IH]; intros target Hnd; [done|].
  cbn in Hnd. apply NoDup_cons in Hnd as [Hk0 Hnd].
  cbn [foldl]. rewrite IH by done. cbn [fst snd Object_get].
  rewrite Object_get_set. destruct (decide (k0 = k)) as [->|Hne]; [|done].
  by rewrite (proj2 (Object_get_None k source) Hk0).
Qed.

Lemma lastWritten_app {V} k (l l' : list (string * V)) :
  lastWritten k (l ++ l') =
  from_option Some (lastWritten k l) (lastWritten k l').
Proof.
  unfold lastWritten. destruct (String.eqb k "__proto__"); [done|].
  by rewrite reverse_app, Object_get_app.
Qed.

Lemma Object_get_setProperty {V} k k' (v : V) o :
  Object_get k (setProperty k' v o) =
  from_option Some (Object_get k o) (lastWritten k [(k', v)]).
Proof.
  unfold setProperty, lastWritten. cbn.
  destruct (String.eqb_spec k' "__proto__") as [->|Hk'].
  - destruct (String.eqb_spec k "__proto__") as [->|Hk]; [done|].
    by rewrite decide_False by done.
  - rewrite Object_get_set.
    destruct (String.eqb_spec k "__proto__") as [->|Hk].
    + by rewrite decide_False by done.
    + by destruct (decide (k' = k)).
Qed.

(** ** flattenObject *)

Section Flatten.
Import Js JsonRecords.
Context {number : Type} (stringify : json number → string).

Lemma flattenValue_object key entries (acc : record number) :
  flattenValue stringify key (JObject entries) acc =
  Object_assign acc (flattenEntries stringify key entries []).
Proof.
  cbn [flattenValue]. f_equal. unfold flattenEntries.
  generalize (@nil (string * value number)).
  induction entries as [|[k v] entries IH]; intros sub; [done|].
  cbn [foldl fst snd]. apply IH.
Qed.

Lemma leavesOf_object key entries :
  leavesOf stringify key (JObject entries) = leaves stringify key entries.
Proof.
  cbn [leavesOf]. unfold leaves.
  induction entries as [|[k v] entries IH]; [done|].
  rewrite bind_cons. cbn [fst snd]. by rewrite IH.
Qed.

Lemma flattenValue_NoDup key v (acc : record number) :
  NoDup acc.*1 → NoDup (flattenValue stringify key v acc).*1.
Proof.
  intros Hnd. destruct v; cbn [flattenValue];
    try (by apply setProperty_NoDup).
  by apply Object_assign_NoDup.
Qed.

Lemma flattenEntries_NoDup prefix entries : ∀ acc : record number,
  NoDup acc.*1 → NoDup (flattenEntries stringify prefix entries acc).*1.
Proof.
  unfold flattenEntries.
  induction entries as [|[k v] entries IH]; intros acc Hnd; [done|].
  cbn [foldl]. by apply IH, flattenValue_NoDup.
Qed.

Lemma jsonSize_entry k v (entries : list (string * json number)) :
  (k, v) ∈ entries → jsonSize v < jsonSize (JObject entries).
Proof.
  cbn [jsonSize]. induction entries as [|[k0 v0] entries IH].
  - by intros ?%elem_of_nil.
  - intros [[= <- <-]|Hin]%elem_of_cons; cbn [foldr snd]; [lia|].
    specialize (IH Hin). lia.
Qed.

Lemma flattenEntries_lookup_from entries :
  (∀ k0 v0, (k0, v0) ∈ entries → ∀ key acc k,
     Object_get k (flattenValue stringify key v0 acc) =
     from_option Some (Object_get k acc)
       (lastWritten k (leavesOf stringify key v0))) →
  ∀ prefix acc k,
    Object_get k (flattenEntries stringify prefix entries acc) =
    from_option Some (Object_get k acc)
      (lastWritten k (leaves stringify prefix entries)).
Proof.
  unfold flattenEntries, leaves.
  induction entries as [|[k0 v0] entries IH]; intros Hv prefix acc k.
  - unfold lastWritten. cbn. by destruct (String.eqb k "__proto__").
  - cbn [foldl fst snd]. rewrite bind_cons, lastWritten_app. cbn [fst snd].
    rewrite IH by (intros k1 v1 ?; apply (Hv k1 v1); by right).
    rewrite (Hv k0 v0) by (by left).
    by destruct (lastWritten k (_ ≫= _)), (lastWritten k (leavesOf _ _ _)).
Qed.

Lemma flattenValue_lookup v : ∀ key (acc : record number) k,
  Object_get k (flattenValue stringify key v acc) =
  from_option Some (Object_get k acc)
    (lastWritten k (leavesOf stringify key v)).
Proof.
  remember (jsonSize v) as n eqn:Hn. revert v Hn.
  induction n as [n IH] using lt_wf_ind. intros v -> key acc k.
  destruct v as [| b | x | s | items | entries];
    try (cbn [flattenValue leavesOf]; apply Object_get_setProperty).
  rewrite flattenValue_object, leavesOf_object.
  rewrite Object_get_assign by (apply flattenEntries_NoDup, NoDup_nil_2).
  rewrite flattenEntries_lookup_from.
  - cbn [Object_get]. by destruct (lastWritten _ _).
  - intros k0 v0 Hin. apply (IH (jsonSize v0)); [|done].
    by apply (jsonSize_entry k0).
Qed.

Lemma flattenEntries_lookup prefix entries (acc : record number) k :
  Object_get k (flattenEntries stringify prefix entries acc) =
  from_option Some (Object_get k acc)
    (lastWritten k (leaves stringify prefix entries)).
Proof.
  apply flattenEntries_lookup_from. intros. apply flattenValue_lookup.
Qed.

End Flatten.

(** The record of an object: no key twice, and under each key the last
    leaf of the document whose path, joined by underscores, spells the
    key; a leaf whose path spells __proto__ is lost. *)
Theorem flattenObject_record {number}
    (stringify : JsonRecords.json number → string)
    (obj : JsonRecords.json number) (prefix : string)
    (entries : list (string * JsonRecords.json number)) :
  JsonRecords.ownEntries obj = Ok entries →
  ∃ r, JsonRecords.flattenObject stringify obj prefix = Ok r ∧
       NoDup r.*1 ∧
       ∀ k, Object_get k r =
            lastWritten k (JsonRecords.leaves stringify prefix entries).
Proof.
  intros Hown. unfold JsonRecords.flattenObject. rewrite Hown.
  eexists. split; [done|]. split.
  - apply flattenEntries_NoDup, NoDup_nil_2.
  - intros k. rewrite flattenEntries_lookup. cbn [Object_get].
    by destruct (lastWritten _ _).
Qed.

Lemma flattenObject_record_witness :
  ∃ r : Js.record N,
    JsonRecords.flattenObject (λ _, "[]")
      (JsonRecords.JObject
         [("a_b", JsonRecords.JNumber 1%N);
          ("a", JsonRecords.JObject [("b", JsonRecords.JNumber 2%N)]);
          ("__proto__", JsonRecords.JString "x")]) "" = Ok r ∧
    Object_get "a_b" r = Some (Js.Number 2%N) ∧
    Object_get "__proto__" r = None.
Proof.
  destruct (flattenObject_record (number := N) (λ _, "[]")
              (JsonRecords.JObject
                 [("a_b", JsonRecords.JNumber 1%N);
                  ("a", JsonRecords.JObject [("b", JsonRecords.JNumber 2%N)]);
                  ("__proto__", JsonRecords.JString "x")]) "" _ eq_refl)
    as (r & Hr & _ & Hget).
  exists r. split; [exact Hr|]. split; [exact (Hget "a_b")|].
  exact (Hget "__proto__").
Defined.

(** ** normalizeData *)


Lemma mapOutcome_returns {A B} (f : A → outcome B) l :
  (∀ x, x ∈ l → ∃ y, f x = Ok y) → ∃ ys, JsonRecords.mapOutcome f l = Ok ys.
Proof.
  induction l as [|x l IH]; intros Hall; cbn; [by eexists|].
  destruct (Hall x) as [y ->]; [by left|].
  destruct IH as [ys ->]; [|by eexists].
  intros x' Hx'. apply Hall. by right.
Qed.

Lemma mapOutcome_throws {A B} (f : A → outcome B) l message :
  (∀ x, x ∈ l → (∃ y, f x = Ok y) ∨ f x = Throw message) →
  (∃ x, x ∈ l ∧ f x = Throw message) →
  JsonRecords.mapOutcome f l = Throw message.
Proof.
  induction l as [|x l IH]; intros Hall (x0 & Hin & Hx0).
  - by apply elem_of_nil in Hin.
  - cbn. destruct (Hall x) as [[y Hy]| ->]; [by left| |done].
    rewrite Hy. rewrite IH; [done| |].
    + intros x' Hx'. apply Hall. by right.
    + apply elem_of_cons in Hin as [->|Hin]; [congruence|]. by exists x0.
Qed.

Lemma mapOutcome_Throw {A B} (f : A → outcome B) l message :
  JsonRecords.mapOutcome f l = Throw message →
  ∃ x, x ∈ l ∧ f x = Throw message.
Proof.
  induction l as [|x l IH]; cbn; [done|].
  destruct (f x) as [y|msg] eqn:Hx.
  - destruct (JsonRecords.mapOutcome f l) as [ys|msg]; [done|].
    intros [= ->]. destruct IH as (x' & Hin & Hx'); [done|].
    exists x'. split; [by right|done].
  - intros [= ->]. exists x. split; [by left|done].
Qed.

Lemma mapOutcome_map {A B} (f : A → outcome B) (g : A → B) l :
  (∀ x, x ∈ l → f x = Ok (g x)) → JsonRecords.mapOutcome f l = Ok (map g l).
Proof.
  induction l as [|x l IH]; intros Hall; cbn; [done|].
  rewrite (Hall x) by (by left). rewrite IH; [done|].
  intros x' Hx'. apply Hall. by right.
Qed.



(** * SQL output of the record processors *)

(** ** Quoting *)

(** Doubling the quotes loses nothing: read with two quotes as one, the
    text of a literal is the value again, and no quote of the value ends
    the literal. *)
Theorem escapeQuotes_round_trip (s : string) :
  SqlOutput.unescapeQuotes (SqlOutput.escapeQuotes s) = Some s.
Proof.
  induction s as [|c s IH]; [done|]. cbn [SqlOutput.escapeQuotes].
  destruct (Ascii.eqb_spec c "'") as [->|Hc].
  - cbn. by rewrite IH.
  - cbn [SqlOutput.unescapeQuotes].
    rewrite (proj2 (Ascii.eqb_neq c "'") Hc). by rewrite IH.
Qed.

(** ** The CSV processor after the inference *)

(** When the inference returned the mapping, the document is produced: the
    columns of the first record, each with the type the observed values
    resolve to and, whatever that type is, the character set and the
    collation of the target encoding; then one row for each record. *)
Theorem csvGenerateSqlOutput_after_inference (config : Sql.Config)
    (timestamp : string) (h : Js.Host)
    (firstRow : Js.record (Js.number h))
    (rest : list (Js.record (Js.number h))) m :
  Csv.inferColumnTypes h (firstRow :: rest) = Ok m →
  SqlOutput.csvGenerateSqlOutput config timestamp h (firstRow :: rest) m =
  Ok (SqlOutput.assemble config timestamp firstRow.*1
        (map (λ column,
           "  `" +:+ column +:+ "` " +:+
           precedence (csvProfile h (columnValues column (firstRow :: rest)))
           +:+ SqlOutput.encodingClause config) firstRow.*1)
        (map (SqlOutput.csvRow h firstRow.*1) (firstRow :: rest))).
Proof.
  intros Hm. unfold SqlOutput.csvGenerateSqlOutput. cbv zeta.
  rewrite (mapOutcome_map _
    (λ column,
       "  `" +:+ column +:+ "` " +:+
       precedence (csvProfile h (columnValues column (firstRow :: rest)))
       +:+ SqlOutput.encodingClause config)); [done|].
  intros column Hc. unfold SqlOutput.csvColumnDef.
  destruct (csv_inferColumnTypes_resolves h _ _ m column Hm Hc)
    as (t & -> & ->). done.
Qed.

Lemma csvGenerateSqlOutput_witness :
  ∃ m text,
    Csv.inferColumnTypes Node.host
      [ [("name", Js.Str "O'Neil")]; [("name", Js.Str "")] ] = Ok m ∧
    SqlOutput.csvGenerateSqlOutput Scenario.plainConfig "now" Node.host
      [ [("name", Js.Str "O'Neil")]; [("name", Js.Str "")] ] m = Ok text ∧
    JsString.includes text "('O''Neil')," = true.
Proof.
  destruct (csv_inferColumnTypes_returns Node.host [("name", Js.Str "O'Neil")]
              [ [("name", Js.Str "")] ]) as [m Hm].
  { intros r column v Hr Hin _.
    repeat (apply elem_of_cons in Hr as [->|Hr]);
      try (apply list_elem_of_singleton in Hin as [= -> ->]; by left).
    by apply elem_of_nil in Hr. }
  exists m. eexists. split; [exact Hm|].
  split;
    [exact (csvGenerateSqlOutput_after_inference Scenario.plainConfig "now"
              Node.host _ _ m Hm)|].
  reflexivity.
Defined.

(** ** The JSON processor after the inference *)

(** After the inference the output depends on the columns that resolved
    to JSON alone. A record without such a column stops it: serialising
    the missing value gives undefined, and calling replace on that is a
    TypeError. When every record has every such column, the document is
    produced. *)
Theorem jsonGenerateSqlOutput_after_inference (config : Sql.Config)
    (timestamp : string) (h : Js.Host)
    (stringify : Js.value (Js.number h) → string)
    (firstRow : Js.record (Js.number h))
    (rest : list (Js.record (Js.number h))) m :
  Json.inferColumnTypes h (firstRow :: rest) = Ok m →
  (∀ r column t,
     r ∈ firstRow :: rest → m !! column = Some t →
     Json.type t = Some "JSON" → Object_get column r = None →
     SqlOutput.jsonGenerateSqlOutput config timestamp h stringify
       (firstRow :: rest) m =
     Throw "Cannot read properties of undefined (reading 'replace')") ∧
  ((∀ r column t,
      r ∈ firstRow :: rest → m !! column = Some t →
      Json.type t = Some "JSON" → is_Some (Object_get column r)) →
   ∃ text,
     SqlOutput.jsonGenerateSqlOutput config timestamp h stringify
       (firstRow :: rest) m = Ok text).
Proof.
  intros Hm.
  assert (∀ c, c ∈ firstRow.*1 → is_Some (m !! c)) as Hdom.
  { intros c Hc.
    destruct (json_inferColumnTypes_resolves h _ _ m c Hm Hc) as (t' & -> & _).
    by eexists. }
  unfold SqlOutput.jsonGenerateSqlOutput. cbv zeta.
  destruct (mapOutcome_returns (SqlOutput.jsonColumnDef config m) firstRow.*1)
    as [columnDefs ->].
  { intros c [t' Ht']%Hdom. unfold SqlOutput.jsonColumnDef. rewrite Ht'.
    destruct (decide _); by eexists. }
  assert (∀ r' c, c ∈ firstRow.*1 →
            (∃ y, SqlOutput.jsonValue h stringify m r' c = Ok y) ∨
            SqlOutput.jsonValue h stringify m r' c =
            Throw "Cannot read properties of undefined (reading 'replace')")
    as Hvalue.
  { intros r' c [t' Ht']%Hdom. unfold SqlOutput.jsonValue. cbv zeta.
    destruct (from_option _ _ _); [left; by eexists|]. rewrite Ht'.
    destruct (decide _); [|left; by eexists].
    destruct (Object_get c r'); [left; by eexists|by right]. }
  split.
  - intros r column t Hr Ht Hjson Hmissing.
    assert (column ∈ firstRow.*1) as Hcolumn.
    { destruct (json_inferColumnTypes_lookup h _ m column t Hm Ht)
        as [(f & r' & [= <- <-] & Hc) _]. done. }
    rewrite (mapOutcome_throws _ _
      "Cannot read properties of undefined (reading 'replace')"); [done| |].
    + intros r' _. unfold SqlOutput.jsonRow.
      destruct (JsonRecords.mapOutcome _ firstRow.*1) as [ys|msg] eqn:E;
        [left; by eexists|right].
      apply mapOutcome_Throw in E as (c & Hc & Hthrow).
      destruct (Hvalue r' c Hc) as [[y Hy]|Hy]; congruence.
    + exists r. split; [done|]. unfold SqlOutput.jsonRow.
      rewrite (mapOutcome_throws _ _
        "Cannot read properties of undefined (reading 'replace')");
        [done|apply Hvalue|].
      exists column. split; [done|]. unfold SqlOutput.jsonValue. cbv zeta.
      rewrite Hmissing, Ht. cbn [from_option]. by rewrite decide_True.
  - intros Hall.
    destruct (mapOutcome_returns
                (SqlOutput.jsonRow h stringify m firstRow.*1)
                (firstRow :: rest)) as [values ->]; [|by eexists].
    intros r Hr. unfold SqlOutput.jsonRow.
    destruct (mapOutcome_returns (SqlOutput.jsonValue h stringify m r)
                firstRow.*1) as [ys ->]; [|by eexists].
    intros c Hc. destruct (Hdom c Hc) as [t Ht].
    unfold SqlOutput.jsonValue. cbv zeta.
    destruct (from_option _ _ _); [by eexists|]. rewrite Ht.
    destruct (decide _) as [Hjson|]; [|by eexists].
    destruct (Hall r c t Hr Ht Hjson) as [v ->]. by eexists.
Qed.

Lemma jsonGenerateSqlOutput_witness :
  ∃ m,
    Json.inferColumnTypes Node.host
      [ [("active", Js.Bool true); ("id", Js.Str "a")];
        [("id", Js.Str "b")] ] = Ok m ∧
    SqlOutput.jsonGenerateSqlOutput Scenario.plainConfig "now" Node.host
      (Js.toString Node.host)
      [ [("active", Js.Bool true); ("id", Js.Str "a")];
        [("id", Js.Str "b")] ] m =
    Throw "Cannot read properties of undefined (reading 'replace')".
Proof.
  destruct (json_inferColumnTypes_returns Node.host
              [("active", Js.Bool true); ("id", Js.Str "a")]
              [ [("id", Js.Str "b")] ]) as [m Hm].
  { intros r column v Hr Hin _.
    repeat (apply elem_of_cons in Hr as [->|Hr]);
      repeat (apply elem_of_cons in Hin as [[= -> ->]|Hin]);
      try (by apply elem_of_nil in Hin); try (by apply elem_of_nil in Hr).
    all: set_solver. }
  destruct (json_inferColumnTypes_resolves Node.host _ _ m "active" Hm)
    as (t & Ht & Hty); [by left|].
  exists m. split; [exact Hm|].
  apply (proj1 (jsonGenerateSqlOutput_after_inference Scenario.plainConfig
                  "now" Node.host (Js.toString Node.host) _ _ m Hm)
           [("id", Js.Str "b")] "active" t).
  - right. by left.
  - exact Ht.
  - rewrite Hty. reflexivity.
  - reflexivity.
Defined.

(** * Output formats *)

(** A configuration that passed the validation has an extension, and only
    such a configuration: the default branch of [getOutputExtension] is
    not reached after [getConfig]. *)
Theorem validated_format_has_extension (config : Sql.Config) :
  (∃ config', Base.validateFormat config = Some config') ↔
  (∃ extension, Base.getOutputExtension config = Ok extension).
Proof.
  unfold Base.validateFormat, Base.getOutputExtension, Base.validFormats.
  cbv zeta. destruct (decide _) as [Hin|Hnin].
  - split; [intros _|by eexists].
    repeat (apply elem_of_cons in Hin as [->|Hin]); cbn; try by eexists.
    by apply elem_of_nil in Hin.
  - split; [by intros [? ?]|]. intros [extension Hext]. exfalso. apply Hnin.
    destruct (String.eqb_spec (Sql.outputFormat config) "mysql") as [->|_];
      [set_solver|].
    destruct (String.eqb_spec (Sql.outputFormat config) "postgresql")
      as [->|_]; [set_solver|].
    destruct (String.eqb_spec (Sql.outputFormat config) "csv") as [->|_];
      [set_solver|].
    destruct (String.eqb_spec (Sql.outputFormat config) "json") as [->|_];
      [set_solver|].
    done.
Qed.
